(** * A persistent block allocator over an os.File-like store (file.go)

    Shallow embedding of package [file]: the byte codec, the in-memory
    images of slot nodes and pages, and the [Allocator] with its public
    operations [Alloc], [Calloc], [Free], [Realloc] and [UsableSize].

    Conventions of the embedding.
    - [int64] and [int] (64 bits) are [Z]; every arithmetic result of the
      source that can leave the 64-bit range is wrapped with [i64].
    - A buffer or the content of the store is a [list byte]; [byte_of] and
      [Z_of_byte] are the conversions [byte(n)] and [int64(v)].
    - A Go method with a pointer receiver that mutates the receiver returns
      the updated receiver; the [*Allocator] shared by all its pages and
      nodes is the state threaded by the monad [M].
    - A Go result [(v, err)] is [Return v err]; a [panic] is [Panic]; a
      loop that used up its fuel is [OutOfFuel]. *)

From Stdlib Require Import ZArith List Lia Bool.
From Stdlib Require Import Strings.Byte.
From stdpp Require Import base list.
Import ListNotations.
Open Scope Z_scope.

(** ** Constants *)

Definition allocAllign : Z := 16.
Definition bufSize : Z := 1048576.
Definition slotRanks : Z := 7.
Definition maxSharedRank : Z := slotRanks - 1.
Definition firstPageRank : Z := maxSharedRank + 1.
Definition maxSlot : Z := 1024.
Definition pageLog : Z := 12.
Definition pageSize : Z := 4096.
Definition pageMask : Z := pageSize - 1.
Definition ranks : Z := 23.

(** Layout of [node], [page] and [file], as [unsafe.Offsetof] and
    [unsafe.Sizeof] give them for 8-byte fields. *)
Definition oNodePrev : Z := 0.
Definition oNodeNext : Z := 8.
Definition szNode : Z := 16.
Definition oPageBrk : Z := 0.
Definition oPagePrev : Z := 8.
Definition oPageNext : Z := 16.
Definition oPageRank : Z := 24.
Definition oPageSize : Z := 32.
Definition oPageUsed : Z := 40.
Definition szPage : Z := 48.
Definition szTail : Z := 8.
Definition oFileSkip : Z := 16.
Definition oFilePages : Z := 16.
Definition oFileSlots : Z := oFilePages + 8 * ranks.
Definition szFile : Z := oFileSlots + 8 * slotRanks.
Definition pageAvail : Z := pageSize - szPage - szTail.

(** ** 64-bit arithmetic *)

Definition i64 (z : Z) : Z := (z + 2 ^ 63) mod 2 ^ 64 - 2 ^ 63.

(** [x << uint(n)]: a count outside [0, 63] (a negative [n] converts to a
    huge unsigned count) shifts everything out. *)
Definition shl (x n : Z) : Z :=
  if (0 <=? n) && (n <? 64) then i64 (Z.shiftl x n) else 0.

(** [mathutil.BitLen] of the imported package: the width of the non-zero
    part of the 64-bit pattern of [n]. *)
Definition BitLen (n : Z) : Z :=
  if n <? 0 then 64 else if n =? 0 then 0 else Z.log2 n + 1.

Definition log (n : Z) : option Z :=
  if n <=? 0 then None else Some (BitLen (i64 (n - 1))).

Definition roundup (n m : Z) : Z := Z.ldiff (i64 (i64 (n + m) - 1)) (i64 (m - 1)).
Definition roundup64 (n m : Z) : Z := Z.ldiff (i64 (i64 (n + m) - 1)) (i64 (m - 1)).

Definition pageRank (n : Z) : option Z :=
  if n <=? maxSlot then None
  else
    let r := i64 (Z.shiftr (roundup64 n pageSize) pageLog + 6) in
    Some (if r >=? ranks then ranks - 1 else r).

Definition slotRank (n : Z) : option Z :=
  if (n <? 1) || (n >? 1024) then None
  else match log (roundup n allocAllign) with
       | Some l => Some (i64 (l - 4))
       | None => None
       end.

Definition rank (n : Z) : option Z :=
  if n <=? maxSlot then slotRank n else pageRank n.

(** ** Byte codec *)

Definition Z_of_byte (v : byte) : Z := Z.of_N (Byte.to_N v).

(** [byte(n)]: the low 8 bits of [n]. *)
Definition byte_of (n : Z) : byte :=
  default Byte.x00 (Byte.of_N (Z.to_N (Z.land n 255))).

Definition read (b : list byte) : Z :=
  fold_left (fun n v => Z.lor (shl n 8) (Z_of_byte v)) (take 8 b) 0.

Fixpoint write_bytes (k : nat) (n : Z) : list byte :=
  match k with
  | O => []
  | S k' => byte_of (Z.shiftr n 56) :: write_bytes k' (shl n 8)
  end.

Definition write (b : list byte) (n : Z) : list byte :=
  write_bytes 8 n ++ drop 8 b.

(** [write(b[o:], n)] on a buffer [b]. *)
Definition put (b : list byte) (o : Z) (n : Z) : list byte :=
  take (Z.to_nat o) b ++ write (drop (Z.to_nat o) b) n.

(** [for i, v := range vs { write(b[base+8*i:], v) }] *)
Fixpoint put_all (b : list byte) (base : Z) (vs : list Z) : list byte :=
  match vs with
  | [] => b
  | v :: vs' => put_all (put b base v) (base + 8) vs'
  end.

(** A zeroed buffer; a pooled buffer is modelled by one too, since every
    user overwrites the whole of it before it is read. *)
Definition zeros (n : Z) : list byte := replicate (Z.to_nat n) Byte.x00.

(** ** The backing store

    [data] is the content; [faults] schedules the outcome of the coming
    [WriteAt] and [Truncate] calls ([true]: the call fails and leaves the
    content as it is; an exhausted schedule means no more failures). *)

Inductive error : Type :=
  | InvalidArgument
  | CorruptedFile
  | InternalError
  | IOError
  | EOF.

Record File : Type := mkFile { data : list byte; faults : list bool }.

Definition Size (fl : File) : Z := Z.of_nat (length (data fl)).

Definition ReadAt (fl : File) (len off : Z) : list byte * option error :=
  if off <? 0 then ([], Some IOError)
  else
    let bs := take (Z.to_nat len) (drop (Z.to_nat off) (data fl)) in
    (bs, if Z.of_nat (length bs) <? len then Some EOF else None).

Definition next_fault (fl : File) : bool * File :=
  match faults fl with
  | [] => (false, fl)
  | x :: fs => (x, mkFile (data fl) fs)
  end.

(** Overlay [x] on [b] from position [o], extending [b] with zeros. *)
Definition splice (b : list byte) (o : nat) (x : list byte) : list byte :=
  take o (b ++ replicate (o - length b) Byte.x00) ++ x ++ drop (o + length x) b.

Definition WriteAt (fl : File) (b : list byte) (off : Z) : option error * File :=
  let (bad, fl') := next_fault fl in
  if bad || (off <? 0) then (Some IOError, fl')
  else (None, mkFile (splice (data fl') (Z.to_nat off) b) (faults fl')).

Definition Truncate (fl : File) (n : Z) : option error * File :=
  let (bad, fl') := next_fault fl in
  if bad || (n <? 0) then (Some IOError, fl')
  else
    let d := data fl' in
    (None, mkFile (take (Z.to_nat n)
                         (d ++ replicate (Z.to_nat n - length d) Byte.x00))
                  (faults fl')).

(** ** In-memory images *)

Record memNode : Type := mkNode {
  n_dirty : bool;
  n_prev : Z;
  n_next : Z;
  n_off : Z
}.

Record memPage : Type := mkPage {
  p_dirty : bool;
  p_off : Z;
  p_brk : Z;
  p_prev : Z;
  p_next : Z;
  p_rank : Z;
  p_size : Z;
  p_used : Z
}.

Record Allocator : Type := mkAllocator {
  buf : list byte;
  cap : list Z;
  dirty : bool;
  f : File;
  pages : list Z;
  slots : list Z;
  fsize : Z;
  allocs : Z;
  bytes : Z;
  npages : Z
}.

(** A [nil] pointer result; never looked at, the error is checked first. *)
Definition nilNode : memNode := mkNode false 0 0 0.
Definition nilPage : memPage := mkPage false 0 0 0 0 0 0 0.

Definition set_f (a : Allocator) (x : File) : Allocator :=
  mkAllocator (buf a) (cap a) (dirty a) x (pages a) (slots a) (fsize a)
              (allocs a) (bytes a) (npages a).
Definition set_buf (a : Allocator) (x : list byte) : Allocator :=
  mkAllocator x (cap a) (dirty a) (f a) (pages a) (slots a) (fsize a)
              (allocs a) (bytes a) (npages a).
Definition set_dirty (a : Allocator) (x : bool) : Allocator :=
  mkAllocator (buf a) (cap a) x (f a) (pages a) (slots a) (fsize a)
              (allocs a) (bytes a) (npages a).
Definition set_pages (a : Allocator) (x : list Z) : Allocator :=
  mkAllocator (buf a) (cap a) (dirty a) (f a) x (slots a) (fsize a)
              (allocs a) (bytes a) (npages a).
Definition set_slots (a : Allocator) (x : list Z) : Allocator :=
  mkAllocator (buf a) (cap a) (dirty a) (f a) (pages a) x (fsize a)
              (allocs a) (bytes a) (npages a).
Definition set_fsize (a : Allocator) (x : Z) : Allocator :=
  mkAllocator (buf a) (cap a) (dirty a) (f a) (pages a) (slots a) x
              (allocs a) (bytes a) (npages a).
Definition set_allocs (a : Allocator) (x : Z) : Allocator :=
  mkAllocator (buf a) (cap a) (dirty a) (f a) (pages a) (slots a) (fsize a)
              x (bytes a) (npages a).
Definition set_bytes (a : Allocator) (x : Z) : Allocator :=
  mkAllocator (buf a) (cap a) (dirty a) (f a) (pages a) (slots a) (fsize a)
              (allocs a) x (npages a).
Definition set_npages (a : Allocator) (x : Z) : Allocator :=
  mkAllocator (buf a) (cap a) (dirty a) (f a) (pages a) (slots a) (fsize a)
              (allocs a) (bytes a) x.

(** ** Results and the allocator monad *)

Inductive result (A : Type) : Type :=
  | Return (v : A) (err : option error)
  | Panic
  | OutOfFuel.
Arguments Return {A} v err.
Arguments Panic {A}.
Arguments OutOfFuel {A}.

Definition M (A : Type) : Type := Allocator -> result A * Allocator.

Definition ret {A} (v : A) : M A := fun a => (Return v None, a).
Definition fail {A} (v : A) (e : error) : M A := fun a => (Return v (Some e), a).
Definition panic {A} : M A := fun a => (Panic, a).
Definition out_of_fuel {A} : M A := fun a => (OutOfFuel, a).

(** [v, err := m; if err != nil { return d, err }; k v] *)
Definition bind {A B} (m : M A) (d : B) (k : A -> M B) : M B :=
  fun a =>
    match m a with
    | (Return v None, a') => k v a'
    | (Return _ (Some e), a') => (Return d (Some e), a')
    | (Panic, a') => (Panic, a')
    | (OutOfFuel, a') => (OutOfFuel, a')
    end.

(** [return v, m] *)
Definition returning {A B} (v : B) (m : M A) : M B :=
  fun a =>
    match m a with
    | (Return _ e, a') => (Return v e, a')
    | (Panic, a') => (Panic, a')
    | (OutOfFuel, a') => (OutOfFuel, a')
    end.

Notation "'try' x <- m 'else' d ; k" := (bind m d (fun x => k))
  (at level 10, x name, m at level 200, d at level 200, k at level 200,
   format "'[v' 'try'  x  <-  m  'else'  d ; '/' k ']'").

Definition gets {A} (g : Allocator -> A) : M A := fun a => (Return (g a) None, a).
Definition modify (g : Allocator -> Allocator) : M unit :=
  fun a => (Return tt None, g a).

(** Array indexing; out of range is a run-time panic. *)
Definition index (l : list Z) (i : Z) : option Z :=
  if i <? 0 then None else l !! Z.to_nat i.

Definition at_index (sel : Allocator -> list Z) (i : Z) : M Z :=
  fun a => match index (sel a) i with
           | Some v => (Return v None, a)
           | None => (Panic, a)
           end.

Definition f_WriteAt (b : list byte) (off : Z) : M unit :=
  fun a => let (e, fl) := WriteAt (f a) b off in (Return tt e, set_f a fl).

Definition f_Truncate (n : Z) : M unit :=
  fun a => let (e, fl) := Truncate (f a) n in (Return tt e, set_f a fl).

Definition isnil (e : option error) : bool :=
  match e with None => true | Some _ => false end.

(** ** Slot free-list nodes *)

Definition openNode (off : Z) : M memNode :=
  fun a =>
    let (b, err) := ReadAt (f a) szNode off in
    if negb (Z.of_nat (length b) =? szNode) then (Return nilNode err, a)
    else
      (Return (mkNode false
                      (read (drop (Z.to_nat oNodePrev) b))
                      (read (drop (Z.to_nat oNodeNext) b))
                      off) None, a).

Definition memNode_flush (m : memNode) : M memNode :=
  fun a =>
    if negb (n_dirty m) then (Return m None, a)
    else
      let b := zeros szNode in
      let b := put b oNodeNext (n_next m) in
      let b := put b oNodePrev (n_prev m) in
      let (err, fl) := WriteAt (f a) b (n_off m) in
      (Return (mkNode (isnil err) (n_prev m) (n_next m) (n_off m)) err,
       set_f a fl).

Definition memNode_setNext (m : memNode) (n : Z) : memNode :=
  mkNode true (n_prev m) n (n_off m).
Definition memNode_setPrev (m : memNode) (n : Z) : memNode :=
  mkNode true n (n_next m) (n_off m).

Definition setPage (rank n : Z) : M unit :=
  fun a =>
    match index (pages a) rank with
    | Some _ => (Return tt None,
                 set_dirty (set_pages a (<[Z.to_nat rank := n]> (pages a))) true)
    | None => (Panic, a)
    end.

Definition setSlot (rank n : Z) : M unit :=
  fun a =>
    match index (slots a) rank with
    | Some _ => (Return tt None,
                 set_dirty (set_slots a (<[Z.to_nat rank := n]> (slots a))) true)
    | None => (Panic, a)
    end.

Definition memNode_unlink (m : memNode) (rank : Z) : M unit :=
  try _ <- (if negb (n_prev m =? 0) then
              try prev <- openNode (n_prev m) else tt;
              try _ <- memNode_flush (memNode_setNext prev (n_next m)) else tt;
              ret tt
            else ret tt) else tt;
  try _ <- (if negb (n_next m =? 0) then
              try next <- openNode (n_next m) else tt;
              try _ <- memNode_flush (memNode_setPrev next (n_prev m)) else tt;
              ret tt
            else ret tt) else tt;
  try h <- at_index slots rank else tt;
  if h =? n_off m then setSlot rank (n_next m) else ret tt.

(** ** Pages *)

Definition newMemPage (off : Z) : memPage := mkPage false off 0 0 0 0 0 0.

Definition openPage (off : Z) : M memPage :=
  fun a =>
    let (b, err) := ReadAt (f a) szPage off in
    if negb (Z.of_nat (length b) =? szPage) then (Return nilPage err, a)
    else
      (Return (mkPage false off
                      (read (drop (Z.to_nat oPageBrk) b))
                      (read (drop (Z.to_nat oPagePrev) b))
                      (read (drop (Z.to_nat oPageNext) b))
                      (read (drop (Z.to_nat oPageRank) b))
                      (read (drop (Z.to_nat oPageSize) b))
                      (read (drop (Z.to_nat oPageUsed) b))) None, a).

Definition page_bytes (m : memPage) : list byte :=
  let b := zeros szPage in
  let b := put b oPageBrk (p_brk m) in
  let b := put b oPageNext (p_next m) in
  let b := put b oPagePrev (p_prev m) in
  let b := put b oPageRank (p_rank m) in
  let b := put b oPageSize (p_size m) in
  put b oPageUsed (p_used m).

Definition with_dirty (m : memPage) (d : bool) : memPage :=
  mkPage d (p_off m) (p_brk m) (p_prev m) (p_next m) (p_rank m) (p_size m)
         (p_used m).

Definition memPage_flush (m : memPage) : M memPage :=
  fun a =>
    if negb (p_dirty m) then (Return m None, a)
    else
      let (err, fl) := WriteAt (f a) (page_bytes m) (p_off m) in
      (Return (with_dirty m (isnil err)) err, set_f a fl).

Definition memPage_setBrk (m : memPage) (n : Z) : memPage :=
  mkPage true (p_off m) n (p_prev m) (p_next m) (p_rank m) (p_size m) (p_used m).
Definition memPage_setNext (m : memPage) (n : Z) : memPage :=
  mkPage true (p_off m) (p_brk m) (p_prev m) n (p_rank m) (p_size m) (p_used m).
Definition memPage_setPrev (m : memPage) (n : Z) : memPage :=
  mkPage true (p_off m) (p_brk m) n (p_next m) (p_rank m) (p_size m) (p_used m).
Definition memPage_setRank (m : memPage) (n : Z) : memPage :=
  mkPage true (p_off m) (p_brk m) (p_prev m) (p_next m) n (p_size m) (p_used m).
Definition memPage_setSize (m : memPage) (n : Z) : memPage :=
  mkPage true (p_off m) (p_brk m) (p_prev m) (p_next m) (p_rank m) n (p_used m).
Definition memPage_setUsed (m : memPage) (n : Z) : memPage :=
  mkPage true (p_off m) (p_brk m) (p_prev m) (p_next m) (p_rank m) (p_size m) n.

Definition memPage_setTail (m : memPage) (n : Z) : M unit :=
  f_WriteAt (write (zeros 8) n)
            (i64 (i64 (p_off m + p_size m) - szTail)).

Definition memPage_slot (m : memPage) (i : Z) : Z :=
  i64 (i64 (p_off m + szPage) + shl i (i64 (p_rank m + 4))).

Fixpoint freeSlots_loop (m : memPage) (i : Z) (n : nat) : M unit :=
  match n with
  | O => ret tt
  | S n' =>
      try nd <- openNode (memPage_slot m i) else tt;
      try _ <- memNode_unlink nd (p_rank m) else tt;
      try _ <- memNode_flush nd else tt;
      freeSlots_loop m (i + 1) n'
  end.

Definition memPage_freeSlots (m : memPage) : M unit :=
  if negb (p_used m =? 0) then fail tt InternalError
  else freeSlots_loop m 0 (Z.to_nat (p_brk m)).

Definition memPage_unlink (m : memPage) : M memPage :=
  try _ <- (if negb (p_prev m =? 0) then
              try prev <- openPage (p_prev m) else tt;
              try _ <- memPage_flush (memPage_setNext prev (p_next m)) else tt;
              ret tt
            else ret tt) else m;
  try _ <- (if negb (p_next m =? 0) then
              try next <- openPage (p_next m) else tt;
              try _ <- memPage_flush (memPage_setPrev next (p_prev m)) else tt;
              ret tt
            else ret tt) else m;
  try h <- at_index pages (p_rank m) else m;
  try _ <- (if h =? p_off m then setPage (p_rank m) (p_next m) else ret tt) else m;
  ret (memPage_setNext (memPage_setPrev m 0) 0).

Definition insertPage (p : memPage) : M memPage :=
  if negb (p_prev p =? 0) || negb (p_next p =? 0) then panic
  else
    try h <- at_index pages (p_rank p) else p;
    let p := memPage_setNext p h in
    try _ <- (if negb (p_next p =? 0) then
                try next <- openPage (p_next p) else tt;
                try _ <- memPage_flush (memPage_setPrev next (p_off p)) else tt;
                ret tt
              else ret tt) else p;
    try _ <- setPage (p_rank p) (p_off p) else p;
    ret p.

Definition insertSlot (rank off : Z) : M unit :=
  try h <- at_index slots rank else tt;
  let m := memNode_setNext (mkNode false 0 0 off) h in
  try _ <- (if negb (n_next m =? 0) then
              try next <- openNode (n_next m) else tt;
              try _ <- memNode_flush (memNode_setPrev next off) else tt;
              ret tt
            else ret tt) else tt;
  try _ <- setSlot rank off else tt;
  try _ <- memNode_flush m else tt;
  ret tt.

(** ** The allocator *)

Definition check (n min max : Z) : Z * option error :=
  if (n <? min) || (n >? max) then (0, Some CorruptedFile) else (n, None).

Definition flush : M unit :=
  fun a =>
    if negb (dirty a) then (Return tt None, a)
    else
      let b := put_all (buf a) (oFilePages - oFileSkip) (pages a) in
      let b := put_all b (oFileSlots - oFileSkip) (slots a) in
      let (err, fl) := WriteAt (f a) b oFileSkip in
      (Return tt err, set_dirty (set_f (set_buf a b) fl) (isnil err)).

(** [Close] of the store is scheduled like a write: it can fail, and it
    leaves the content as it is. *)
Definition f_Close : M unit :=
  fun a => let (bad, fl) := next_fault (f a) in
           (Return tt (if bad then Some IOError else None), set_f a fl).

Definition Allocator_Close : M unit :=
  try _ <- flush else tt;
  f_Close.

Definition memPage_split (m : memPage) (need : Z) : M Z :=
  if p_rank m <=? maxSharedRank then fail (-1) InternalError
  else
    let have := p_size m in
    let m := memPage_setSize m need in
    match pageRank (p_size m) with
    | None => panic
    | Some r =>
        let m := memPage_setRank m r in
        try m <- memPage_flush m else (-1);
        try _ <- memPage_setTail m 0 else (-1);
        let n := newMemPage (i64 (p_off m + p_size m)) in
        let n := memPage_setSize n (i64 (have - need)) in
        match pageRank (i64 (have - need)) with
        | None => panic
        | Some r' =>
            let n := memPage_setRank n r' in
            try _ <- modify (fun a => set_npages a (i64 (npages a + 1))) else (-1);
            try n <- insertPage n else (-1);
            try n <- memPage_flush n else (-1);
            try _ <- memPage_setTail n (p_size n) else (-1);
            returning (i64 (p_off m + szPage)) flush
        end
    end.

Definition Allocator_read (off : Z) : M Z :=
  fun a =>
    let (b, err) := ReadAt (f a) 8 off in
    if negb (Z.of_nat (length b) =? 8) then (Return (-1) err, a)
    else (Return (read b) None, a).

Fixpoint check_heads (b : list byte) (base : Z) (max : Z) (n : nat) (i : Z)
  : option (list Z) :=
  match n with
  | O => Some []
  | S n' =>
      match check (read (drop (Z.to_nat (base + 8 * i)) b)) 0 max with
      | (v, None) =>
          match check_heads b base max n' (i + 1) with
          | Some vs => Some (v :: vs)
          | None => None
          end
      | (_, Some _) => None
      end
  end.

Definition NewAllocator (fl : File) : result (option Allocator) * File :=
  let a := mkAllocator (zeros (szFile - oFileSkip))
                       (map (fun i => pageAvail / Z.shiftl 1 (Z.of_nat i + 4))
                            (seq 0 (Z.to_nat slotRanks)))
                       false fl
                       (replicate (Z.to_nat ranks) 0)
                       (replicate (Z.to_nat slotRanks) 0)
                       (Size fl) 0 0 0 in
  if fsize a <=? oFileSkip then
    match WriteAt fl (buf a) oFileSkip with
    | (Some e, fl') => (Return None (Some e), fl')
    | (None, fl') => (Return (Some (set_f a fl')) None, fl')
    end
  else
    let (b, err) := ReadAt fl (Z.of_nat (length (buf a))) oFileSkip in
    if negb (length b =? length (buf a))%nat then (Return None err, fl)
    else
      let max := i64 (fsize a - szPage) in
      match check_heads b (oFilePages - oFileSkip) max (Z.to_nat ranks) 0 with
      | None => (Return None (Some CorruptedFile), fl)
      | Some ps =>
          match check_heads b (oFileSlots - oFileSkip) max (Z.to_nat slotRanks) 0 with
          | None => (Return None (Some CorruptedFile), fl)
          | Some ss => (Return (Some (set_slots (set_pages (set_buf a b) ps) ss)) None, fl)
          end
      end.

Definition usableSize (off : Z) : M (Z * memPage) :=
  if off <? szFile + szPage then fail (-1, nilPage) InvalidArgument
  else
    try p <- openPage (i64 (Z.ldiff (i64 (off - szFile)) pageMask + szFile))
      else (-1, nilPage);
    if (p_rank p <? 0) || (p_rank p >=? ranks) then panic
    else if p_rank p <=? maxSharedRank then ret (shl 1 (i64 (p_rank p + 4)), p)
    else ret (i64 (i64 (p_size p - szPage) - szTail), p).

Definition UsableSize (off : Z) : M Z :=
  fun a =>
    match usableSize off a with
    | (Return (n, _) e, a') => (Return n e, a')
    | (Panic, a') => (Panic, a')
    | (OutOfFuel, a') => (OutOfFuel, a')
    end.

Definition newPage (size : Z) : M memPage :=
  fun a =>
    let off := i64 (roundup64 (i64 (fsize a - szFile)) pageSize + szFile) in
    let size := roundup64 (i64 (i64 (szPage + size) + szTail)) pageSize in
    let p := newMemPage off in
    match pageRank size with
    | None => (Panic, a)
    | Some r =>
        let p := memPage_setSize (memPage_setRank p r) size in
        let a := set_bytes a (i64 (bytes a + size)) in
        let a := set_fsize a (i64 (off + size)) in
        let a := set_npages a (i64 (npages a + 1)) in
        returning p (memPage_setTail p 0) a
    end.

Definition newSharedPage (rank : Z) : M memPage :=
  fun a =>
    let off := i64 (roundup64 (i64 (fsize a - szFile)) pageSize + szFile) in
    let p := newMemPage off in
    let p := memPage_setSize (memPage_setRank p rank) pageSize in
    let a := set_bytes a (i64 (bytes a + pageSize)) in
    let a := set_fsize a (i64 (off + pageSize)) in
    let a := set_npages a (i64 (npages a + 1)) in
    returning p (memPage_setTail p 0) a.

Definition sbrk (off rank : Z) : M Z :=
  try p <- openPage off else (-1);
  if negb (rank =? p_rank p) then panic
  else
    let p := memPage_setUsed p (i64 (p_used p + 1)) in
    let p := memPage_setBrk p (i64 (p_brk p + 1)) in
    try c <- at_index cap rank else (-1);
    try p <- (if p_brk p =? c then memPage_unlink p else ret p) else (-1);
    try p <- memPage_flush p else (-1);
    returning (memPage_slot p (i64 (p_brk p - 1))) flush.

Definition sbrk2 (off rank : Z) : M Z :=
  try p <- openPage off else (-1);
  try p <- memPage_unlink p else (-1);
  let p := memPage_setRank p rank in
  let p := memPage_setUsed p 1 in
  let p := memPage_setBrk p 1 in
  try p <- insertPage p else (-1);
  try p <- memPage_flush p else (-1);
  try _ <- memPage_setTail p 0 else (-1);
  returning (i64 (p_off p + szPage)) flush.

Definition allocSlot (off rank : Z) : M Z :=
  try n <- openNode off else (-1);
  try _ <- memNode_unlink n rank else (-1);
  try p <- openPage (i64 (Z.ldiff (i64 (off - szFile)) pageMask + szFile)) else (-1);
  let p := memPage_setUsed p (i64 (p_used p + 1)) in
  try _ <- memPage_flush p else (-1);
  returning off flush.

Definition allocBig2 (off : Z) : M Z :=
  try p <- openPage off else (-1);
  try p <- memPage_unlink p else (-1);
  try p <- memPage_flush p else (-1);
  try _ <- memPage_setTail p 0 else (-1);
  returning (i64 (p_off p + szPage)) flush.

Definition allocMaxRank (p : memPage) (need : Z) : M Z :=
  try p <- memPage_unlink p else (-1);
  let rem := i64 (p_size p - need) in
  let p := memPage_setSize p need in
  match pageRank (p_size p) with
  | None => panic
  | Some r =>
      let p := memPage_setRank p r in
      try p <- memPage_flush p else (-1);
      try _ <- memPage_setTail p 0 else (-1);
      try _ <- (if negb (rem =? 0) then
                  let q := newMemPage (i64 (p_off p + p_size p)) in
                  let q := memPage_setSize q rem in
                  match pageRank rem with
                  | None => panic
                  | Some r' =>
                      let q := memPage_setRank q r' in
                      try _ <- modify (fun a => set_npages a (i64 (npages a + 1))) else tt;
                      try q <- insertPage q else tt;
                      try q <- memPage_flush q else tt;
                      try _ <- memPage_setTail q (p_size q) else tt;
                      ret tt
                  end
                else ret tt) else (-1);
      returning (i64 (p_off p + szPage)) flush
  end.

(** The inner loop of [allocBig] over the last rank: at most two pages of
    the list are tried; [k] is what follows the loop. *)
Fixpoint allocBig_scan (need off : Z) (j : nat) (k : M Z) : M Z :=
  match j with
  | O => k
  | S j' =>
      if off =? 0 then k
      else
        try p <- openPage off else (-1);
        if p_size p >=? need then allocMaxRank p need
        else allocBig_scan need (p_next p) j' k
  end.

(** The loop of [allocBig] over the ranks [i], [i + 1], ...; [n] ranks are
    left and [k] is what follows the loop. *)
Fixpoint allocBig_loop (need i : Z) (n : nat) (k : M Z) : M Z :=
  match n with
  | O => k
  | S n' =>
      try off <- at_index pages i else (-1);
      if off =? 0 then allocBig_loop need (i + 1) n' k
      else if i <? ranks - 1 then allocBig2 off
      else allocBig_scan need off 2 (allocBig_loop need (i + 1) n' k)
  end.

Definition allocBig (size : Z) : M Z :=
  let need := roundup64 (i64 (i64 (szPage + size) + szTail)) pageSize in
  match pageRank need with
  | None => panic
  | Some rank =>
      allocBig_loop need rank (Z.to_nat (ranks - rank))
        (try p <- newPage size else (-1);
         try p <- memPage_flush p else (-1);
         returning (i64 (p_off p + szPage)) flush)
  end.

Definition Alloc (size : Z) : M Z :=
  if size <=? 0 then fail (-1) InvalidArgument
  else
    try _ <- modify (fun a => set_allocs a (i64 (allocs a + 1))) else (-1);
    if size >? maxSlot then allocBig size
    else
      match slotRank size with
      | None => panic
      | Some rank =>
          try off <- at_index pages rank else (-1);
          if negb (off =? 0) then sbrk off rank
          else
            try off <- at_index pages firstPageRank else (-1);
            if negb (off =? 0) then sbrk2 off rank
            else
              try off <- at_index slots rank else (-1);
              if negb (off =? 0) then allocSlot off rank
              else
                try p <- newSharedPage rank else (-1);
                try p <- insertPage p else (-1);
                let p := memPage_setUsed p 1 in
                let p := memPage_setBrk p 1 in
                try p <- memPage_flush p else (-1);
                returning (memPage_slot p 0) flush
      end.

(** The zeroing loop of [Calloc]: every round writes at least one byte, so
    [size / len b + 1] rounds are enough. *)
Fixpoint Calloc_loop (fuel : nat) (b : list byte) (dst size : Z) : M unit :=
  if size =? 0 then ret tt
  else
    match fuel with
    | O => out_of_fuel
    | S fuel' =>
        let rq := if size <? Z.of_nat (length b) then size
                  else Z.of_nat (length b) in
        if rq <? 0 then panic
        else
          try _ <- f_WriteAt (take (Z.to_nat rq) b) dst else tt;
          Calloc_loop fuel' b (i64 (dst + rq)) (i64 (size - rq))
    end.

Definition Calloc (size : Z) : M Z :=
  try off <- Alloc size else (-1);
  let b := zeros (Z.min bufSize size) in
  try _ <- Calloc_loop (S (Z.to_nat (size / bufSize))) b off size else (-1);
  ret off.

(** The loop of [freeLastPage]: every further round opens a page that lies
    wholly below the offset the store was just truncated to, so the offset
    of the page bounds the number of rounds. *)
Fixpoint freeLastPage_loop (fuel : nat) (p : memPage) : M unit :=
  match fuel with
  | O => out_of_fuel
  | S fuel' =>
      try _ <- (if p_rank p <=? maxSharedRank then memPage_freeSlots p
                else ret tt) else tt;
      try p <- memPage_unlink p else tt;
      try p <- memPage_flush p else tt;
      try _ <- f_Truncate (p_off p) else tt;
      try _ <- modify (fun a =>
                 set_bytes (set_npages (set_fsize a (p_off p))
                                       (i64 (npages a - 1)))
                           (i64 (bytes a - p_size p))) else tt;
      if p_off p >? szFile then
        try prevSize <- Allocator_read (i64 (p_off p - szTail)) else tt;
        if negb (prevSize =? 0) then
          try p <- openPage (i64 (p_off p - prevSize)) else tt;
          freeLastPage_loop fuel' p
        else ret tt
      else ret tt
  end.

Definition freeLastPage (p : memPage) : M unit :=
  freeLastPage_loop (S (Z.to_nat (p_off p))) p.

Definition freePage (p : memPage) : M unit :=
  if negb (p_used p =? 0) then fail tt InternalError
  else
    try fs <- gets fsize else tt;
    if i64 (p_off p + p_size p) =? fs then freeLastPage p
    else
      try p <- (if p_rank p <=? maxSharedRank then
                  try _ <- memPage_freeSlots p else p;
                  try p <- memPage_unlink p else p;
                  ret (memPage_setRank (memPage_setBrk p 0) firstPageRank)
                else ret p) else tt;
      try p <- insertPage p else tt;
      try p <- memPage_flush p else tt;
      memPage_setTail p (p_size p).

Definition Free (off : Z) : M unit :=
  if off <? szFile + szPage then fail tt InvalidArgument
  else
    try _ <- modify (fun a => set_allocs a (i64 (allocs a - 1))) else tt;
    try p <- openPage (i64 (Z.ldiff (i64 (off - szFile)) pageMask + szFile)) else tt;
    if p_rank p >? maxSharedRank then
      try _ <- freePage p else tt;
      flush
    else
      let p := memPage_setUsed p (i64 (p_used p - 1)) in
      try _ <- insertSlot (p_rank p) off else tt;
      if p_used p =? 0 then
        try _ <- freePage p else tt;
        flush
      else
        try _ <- memPage_flush p else tt;
        flush.

(** The copy loop of [Realloc]; [k] is what follows the loop. A round may
    read more than [rem] bytes, so [rem] can step over zero and the loop has
    no bound of its own: it runs on [fuel]. *)
Fixpoint Realloc_loop (fuel : nat) (len src dst rem : Z) (k : M Z) : M Z :=
  if rem =? 0 then k
  else
    match fuel with
    | O => out_of_fuel
    | S fuel' =>
        fun a =>
          let (b, err) := ReadAt (f a) len src in
          let n := Z.of_nat (length b) in
          if n =? 0 then (Return (-1) err, a)
          else
            (try _ <- f_WriteAt b dst else (-1);
             Realloc_loop fuel' len (i64 (src + n)) (i64 (dst + n))
                          (i64 (rem - n)) k) a
    end.

Definition Realloc (fuel : nat) (off size : Z) : M Z :=
  if off <? szFile + szPage then fail (-1) InvalidArgument
  else if size =? 0 then returning (-1) (Free off)
  else
    try op <- usableSize off else (-1);
    let oldSize := fst op in
    let p := snd op in
    let move : M Z :=
      try newOff <- Alloc size else (-1);
      let rem := Z.min oldSize size in
      if Z.min bufSize rem <? 0 then panic
      else
        Realloc_loop fuel (Z.min bufSize rem) off newOff rem
                     (returning newOff (Free off)) in
    if oldSize >=? size then
      match rank size with
      | None => panic
      | Some newRank =>
          if p_rank p =? newRank then ret off
          else if newRank >? maxSharedRank then
            let need := roundup64 (i64 (i64 (szPage + size) + szTail)) pageSize in
            if p_size p >? need then memPage_split p need
            else move
          else move
      end
    else move.

(** ** Views of the store and the data-model invariants

    The statements below look at the store through the code's own
    [openPage] and [openNode]. *)

Definition probe (fl : File) : Allocator :=
  mkAllocator [] [] false fl [] [] 0 0 0 0.

Definition page_at (fl : File) (off : Z) : option memPage :=
  match openPage off (probe fl) with
  | (Return p None, _) => Some p
  | _ => None
  end.

Definition node_at (fl : File) (off : Z) : option memNode :=
  match openNode off (probe fl) with
  | (Return n None, _) => Some n
  | _ => None
  end.

(** The header of the page that holds the block at [off], as [Free],
    [allocSlot] and [usableSize] compute it. *)
Definition pageOf (off : Z) : Z :=
  i64 (Z.ldiff (i64 (off - szFile)) pageMask + szFile).

(** Invariant 5: a page header lies on a 4 KiB boundary counted from the
    end of the file header. *)
Definition aligned (off : Z) : bool :=
  (szFile <=? off) && ((off - szFile) mod pageSize =? 0).

Definition link_ok (off : Z) : bool := (off =? 0) || aligned off.

(** A slot of a shared page: 16-byte aligned, behind the page header and
    with room for a node before the tail word. *)
Definition slot_pos (off : Z) : bool :=
  (szFile + szPage <=? off) && (off mod allocAllign =? 0)
  && (szPage <=? (off - szFile) mod pageSize)
  && ((off - szFile) mod pageSize <=? pageSize - szTail - szNode).

Definition node_link_ok (off : Z) : bool := (off =? 0) || slot_pos off.

(** The page-rank table: a shared page is one 4 KiB page of rank 0..6; the
    rank of an exclusive page is the rank of its size, a positive multiple
    of the page size. *)
Definition shape_ok (p : memPage) : bool :=
  if p_rank p <=? maxSharedRank then
    (0 <=? p_rank p) && (p_size p =? pageSize)
  else
    (0 <? p_size p) && (p_size p mod pageSize =? 0)
    && match pageRank (p_size p) with
       | Some r => p_rank p =? r
       | None => false
       end.

Definition links_ok (p : memPage) : bool :=
  link_ok (p_prev p) && link_ok (p_next p).

(** The head [h] of the page list of rank [r] (invariants 1, 2, 4, 5): an
    aligned, readable page of that rank and shape whose links are aligned; a
    shared page on its list has slots left to carve; in the last list, which
    [allocBig] follows one step, the second page is readable too. *)
Definition head_ok (fl : File) (c : list Z) (r h : Z) : bool :=
  (h =? 0)
  || (aligned h
      && match page_at fl h with
         | Some p =>
             (p_rank p =? r) && links_ok p && shape_ok p
             && (if r <=? maxSharedRank then
                   (0 <=? p_brk p)
                   && match index c r with
                      | Some k => p_brk p <? k
                      | None => false
                      end
                 else true)
             && (if r =? ranks - 1 then
                   (p_next p =? 0)
                   || match page_at fl (p_next p) with
                      | Some q => links_ok q
                      | None => false
                      end
                 else true)
         | None => false
         end).

(** The head [h] of the slot list of rank [r] (invariant 3): a readable
    node at a slot position of a page of rank [r], linked to slot
    positions. *)
Definition slot_head_ok (fl : File) (r h : Z) : bool :=
  (h =? 0)
  || (slot_pos h
      && match node_at fl h with
         | Some n => node_link_ok (n_prev n) && node_link_ok (n_next n)
         | None => false
         end
      && match page_at fl (pageOf h) with
         | Some p => p_rank p =? r
         | None => false
         end).

Fixpoint heads_ok (fl : File) (c : list Z) (r : Z) (hs : list Z) : bool :=
  match hs with
  | [] => true
  | h :: hs' => head_ok fl c r h && heads_ok fl c (r + 1) hs'
  end.

Fixpoint slot_heads_ok (fl : File) (r : Z) (hs : list Z) : bool :=
  match hs with
  | [] => true
  | h :: hs' => slot_head_ok fl r h && slot_heads_ok fl (r + 1) hs'
  end.

Definition caps : list Z := [252; 126; 63; 31; 15; 7; 3].

Fixpoint eqb_list (l k : list Z) : bool :=
  match l, k with
  | [], [] => true
  | x :: l', y :: k' => (x =? y) && eqb_list l' k'
  | _, _ => false
  end.

(** The data-model invariants of an allocator state, as far as one
    operation looks: the in-memory mirror has the shape [NewAllocator]
    gives it, [fsize] and the length of the store are file lengths (far
    below the end of the 64-bit range), and every list head is well
    formed. *)
Definition inv (a : Allocator) : bool :=
  eqb_list (cap a) caps
  && (length (buf a) =? Z.to_nat (szFile - oFileSkip))%nat
  && (length (pages a) =? Z.to_nat ranks)%nat
  && (length (slots a) =? Z.to_nat slotRanks)%nat
  && (0 <=? fsize a) && (fsize a <=? 2 ^ 62) && (Size (f a) <=? 2 ^ 62)
  && heads_ok (f a) (cap a) 0 (pages a)
  && slot_heads_ok (f a) 0 (slots a).

(** ** States of the end-to-end scenarios *)

Definition empty : File := mkFile [] [].

(** The state after [m]; the results are stated next to it. *)
Definition after {A} (m : M A) (a : Allocator) : Allocator := snd (m a).

Definition fresh : Allocator :=
  match NewAllocator empty with
  | (Return (Some a) _, _) => a
  | _ => probe empty
  end.

(** Scenario 1: one small block. *)
Definition small : Allocator := after (Alloc 10) fresh.

(** Scenario 3: one large block, then shrunk in place. *)
Definition big : Allocator := after (Alloc 10000) fresh.
Definition shrunk : Allocator := after (Realloc 0 304 5000) big.

(** A store with a free single page in the middle: a small block, a large
    block behind it, and the small block freed again. *)
Definition reuse : Allocator :=
  after (Free 304) (after (Alloc 2000) (after (Alloc 10) fresh)).

(** A full shared page of rank 6: three blocks of 1024 bytes, at 304, 1328
    and 2352. *)
Definition full3 : Allocator :=
  after (Alloc 1024) (after (Alloc 1024) (after (Alloc 1024) fresh)).

(** A full shared page of rank 6 (three slots of 1024 bytes) one slot of
    which is free again: the page is on no list, the slot heads the slot
    list of its rank. *)
Definition slot_freed : Allocator :=
  after (Free 304) (after (Alloc 1024) (after (Alloc 1024) (after (Alloc 1024) fresh))).

(** The same page with a second slot freed: the node at 1328 links to the
    node at 304. *)
Definition two_freed : Allocator := after (Free 1328) slot_freed.

(** Two small blocks, at 304 and 320, in the shared page at 256. *)
Definition pair : Allocator := after (Alloc 10) small.

(** One block of more than a megabyte. *)
Definition mega : Allocator := after (Alloc 1100000) fresh.

(** A block of [n] bytes in an exclusive page, with a live shared page
    behind it. *)
Definition plugged (n : Z) : Allocator :=
  after (Alloc 10) (after (Alloc n) fresh).

(** A free exclusive page of [n] usable bytes in front of a live shared
    page. *)
Definition hole (n : Z) : Allocator :=
  after (Free 304) (after (Alloc 10) (after (Alloc n) fresh)).

(** The first statement of [Alloc], [a.allocs++]. *)
Definition counted (a : Allocator) : Allocator := set_allocs a (i64 (allocs a + 1)).

(** The list heads as a store presents them to [NewAllocator]: head [i]
    of the 23 page lists followed by the 7 slot lists. *)
Definition head_at (fl : File) (i : Z) : Z :=
  read (drop (Z.to_nat (8 * i))
             (take (Z.to_nat (szFile - oFileSkip))
                   (drop (Z.to_nat oFileSkip) (data fl)))).

(** A store of [n] zero bytes that never fails. *)
Definition blank (n : nat) : File := mkFile (replicate n Byte.x00) [].

(** ** Notions used by the proofs *)

(** The range of [int64]. *)
Definition is64 (z : Z) : Prop := - 2 ^ 63 <= z < 2 ^ 63.

(** The [len] bytes of [d] from position [off]. *)
Definition region (d : list byte) (off len : nat) : list byte := take len (drop off d).

(** The page image that [openPage] decodes from the 48 bytes [b]. *)
Definition dec (off : Z) (b : list byte) : memPage :=
  mkPage false off (read (drop 0 b)) (read (drop 8 b)) (read (drop 16 b))
         (read (drop 24 b)) (read (drop 32 b)) (read (drop 40 b)).

(** The node image that [openNode] decodes from the 16 bytes [b]. *)
Definition ndec (off : Z) (b : list byte) : memNode :=
  mkNode false (read (drop 0 b)) (read (drop 8 b)) off.

(** The store holds at [off] a page header of rank [r] and size [s]. *)
Definition hdr (fl : File) (off r s : Z) : Prop :=
  exists p, page_at fl off = Some p /\ p_rank p = r /\ p_size p = s.

(** The shape of the in-memory mirror: the header buffer, the two
    arrays of heads and the table of slot capacities. *)
Definition good (a : Allocator) : Prop :=
  length (buf a) = 240%nat /\ length (pages a) = 23%nat
  /\ length (slots a) = 7%nat /\ cap a = caps.

(** [m] keeps the shape of the mirror, whatever its outcome. *)
Definition pres {A} (m : M A) : Prop :=
  forall a r a', good a -> m a = (r, a') -> good a'.

(** The mirror has its shape and the store holds the header at [off]. *)
Definition G (off r s : Z) (a : Allocator) : Prop := good a /\ hdr (f a) off r s.

(** [inv] read as propositions. *)
Record Inv (a : Allocator) : Prop := {
  inv_good : good a;
  inv_fsize : 0 <= fsize a <= 2 ^ 62;
  inv_size : Size (f a) <= 2 ^ 62;
  inv_head : forall r h, index (pages a) r = Some h -> head_ok (f a) caps r h = true;
  inv_slot : forall r h, index (slots a) r = Some h -> slot_head_ok (f a) r h = true
}.

(** The slot rank of [n] exists, lies in 0..6 and its slot holds [n] bytes. *)
Definition slotRank_check (n : Z) : bool :=
  match slotRank n with
  | Some r => (0 <=? r) && (r <=? 6) && (n <=? 2 ^ (r + 4))
  | None => false
  end.

(** An offset handed out to a caller: behind the first page header, in
    the 64-bit range, 16-byte aligned and behind the header of its page. *)
Definition okoff (o : Z) : Prop :=
  304 <= o < 2 ^ 63 /\ o mod 16 = 0 /\ pageOf o + 48 <= o.

(** [p] is the first or the second page of the list that starts at [h]. *)
Definition reach2 (fl : File) (h : Z) (p : memPage) : Prop :=
  page_at fl h = Some p
  \/ exists p1, page_at fl h = Some p1 /\ p_next p1 <> 0
                /\ page_at fl (p_next p1) = Some p.

(** The block at [o] lies in a page whose header, in the state [a'],
    has a rank and a size that hold [size] bytes. *)
Definition Served (size o : Z) (a' : Allocator) : Prop :=
  okoff o
  /\ exists r s, G (pageOf o) r s a'
       /\ (slotRank size = Some r \/ (1024 < size /\ 7 <= r <= 22 /\ size + 56 <= s)).

(** [m] never stops for want of fuel. *)
Definition total {A} (m : M A) : Prop := forall a a', m a <> (OutOfFuel, a').

(** A store of 300 bytes whose first list head is negative. *)
Definition garbled : File :=
  mkFile (replicate 16 Byte.x00 ++ [Byte.xff] ++ replicate 283 Byte.x00) [].

(** The slot rank of [n] is the least rank whose slot holds [n] bytes. *)
Definition slotRank_tight (n : Z) : bool :=
  match slotRank n with
  | Some r => (0 <=? r) && (r <=? 6) && (n <=? 16 * 2 ^ r)
              && ((r =? 0) || (16 * 2 ^ (r - 1) <? n))
  | None => false
  end.

(** The six fields of a page image are 64-bit integers. *)
Definition int64_page (m : memPage) : Prop :=
  is64 (p_brk m) /\ is64 (p_prev m) /\ is64 (p_next m)
  /\ is64 (p_rank m) /\ is64 (p_size m) /\ is64 (p_used m).

(** [m] never shortens the store, whatever its outcome. *)
Definition grows {A} (m : M A) : Prop :=
  forall a r a', m a = (r, a') -> Size (f a) <= Size (f a').

(** The outcome of a copy that did not get to its end: -1 with an error,
    or no outcome within the rounds granted; never a success, never a panic. *)
Definition copy_failed (r : result Z * Allocator) : Prop :=
  match fst r with
  | Return o None => False
  | Return o (Some _) => o = -1
  | Panic => False
  | OutOfFuel => True
  end.

(** * Proofs *)

Lemma i64_is64 z : is64 (i64 z).
Proof. unfold is64, i64. pose proof (Z.mod_pos_bound (z + 2 ^ 63) (2 ^ 64)). lia. Qed.

Lemma i64_id z : is64 z -> i64 z = z.
Proof. unfold is64, i64. intros. rewrite Z.mod_small; lia. Qed.

Lemma Z_of_byte_range v : 0 <= Z_of_byte v < 256.
Proof. unfold Z_of_byte. pose proof (Byte.to_N_bounded v). lia. Qed.

Lemma Z_of_byte_of z : Z_of_byte (byte_of z) = z mod 256.
Proof.
  unfold Z_of_byte, byte_of.
  change 255 with (Z.ones 8). rewrite Z.land_ones by lia.
  pose proof (Z.mod_pos_bound z 256 ltac:(lia)) as Hr.
  change (2 ^ 8) with 256.
  destruct (Byte.of_N (Z.to_N (z mod 256))) as [y|] eqn:E.
  - apply Byte.to_of_N in E. simpl. rewrite E. lia.
  - apply Byte.of_N_None_iff in E. lia.
Qed.

Lemma lor_low a v : a mod 256 = 0 -> 0 <= v < 256 -> Z.lor a v = a + v.
Proof.
  intros Ha Hv. rewrite <- Z.add_lor_land.
  assert (Z.land a v = 0) as ->; [|lia].
  apply Z.bits_inj'. intros i Hi. rewrite Z.land_spec, Z.bits_0.
  destruct (Z.lt_ge_cases i 8).
  - assert (a = (a / 256) * 2 ^ 8) as -> by (change (2^8) with 256; pose proof (Z.div_mod a 256); lia).
    rewrite Z.mul_pow2_bits_low by lia. reflexivity.
  - destruct (Z.eq_dec v 0) as [->|]. { rewrite Z.bits_0. apply andb_false_r. }
    rewrite (Z.bits_above_log2 v i), andb_false_r; try lia.
    assert (Z.log2 v < 8); [|lia]. apply Z.log2_lt_pow2; lia.
Qed.

Lemma shl8 n : shl n 8 = i64 (n * 256).
Proof. unfold shl. simpl. rewrite Z.shiftl_mul_pow2 by lia. reflexivity. Qed.

Lemma step_eq acc v : 0 <= v < 256 -> Z.lor (shl acc 8) v = i64 (acc * 256) + v.
Proof.
  intros. rewrite shl8. apply lor_low; [|lia].
  unfold i64. Z.div_mod_to_equations. lia.
Qed.

Lemma byte_val n : Z_of_byte (byte_of (Z.shiftr n 56)) = (n / 2 ^ 56) mod 256.
Proof. rewrite Z_of_byte_of, Z.shiftr_div_pow2 by lia. reflexivity. Qed.

Lemma i64_mul256 x : i64 (i64 x * 256) = i64 (x * 256).
Proof. unfold i64. Z.div_mod_to_equations. lia. Qed.

Lemma wbyte n s : is64 n -> In s [0;8;16;24;32;40;48;56] ->
  (i64 (n * 2 ^ s) / 2 ^ 56) mod 256 = ((n mod 2 ^ 64) / 2 ^ (56 - s)) mod 256.
Proof.
  unfold is64, i64. intros Hn Hs. simpl in Hs.
  repeat destruct Hs as [<-|Hs]; try contradiction; simpl Z.pow; simpl Z.sub; Z.div_mod_to_equations; lia.
Qed.

Lemma top_step u s : 0 <= u -> 8 <= s ->
  u / 2 ^ (s - 8) = (u / 2 ^ s) * 256 + (u / 2 ^ (s - 8)) mod 256.
Proof.
  intros. replace (2 ^ s) with (2 ^ (s - 8) * 256).
  2:{ change 256 with (2 ^ 8). rewrite <- Z.pow_add_r by lia. f_equal. lia. }
  rewrite <- Z.div_div by lia.
  pose proof (Z.div_mod (u / 2 ^ (s - 8)) 256). lia.
Qed.

Lemma write_bytes_8 n : is64 n ->
  map Z_of_byte (write_bytes 8 n)
  = map (fun s => ((n mod 2 ^ 64) / 2 ^ (56 - s)) mod 256) [0;8;16;24;32;40;48;56].
Proof.
  intros Hn. cbn [write_bytes map]. rewrite !byte_val, !shl8, !i64_mul256.
  rewrite <- !Z.mul_assoc. simpl Z.mul.
  rewrite <- (wbyte n 0), <- (wbyte n 8), <- (wbyte n 16), <- (wbyte n 24),
          <- (wbyte n 32), <- (wbyte n 40), <- (wbyte n 48), <- (wbyte n 56)
    by (try assumption; simpl; tauto).
  simpl Z.pow. rewrite Z.mul_1_r. rewrite (i64_id n Hn). reflexivity.
Qed.

Lemma fold_read_map (l : list byte) acc :
  fold_left (fun n v => Z.lor (shl n 8) (Z_of_byte v)) l acc
  = fold_left (fun n v => i64 (n * 256) + v) (map Z_of_byte l) acc.
Proof.
  revert acc. induction l as [|v l IH]; intros acc; simpl; [reflexivity|].
  rewrite IH. f_equal. apply step_eq, Z_of_byte_range.
Qed.

Lemma read_write_bytes n l : is64 n -> read (write_bytes 8 n ++ l) = n.
Proof.
  intros Hn. unfold read.
  assert (take 8 (write_bytes 8 n ++ l) = write_bytes 8 n) as -> by reflexivity.
  rewrite fold_read_map, write_bytes_8 by assumption.
  set (u := n mod 2 ^ 64).
  assert (0 <= u < 2 ^ 64) as Hu by (apply Z.mod_pos_bound; lia).
  cbn [map fold_left].
  assert (forall s, 0 <= s -> 0 <= u / 2 ^ s) as Hpos by (intros; apply Z.div_pos; lia).
  assert (u / 2 ^ 56 < 256) by (apply Z.div_lt_upper_bound; lia).
  change (56 - 0) with 56; change (56 - 8) with 48; change (56 - 16) with 40;
  change (56 - 24) with 32; change (56 - 32) with 24; change (56 - 40) with 16;
  change (56 - 48) with 8; change (56 - 56) with 0.
  assert (i64 (0 * 256) + (u / 2 ^ 56) mod 256 = u / 2 ^ 56) as ->.
  { rewrite Z.mod_small by (split; [apply Hpos|]; lia). reflexivity. }
  assert (forall s, 16 <= s <= 56 ->
            i64 (u / 2 ^ s * 256) + (u / 2 ^ (s - 8)) mod 256 = u / 2 ^ (s - 8)) as Hstep.
  { intros s Hs. rewrite i64_id.
    - symmetry. apply top_step; lia.
    - assert (u / 2 ^ s < 2 ^ 48); [|pose proof (Hpos s); unfold is64; lia].
      apply Z.div_lt_upper_bound; [lia|].
      assert (2 ^ 16 <= 2 ^ s) by (apply Z.pow_le_mono_r; lia). lia. }
  pose proof (Hstep 56) as H56; pose proof (Hstep 48) as H48;
  pose proof (Hstep 40) as H40; pose proof (Hstep 32) as H32;
  pose proof (Hstep 24) as H24; pose proof (Hstep 16) as H16.
  change (56 - 8) with 48 in H56; change (48 - 8) with 40 in H48;
  change (40 - 8) with 32 in H40; change (32 - 8) with 24 in H32;
  change (24 - 8) with 16 in H24; change (16 - 8) with 8 in H16.
  rewrite H56, H48, H40, H32, H24, H16 by lia.
  pose proof (top_step u 8 ltac:(lia) ltac:(lia)) as Ht.
  change (8 - 8) with 0 in Ht.
  change (2 ^ 0) with 1 in *. rewrite Z.div_1_r in *.
  pose proof (Z.mod_pos_bound u 256 ltac:(lia)).
  subst u. unfold is64, i64 in *. Z.div_mod_to_equations. lia.
Qed.

Lemma read_is64 b : is64 (read b).
Proof.
  unfold read. rewrite fold_read_map.
  assert (forall l acc, is64 acc ->
            is64 (fold_left (fun n v => i64 (n * 256) + v) (map Z_of_byte l) acc)) as H.
  { induction l as [|v l IH]; intros acc Ha; simpl; [assumption|].
    apply IH. pose proof (Z_of_byte_range v).
    unfold is64, i64 in *. Z.div_mod_to_equations. lia. }
  apply H. unfold is64. lia.
Qed.

Lemma write_bytes_i64 k n : write_bytes k (i64 n) = write_bytes k n.
Proof.
  revert n. induction k as [|k IH]; intros n; simpl; [reflexivity|].
  f_equal.
  - unfold byte_of. do 2 f_equal. f_equal.
    change 255 with (Z.ones 8). rewrite !Z.land_ones, !Z.shiftr_div_pow2 by lia.
    unfold i64. Z.div_mod_to_equations. lia.
  - rewrite !shl8, i64_mul256. reflexivity.
Qed.

Lemma read_write n l : read (write_bytes 8 n ++ l) = i64 n.
Proof.
  rewrite <- write_bytes_i64. apply read_write_bytes, i64_is64.
Qed.

Lemma length_write_bytes k n : length (write_bytes k n) = k.
Proof. revert n. induction k; intros; simpl; auto. Qed.

Local Open Scope nat_scope.

Lemma length_splice b o x : length (splice b o x) = Nat.max (length b) (o + length x).
Proof.
  unfold splice. rewrite !length_app, length_take, length_app, length_replicate, length_drop. lia.
Qed.

Lemma lookup_splice_in b o x i :
  o <= i < o + length x -> splice b o x !! i = x !! (i - o).
Proof.
  intros Hi. unfold splice.
  assert (length (take o (b ++ replicate (o - length b) Byte.x00)) = o) as Hl.
  { rewrite length_take, length_app, length_replicate. lia. }
  rewrite lookup_app_r by lia. rewrite Hl.
  rewrite lookup_app_l by lia. reflexivity.
Qed.

Lemma lookup_splice_out b o x i :
  i < length b -> i < o \/ o + length x <= i -> splice b o x !! i = b !! i.
Proof.
  intros Hb Hi. unfold splice.
  assert (length (take o (b ++ replicate (o - length b) Byte.x00)) = o) as Hl.
  { rewrite length_take, length_app, length_replicate. lia. }
  destruct Hi as [Hi|Hi].
  - rewrite lookup_app_l by lia. rewrite lookup_take_lt by lia.
    rewrite lookup_app_l by lia. reflexivity.
  - rewrite lookup_app_r by lia. rewrite Hl.
    rewrite lookup_app_r by lia. rewrite lookup_drop. f_equal. lia.
Qed.

Lemma length_region d off len : off + len <= length d -> length (region d off len) = len.
Proof. intros. unfold region. rewrite length_take, length_drop. lia. Qed.

Lemma region_splice_same d o x : region (splice d o x) o (length x) = x.
Proof.
  unfold region. apply list_eq. intros i.
  destruct (decide (i < length x)).
  - rewrite lookup_take_lt, lookup_drop by lia.
    rewrite lookup_splice_in by lia. f_equal. lia.
  - rewrite lookup_take_ge by lia. symmetry. apply lookup_ge_None. lia.
Qed.

Lemma region_splice_other d o x off len :
  off + len <= length d ->
  off + len <= o \/ o + length x <= off ->
  region (splice d o x) off len = region d off len.
Proof.
  intros Hd Hdis. unfold region. apply list_eq. intros i.
  destruct (decide (i < len)).
  - rewrite !lookup_take_lt, !lookup_drop by lia.
    apply lookup_splice_out; lia.
  - rewrite !lookup_take_ge by lia. reflexivity.
Qed.

Local Close Scope nat_scope.

(** ReadAt and WriteAt in terms of regions *)

Lemma ReadAt_full fl len off b e :
  ReadAt fl len off = (b, e) -> Z.of_nat (length b) = len -> 0 < len ->
  0 <= off /\ off + len <= Size fl /\ b = region (data fl) (Z.to_nat off) (Z.to_nat len).
Proof.
  unfold ReadAt, Size. intros H Hl Hp.
  destruct (off <? 0) eqn:Eo.
  - inversion H; subst. simpl in Hp. lia.
  - apply Z.ltb_ge in Eo. inversion H; subst b. clear H.
    rewrite length_take, length_drop in Hl. unfold region. repeat split; auto; lia.
Qed.

Lemma ReadAt_ok fl len off :
  0 <= off -> 0 <= len -> off + len <= Size fl ->
  ReadAt fl len off = (region (data fl) (Z.to_nat off) (Z.to_nat len), None).
Proof.
  unfold ReadAt, Size. intros Ho Hl Hs.
  destruct (off <? 0) eqn:Eo; [lia|].
  fold (region (data fl) (Z.to_nat off) (Z.to_nat len)).
  rewrite length_region by lia.
  rewrite Z2Nat.id, Z.ltb_irrefl by lia. reflexivity.
Qed.

Lemma WriteAt_ok fl x o fl' :
  WriteAt fl x o = (None, fl') ->
  0 <= o /\ data fl' = splice (data fl) (Z.to_nat o) x.
Proof.
  unfold WriteAt, next_fault. intros H.
  destruct (faults fl) as [|[|] fs]; simpl in H;
    destruct (o <? 0) eqn:Eo; inversion H; subst; simpl; split; auto; lia.
Qed.

Lemma ReadAt_short fl len off b :
  ReadAt fl len off = (b, None) -> 0 <= len -> Z.of_nat (length b) = len.
Proof.
  unfold ReadAt. destruct (off <? 0); [discriminate|].
  intros H Hl. inversion H as [[Hb He]]. clear H.
  destruct (Z.of_nat (length (take (Z.to_nat len) (drop (Z.to_nat off) (data fl)))) <? len) eqn:E;
    [discriminate|].
  apply Z.ltb_ge in E. rewrite length_take in *. lia.
Qed.

Lemma page_at_region fl off p :
  page_at fl off = Some p <->
  0 <= off /\ off + 48 <= Size fl /\ p = dec off (region (data fl) (Z.to_nat off) 48).
Proof.
  unfold page_at, openPage. cbn [f probe].
  destruct (ReadAt fl szPage off) as [b e] eqn:ER.
  destruct (negb (Z.of_nat (length b) =? szPage)) eqn:EL.
  - split.
    + destruct e; [discriminate|]. intros _.
      apply ReadAt_short in ER; [|unfold szPage; lia].
      apply negb_true_iff, Z.eqb_neq in EL. contradiction.
    + intros (Ho & Hs & _).
      rewrite (ReadAt_ok fl szPage off) in ER by (unfold szPage; lia).
      inversion ER; subst b. rewrite length_region in EL.
      * discriminate.
      * unfold Size, szPage in *. lia.
  - apply negb_false_iff, Z.eqb_eq in EL.
    apply ReadAt_full in ER; [|assumption|unfold szPage; lia].
    destruct ER as (Ho & Hs & ->). unfold szPage in *.
    split.
    + intros H. inversion H. auto.
    + intros (_ & _ & ->). reflexivity.
Qed.

Lemma openPage_ok off a p a' :
  openPage off a = (Return p None, a') <-> page_at (f a) off = Some p /\ a' = a.
Proof.
  unfold page_at, openPage. cbn [f probe].
  destruct (ReadAt (f a) szPage off) as [b e].
  destruct (negb (Z.of_nat (length b) =? szPage)).
  - split.
    + intros H. inversion H; subst. auto.
    + intros [H ->]. destruct e; [discriminate|]. inversion H. reflexivity.
  - split.
    + intros H. inversion H; subst. auto.
    + intros [H ->]. inversion H. reflexivity.
Qed.

Lemma openPage_state off a r a' : openPage off a = (r, a') -> a' = a.
Proof.
  unfold openPage. destruct (ReadAt (f a) szPage off) as [b e].
  destruct (negb (Z.of_nat (length b) =? szPage)); intros H; inversion H; reflexivity.
Qed.

Lemma openNode_ok off a n a' :
  openNode off a = (Return n None, a') <-> node_at (f a) off = Some n /\ a' = a.
Proof.
  unfold node_at, openNode. cbn [f probe].
  destruct (ReadAt (f a) szNode off) as [b e].
  destruct (negb (Z.of_nat (length b) =? szNode)).
  - split.
    + intros H. inversion H; subst. auto.
    + intros [H ->]. destruct e; [discriminate|]. inversion H. reflexivity.
  - split.
    + intros H. inversion H; subst. auto.
    + intros [H ->]. inversion H. reflexivity.
Qed.

Lemma page_bytes_eq m :
  page_bytes m = write_bytes 8 (p_brk m) ++ write_bytes 8 (p_prev m)
                 ++ write_bytes 8 (p_next m) ++ write_bytes 8 (p_rank m)
                 ++ write_bytes 8 (p_size m) ++ write_bytes 8 (p_used m).
Proof. reflexivity. Qed.

Lemma length_page_bytes m : length (page_bytes m) = 48%nat.
Proof. rewrite page_bytes_eq. rewrite !length_app, !length_write_bytes. reflexivity. Qed.

Lemma drop8_write n l : drop 8 (write_bytes 8 n ++ l) = l.
Proof. apply drop_app_length'. rewrite length_write_bytes. reflexivity. Qed.

Lemma dec_page_bytes off m :
  dec off (page_bytes m)
  = mkPage false off (i64 (p_brk m)) (i64 (p_prev m)) (i64 (p_next m))
           (i64 (p_rank m)) (i64 (p_size m)) (i64 (p_used m)).
Proof.
  rewrite page_bytes_eq. unfold dec.
  assert (forall (l : list byte) k, drop (8 + k) l = drop k (drop 8 l)) as Hd
    by (intros; rewrite drop_drop; reflexivity).
  change 40%nat with (8 + (8 + (8 + (8 + 8))))%nat.
  change 32%nat with (8 + (8 + (8 + 8)))%nat.
  change 24%nat with (8 + (8 + 8))%nat.
  change 16%nat with (8 + 8)%nat.
  rewrite !Hd, !drop8_write, drop_0.
  rewrite <- (app_nil_r (write_bytes 8 (p_used m))).
  rewrite !read_write. reflexivity.
Qed.

Lemma hdr_write_same fl fl' m :
  WriteAt fl (page_bytes m) (p_off m) = (None, fl') ->
  hdr fl' (p_off m) (i64 (p_rank m)) (i64 (p_size m)).
Proof.
  intros H. apply WriteAt_ok in H as [Ho Hd].
  exists (dec (p_off m) (page_bytes m)). split.
  - apply page_at_region. split; [assumption|]. split.
    + unfold Size. rewrite Hd, length_splice, length_page_bytes. lia.
    + rewrite Hd. f_equal.
      pose proof (region_splice_same (data fl) (Z.to_nat (p_off m)) (page_bytes m)) as Hr.
      rewrite length_page_bytes in Hr. symmetry. exact Hr.
  - rewrite dec_page_bytes. auto.
Qed.

Lemma page_at_write_other fl fl' x o off p :
  WriteAt fl x o = (None, fl') ->
  page_at fl off = Some p ->
  o + Z.of_nat (length x) <= off \/ off + 48 <= o ->
  page_at fl' off = Some p.
Proof.
  intros H Hp Hdis. apply WriteAt_ok in H as [Ho Hd].
  apply page_at_region in Hp as (Hoff & Hs & ->).
  apply page_at_region. split; [assumption|]. unfold Size in *. split.
  - rewrite Hd, length_splice. lia.
  - f_equal. rewrite Hd. symmetry. apply region_splice_other; lia.
Qed.

Lemma hdr_write_other fl fl' x o off r s :
  WriteAt fl x o = (None, fl') ->
  hdr fl off r s ->
  o + Z.of_nat (length x) <= off \/ off + 48 <= o ->
  hdr fl' off r s.
Proof.
  intros H (p & Hp & Hr & Hs) Hdis. exists p. split; [|auto].
  eapply page_at_write_other; eauto.
Qed.

Lemma page_at_is64 fl off p :
  page_at fl off = Some p -> is64 (p_rank p) /\ is64 (p_size p) /\ is64 (p_brk p)
                             /\ is64 (p_prev p) /\ is64 (p_next p) /\ is64 (p_used p) /\ p_off p = off.
Proof.
  intros H. apply page_at_region in H as (_ & _ & ->). unfold dec. simpl.
  repeat split; apply read_is64.
Qed.

Lemma length_put b o n :
  0 <= o -> (Z.to_nat o + 8 <= length b)%nat -> length (put b o n) = length b.
Proof.
  intros Ho Hl. unfold put, write.
  rewrite !length_app, length_take, length_write_bytes, !length_drop. lia.
Qed.

Lemma length_put_all vs : forall b base,
  0 <= base -> (Z.to_nat base + 8 * length vs <= length b)%nat ->
  length (put_all b base vs) = length b.
Proof.
  induction vs as [|v vs IH]; intros b base Hb Hl; simpl in *; [reflexivity|].
  rewrite IH; rewrite ?length_put; lia.
Qed.

(** Monad inversion *)

Lemma bind_ok {A B} (m : M A) (d : B) (k : A -> M B) a v a' :
  bind m d k a = (Return v None, a') ->
  exists x a1, m a = (Return x None, a1) /\ k x a1 = (Return v None, a').
Proof.
  unfold bind. destruct (m a) as [[x [e|]| |] a1]; intros H; try discriminate.
  eauto.
Qed.

Lemma returning_ok {A B} (v : B) (m : M A) a o a' :
  returning v m a = (Return o None, a') ->
  o = v /\ exists x, m a = (Return x None, a').
Proof.
  unfold returning. destruct (m a) as [[x e| |] a1]; intros H; inversion H; subst.
  eauto.
Qed.

Lemma ret_ok {A} (v : A) a o a' : ret v a = (Return o None, a') -> o = v /\ a' = a.
Proof. unfold ret. intros H; inversion H; auto. Qed.

Lemma at_index_ok sel i a v a' :
  at_index sel i a = (Return v None, a') -> index (sel a) i = Some v /\ a' = a.
Proof.
  unfold at_index. destruct (index (sel a) i); intros H; inversion H; auto.
Qed.

Lemma index_lookup l i v : index l i = Some v <-> 0 <= i /\ l !! Z.to_nat i = Some v.
Proof.
  unfold index. destruct (i <? 0) eqn:E.
  - apply Z.ltb_lt in E. split; [discriminate|lia].
  - apply Z.ltb_ge in E. tauto.
Qed.

(** Shape of the in-memory mirror *)

Lemma pres_ret {A} (v : A) : pres (ret v).
Proof. intros a r a' G H. inversion H; subst; auto. Qed.
Lemma pres_fail {A} (v : A) e : pres (fail v e).
Proof. intros a r a' G H. inversion H; subst; auto. Qed.
Lemma pres_panic {A} : pres (@panic A).
Proof. intros a r a' G H. inversion H; subst; auto. Qed.
Lemma pres_out_of_fuel {A} : pres (@out_of_fuel A).
Proof. intros a r a' G H. inversion H; subst; auto. Qed.
Lemma pres_gets {A} (g : Allocator -> A) : pres (gets g).
Proof. intros a r a' G H. inversion H; subst; auto. Qed.
Lemma pres_at_index sel i : pres (at_index sel i).
Proof.
  intros a r a' G H. unfold at_index in H.
  destruct (index (sel a) i); inversion H; subst; auto.
Qed.
Lemma pres_modify g : (forall a, good a -> good (g a)) -> pres (modify g).
Proof. intros Hg a r a' G H. inversion H; subst; auto. Qed.
Lemma pres_bind {A B} (m : M A) (d : B) k :
  pres m -> (forall x, pres (k x)) -> pres (bind m d k).
Proof.
  intros Hm Hk a r a' G H. unfold bind in H.
  destruct (m a) as [[x [e|]| |] a1] eqn:E.
  - inversion H; subst. eapply Hm; eauto.
  - eapply Hk; [|exact H]. eapply Hm; eauto.
  - inversion H; subst. eapply Hm; eauto.
  - inversion H; subst. eapply Hm; eauto.
Qed.
Lemma pres_returning {A B} (v : B) (m : M A) : pres m -> pres (returning v m).
Proof.
  intros Hm a r a' G H. unfold returning in H.
  destruct (m a) as [[x e| |] a1] eqn:E; inversion H; subst; eapply Hm; eauto.
Qed.
Lemma good_set_f a fl : good a -> good (set_f a fl).
Proof. auto. Qed.
Lemma pres_WriteAt b o : pres (f_WriteAt b o).
Proof.
  intros a r a' G H. unfold f_WriteAt in H.
  destruct (WriteAt (f a) b o); inversion H; subst. apply good_set_f, G.
Qed.
Lemma pres_Truncate n : pres (f_Truncate n).
Proof.
  intros a r a' G H. unfold f_Truncate in H.
  destruct (Truncate (f a) n); inversion H; subst. apply good_set_f, G.
Qed.
Lemma pres_setPage r n : pres (setPage r n).
Proof.
  intros a x a' G H. unfold setPage in H.
  destruct (index (pages a) r); inversion H; subst; auto.
  destruct G as (? & ? & ? & ?). unfold good; simpl. rewrite length_insert. auto.
Qed.
Lemma pres_setSlot r n : pres (setSlot r n).
Proof.
  intros a x a' G H. unfold setSlot in H.
  destruct (index (slots a) r); inversion H; subst; auto.
  destruct G as (? & ? & ? & ?). unfold good; simpl. rewrite length_insert. auto.
Qed.
Lemma pres_openPage off : pres (openPage off).
Proof. intros a r a' G H. apply openPage_state in H. subst. auto. Qed.
Lemma pres_openNode off : pres (openNode off).
Proof.
  intros a r a' G H. unfold openNode in H.
  destruct (ReadAt (f a) szNode off) as [b e].
  destruct (negb (Z.of_nat (length b) =? szNode)); inversion H; subst; auto.
Qed.
Lemma pres_memPage_flush m : pres (memPage_flush m).
Proof.
  intros a r a' G H. unfold memPage_flush in H.
  destruct (negb (p_dirty m)); [inversion H; subst; auto|].
  destruct (WriteAt (f a) (page_bytes m) (p_off m)); inversion H; subst.
  apply good_set_f, G.
Qed.
Lemma pres_memNode_flush m : pres (memNode_flush m).
Proof.
  intros a r a' G H. unfold memNode_flush in H.
  destruct (negb (n_dirty m)); [inversion H; subst; auto|].
  match type of H with (let (_, _) := ?w in _) = _ => destruct w end.
  inversion H; subst. apply good_set_f, G.
Qed.
Lemma pres_memPage_setTail m n : pres (memPage_setTail m n).
Proof. apply pres_WriteAt. Qed.

Lemma flush_buf_length a :
  good a ->
  length (put_all (put_all (buf a) (oFilePages - oFileSkip) (pages a))
                  (oFileSlots - oFileSkip) (slots a)) = 240%nat.
Proof.
  intros (Hb & Hp & Hs & _).
  assert (length (put_all (buf a) (oFilePages - oFileSkip) (pages a)) = 240%nat) as L1.
  { rewrite length_put_all; rewrite ?Hb, ?Hp; [reflexivity|vm_compute; congruence|].
    vm_compute. lia. }
  rewrite length_put_all; rewrite ?L1, ?Hs; [reflexivity|vm_compute; congruence|].
  vm_compute. lia.
Qed.

Lemma pres_flush : pres flush.
Proof.
  intros a r a' G H. unfold flush in H.
  destruct (negb (dirty a)); [inversion H; subst; auto|].
  match type of H with (let (_, _) := ?w in _) = _ => destruct w end.
  inversion H; subst. pose proof (flush_buf_length a G) as L.
  destruct G as (? & ? & ? & ?). unfold good.
  cbn [buf pages slots cap set_dirty set_f set_buf]. auto.
Qed.

Create HintDb pres.
#[export] Hint Resolve pres_ret pres_fail pres_panic pres_out_of_fuel pres_gets pres_at_index
  pres_WriteAt pres_Truncate pres_setPage pres_setSlot pres_openPage pres_openNode
  pres_memPage_flush pres_memNode_flush pres_memPage_setTail pres_flush
  pres_returning : pres.

Ltac pres_step :=
  match goal with
  | |- pres (bind _ _ _) => apply pres_bind; [|intros ?]
  | |- pres (returning _ _) => apply pres_returning
  | |- pres (if ?c then _ else _) => destruct c
  | |- pres (match ?x with _ => _ end) => destruct x
  | |- pres (modify _) => apply pres_modify; intros ? ?; assumption
  | |- pres _ => solve [auto with pres]
  end.
Ltac pres_tac := repeat pres_step.

Lemma pres_memNode_unlink m r : pres (memNode_unlink m r).
Proof. unfold memNode_unlink. pres_tac. Qed.
Lemma pres_memPage_unlink m : pres (memPage_unlink m).
Proof. unfold memPage_unlink. pres_tac. Qed.
Lemma pres_insertPage p : pres (insertPage p).
Proof. unfold insertPage. pres_tac. Qed.
#[export] Hint Resolve pres_memNode_unlink pres_memPage_unlink pres_insertPage : pres.
Lemma good_stats a b fs n : good a -> good (set_npages (set_fsize (set_bytes a b) fs) n).
Proof. intros G. exact G. Qed.

Lemma pres_newSharedPage r : pres (newSharedPage r).
Proof.
  intros a x a' G H. unfold newSharedPage in H.
  match type of H with returning ?p (memPage_setTail ?q 0) ?st = _ =>
    generalize dependent p; generalize dependent q;
    assert (good st) as G' by (apply good_stats, G); generalize dependent st end.
  intros st G' q p H.
  eapply pres_returning; [apply pres_memPage_setTail|exact G'|exact H].
Qed.
Lemma pres_newPage s : pres (newPage s).
Proof.
  intros a x a' G. unfold newPage.
  destruct (pageRank (roundup64 (i64 (i64 (szPage + s) + szTail)) pageSize)) as [r|].
  - intros H.
    refine (pres_returning _ _ (pres_memPage_setTail _ _) _ x a' _ H).
    apply good_stats, G.
  - intros H. inversion H; subst. exact G.
Qed.
#[export] Hint Resolve pres_newSharedPage pres_newPage : pres.

Lemma aligned_spec off :
  aligned off = true <-> 256 <= off /\ (off - 256) mod 4096 = 0.
Proof.
  unfold aligned. rewrite andb_true_iff, Z.leb_le, Z.eqb_eq. reflexivity.
Qed.

Lemma link_ok_spec off :
  link_ok off = true <-> off = 0 \/ (256 <= off /\ (off - 256) mod 4096 = 0).
Proof.
  unfold link_ok. rewrite orb_true_iff, Z.eqb_eq, aligned_spec. reflexivity.
Qed.

Lemma slot_pos_spec off :
  slot_pos off = true <->
  304 <= off /\ off mod 16 = 0 /\ 48 <= (off - 256) mod 4096 <= 4072.
Proof.
  unfold slot_pos. rewrite !andb_true_iff, !Z.leb_le, Z.eqb_eq.
  change (szFile + szPage) with 304. change (pageSize - szTail - szNode) with 4072.
  change szPage with 48. change szFile with 256. change pageSize with 4096.
  change allocAllign with 16. tauto.
Qed.

Lemma aligned_apart h off :
  aligned h = true -> aligned off = true ->
  h = off \/ h + 4096 <= off \/ off + 4096 <= h.
Proof.
  rewrite !aligned_spec. intros [? ?] [? ?]. Z.div_mod_to_equations. lia.
Qed.

Lemma slot_pos_apart x off :
  slot_pos x = true -> aligned off = true -> x + 16 <= off \/ off + 48 <= x.
Proof.
  rewrite slot_pos_spec, aligned_spec. intros (? & ? & ?) [? ?].
  Z.div_mod_to_equations. lia.
Qed.

Lemma ldiff_mask x : Z.ldiff x pageMask = 4096 * (x / 4096).
Proof.
  change pageMask with (Z.ones 12). rewrite Z.ldiff_ones_r by lia.
  rewrite Z.shiftl_mul_pow2, Z.shiftr_div_pow2 by lia. change (2 ^ 12) with 4096. lia.
Qed.

Lemma pageOf_in off d :
  aligned off = true -> off <= 2 ^ 62 + 4096 -> 0 <= d < 4096 -> pageOf (off + d) = off.
Proof.
  rewrite aligned_spec. intros [Ho Hm] Hb Hd. unfold pageOf.
  change szFile with 256.
  rewrite (i64_id (off + d - 256)) by (unfold is64; lia).
  rewrite ldiff_mask.
  assert ((off + d - 256) / 4096 = (off - 256) / 4096) as ->.
  { Z.div_mod_to_equations. lia. }
  rewrite i64_id; [Z.div_mod_to_equations; lia|].
  unfold is64. Z.div_mod_to_equations. lia.
Qed.

Lemma pageOf_value off :
  304 <= off -> is64 off -> pageOf off = 4096 * ((off - 256) / 4096) + 256.
Proof.
  intros Ho H64. unfold pageOf. change szFile with 256.
  rewrite (i64_id (off - 256)) by (unfold is64 in *; lia).
  rewrite ldiff_mask.
  rewrite i64_id by (unfold is64 in *; Z.div_mod_to_equations; lia).
  reflexivity.
Qed.

Lemma pageOf_aligned off :
  304 <= off -> is64 off -> aligned (pageOf off) = true /\ pageOf off <= off - 48 + 48.
Proof.
  intros Ho H64. unfold pageOf. change szFile with 256.
  rewrite (i64_id (off - 256)) by (unfold is64 in *; lia).
  rewrite ldiff_mask.
  rewrite i64_id by (unfold is64 in *; Z.div_mod_to_equations; lia).
  rewrite aligned_spec. Z.div_mod_to_equations. lia.
Qed.

(** Success of the primitives *)

Lemma f_WriteAt_ok x o a a' :
  f_WriteAt x o a = (Return tt None, a') ->
  exists fl', WriteAt (f a) x o = (None, fl') /\ a' = set_f a fl'.
Proof.
  unfold f_WriteAt. destruct (WriteAt (f a) x o) as [[e|] fl'] eqn:E; intros H; inversion H.
  eauto.
Qed.

Lemma memPage_flush_ok m a m' a' :
  memPage_flush m a = (Return m' None, a') ->
  (p_dirty m = false /\ m' = m /\ a' = a)
  \/ (p_dirty m = true /\ m' = with_dirty m true
      /\ exists fl', WriteAt (f a) (page_bytes m) (p_off m) = (None, fl') /\ a' = set_f a fl').
Proof.
  unfold memPage_flush. destruct (p_dirty m); simpl.
  - destruct (WriteAt (f a) (page_bytes m) (p_off m)) as [[e|] fl'] eqn:E; intros H; inversion H.
    right. eauto.
  - intros H; inversion H. auto.
Qed.

Lemma memNode_flush_ok m a m' a' :
  memNode_flush m a = (Return m' None, a') ->
  a' = a \/ exists x fl', length x = 16%nat /\ WriteAt (f a) x (n_off m) = (None, fl') /\ a' = set_f a fl'.
Proof.
  unfold memNode_flush. destruct (n_dirty m); cbn [negb].
  - match goal with |- context [WriteAt (f a) ?x (n_off m)] =>
      set (b := x); assert (length b = 16%nat) as Hb by reflexivity end.
    destruct (WriteAt (f a) b (n_off m)) as [[e|] fl'] eqn:E; intros H; inversion H.
    right. exists b, fl'. auto.
  - intros H; inversion H. auto.
Qed.

Lemma flush_ok a x a' :
  good a -> flush a = (Return x None, a') ->
  a' = a \/ exists b fl', length b = 240%nat /\ WriteAt (f a) b 16 = (None, fl')
                          /\ f a' = fl'.
Proof.
  intros G. unfold flush. destruct (negb (dirty a)).
  - intros H; inversion H. auto.
  - pose proof (flush_buf_length a G) as L.
    match goal with |- context [WriteAt (f a) ?x oFileSkip] => set (b := x) in * end.
    change oFileSkip with 16.
    destruct (WriteAt (f a) b 16) as [[e|] fl'] eqn:E; intros H; inversion H.
    right. exists b, fl'. auto.
Qed.

(** Preservation of a page header *)

Lemma G_WriteAt off r s x o a a' :
  f_WriteAt x o a = (Return tt None, a') -> G off r s a ->
  o + Z.of_nat (length x) <= off \/ off + 48 <= o ->
  G off r s a'.
Proof.
  intros H [Hg Hh] Hd. split; [eapply pres_WriteAt; eauto|].
  apply f_WriteAt_ok in H as (fl' & Hw & ->). simpl.
  eapply hdr_write_other; eauto.
Qed.

Lemma length_write8 n : length (write (zeros 8) n) = 8%nat.
Proof. reflexivity. Qed.

Lemma G_setTail off r s q n a a' :
  memPage_setTail q n a = (Return tt None, a') -> G off r s a ->
  i64 (i64 (p_off q + p_size q) - szTail) + 8 <= off
  \/ off + 48 <= i64 (i64 (p_off q + p_size q) - szTail) ->
  G off r s a'.
Proof.
  intros H HG Hd. eapply G_WriteAt; [exact H|exact HG|]. rewrite length_write8. lia.
Qed.

Lemma G_flush off r s a x a' :
  flush a = (Return x None, a') -> G off r s a -> 256 <= off -> G off r s a'.
Proof.
  intros H [Hg Hh] Ho. split; [eapply pres_flush; eauto|].
  apply flush_ok in H as [->|(b & fl' & Hb & Hw & Hf)]; auto.
  rewrite Hf. eapply hdr_write_other; [exact Hw|exact Hh|]. rewrite Hb. lia.
Qed.

Lemma G_pflush_other off r s q a q' a' :
  memPage_flush q a = (Return q' None, a') -> G off r s a ->
  p_off q + 48 <= off \/ off + 48 <= p_off q ->
  G off r s a'.
Proof.
  intros H [Hg Hh] Hd. split; [eapply pres_memPage_flush; eauto|].
  apply memPage_flush_ok in H as [(_ & _ & ->)|(_ & _ & fl' & Hw & ->)]; auto.
  simpl. eapply hdr_write_other; [exact Hw|exact Hh|]. rewrite length_page_bytes. lia.
Qed.

Lemma G_pflush_same off r s q a q' a' :
  memPage_flush q a = (Return q' None, a') -> G off r s a ->
  p_off q = off -> i64 (p_rank q) = r -> i64 (p_size q) = s ->
  G off r s a'.
Proof.
  intros H [Hg Hh] Ho Hr Hs. split; [eapply pres_memPage_flush; eauto|].
  apply memPage_flush_ok in H as [(_ & _ & ->)|(_ & _ & fl' & Hw & ->)]; auto.
  simpl. subst. eapply hdr_write_same; eauto.
Qed.

Lemma est_pflush q a q' a' :
  memPage_flush q a = (Return q' None, a') -> good a -> p_dirty q = true ->
  G (p_off q) (i64 (p_rank q)) (i64 (p_size q)) a' /\ q' = with_dirty q true.
Proof.
  intros H Hg Hd. split; [split; [eapply pres_memPage_flush; eauto|]|].
  - apply memPage_flush_ok in H as [(Hc & _)|(_ & _ & fl' & Hw & ->)]; [congruence|].
    simpl. eapply hdr_write_same; eauto.
  - apply memPage_flush_ok in H as [(Hc & _)|(_ & -> & _)]; [congruence|]. reflexivity.
Qed.

Lemma G_nflush off r s m a m' a' :
  memNode_flush m a = (Return m' None, a') -> G off r s a ->
  n_off m + 16 <= off \/ off + 48 <= n_off m ->
  G off r s a'.
Proof.
  intros H [Hg Hh] Hd. split; [eapply pres_memNode_flush; eauto|].
  apply memNode_flush_ok in H as [->|(x & fl' & Hx & Hw & ->)]; auto.
  simpl. eapply hdr_write_other; [exact Hw|exact Hh|]. rewrite Hx. lia.
Qed.

Lemma G_setPage off r s k n a a' :
  setPage k n a = (Return tt None, a') -> G off r s a -> G off r s a'.
Proof.
  intros H [Hg Hh]. split; [eapply pres_setPage; eauto|].
  unfold setPage in H. destruct (index (pages a) k); inversion H; subst. exact Hh.
Qed.

Lemma G_setSlot off r s k n a a' :
  setSlot k n a = (Return tt None, a') -> G off r s a -> G off r s a'.
Proof.
  intros H [Hg Hh]. split; [eapply pres_setSlot; eauto|].
  unfold setSlot in H. destruct (index (slots a) k); inversion H; subst. exact Hh.
Qed.

Lemma hdr_is64 fl off r s : hdr fl off r s -> is64 r /\ is64 s /\ 0 <= off.
Proof.
  intros (p & Hp & <- & <-). pose proof (page_at_is64 _ _ _ Hp) as (? & ? & _).
  apply page_at_region in Hp as (? & _). auto.
Qed.

(** Re-writing a neighbour: the opened page is rewritten with a new link. *)
Lemma G_relink off r s h (upd : memPage -> memPage) a a' :
  (forall p, p_off (upd p) = p_off p /\ p_rank (upd p) = p_rank p /\ p_size (upd p) = p_size p) ->
  (try next <- openPage h else tt;
   try _ <- memPage_flush (upd next) else tt;
   ret tt) a = (Return tt None, a') ->
  G off r s a -> aligned off = true -> aligned h = true ->
  G off r s a'.
Proof.
  intros Hupd H HG Hao Hah.
  apply bind_ok in H as (next & a1 & Ho & H).
  apply bind_ok in H as (n' & a2 & Hf & H).
  apply ret_ok in H as [_ ->].
  apply openPage_ok in Ho as [Hp ->].
  destruct (Hupd next) as (Uo & Ur & Us).
  pose proof (page_at_is64 _ _ _ Hp) as (Ir & Is & _ & _ & _ & _ & Hoff).
  destruct (aligned_apart h off Hah Hao) as [->|Hd].
  - eapply G_pflush_same; eauto; try congruence.
    + destruct HG as [_ (p & Hp' & Hr & Hs)].
      assert (p = next) by congruence. subst p. rewrite Ur, i64_id; auto.
    + destruct HG as [_ (p & Hp' & Hr & Hs)].
      assert (p = next) by congruence. subst p. rewrite Us, i64_id; auto.
  - eapply G_pflush_other; eauto. rewrite Uo, Hoff. lia.
Qed.

Lemma insertPage_ok q a q' a' :
  insertPage q a = (Return q' None, a') ->
  exists h, index (pages a) (p_rank q) = Some h
            /\ q' = memPage_setNext q h.
Proof.
  unfold insertPage. destruct (negb (p_prev q =? 0) || negb (p_next q =? 0)); [discriminate|].
  intros H. apply bind_ok in H as (h & a1 & Hi & H).
  apply at_index_ok in Hi as [Hi ->].
  apply bind_ok in H as (u1 & a2 & _ & H).
  apply bind_ok in H as (u2 & a3 & _ & H).
  apply ret_ok in H as [-> _]. eauto.
Qed.

Lemma G_insertPage off r s q a q' a' :
  insertPage q a = (Return q' None, a') -> G off r s a -> aligned off = true ->
  (forall h, index (pages a) (p_rank q) = Some h -> link_ok h = true) ->
  G off r s a'.
Proof.
  unfold insertPage. destruct (negb (p_prev q =? 0) || negb (p_next q =? 0)); [discriminate|].
  intros H HG Hao Hl. apply bind_ok in H as (h & a1 & Hi & H).
  apply at_index_ok in Hi as [Hi ->].
  specialize (Hl h Hi).
  apply bind_ok in H as ([] & a2 & Hn & H).
  apply bind_ok in H as ([] & a3 & Hs & H).
  apply ret_ok in H as [_ ->].
  assert (G off r s a2) as HG2.
  { cbn [p_next memPage_setNext] in Hn.
    destruct (negb (h =? 0)) eqn:E.
    - apply negb_true_iff, Z.eqb_neq in E.
      eapply (G_relink off r s h (fun p => memPage_setPrev p (p_off q))); eauto.
      unfold link_ok in Hl. apply orb_true_iff in Hl as [Hl|Hl]; auto.
      apply Z.eqb_eq in Hl. contradiction.
    - apply ret_ok in Hn as [_ ->]. exact HG. }
  eapply G_setPage; eauto.
Qed.

(** Reading the invariant *)

Lemma eqb_list_eq l : forall k, eqb_list l k = true -> l = k.
Proof.
  induction l as [|x l IH]; intros [|y k] H; simpl in H; try discriminate; auto.
  apply andb_true_iff in H as [H1 H2]. apply Z.eqb_eq in H1. f_equal; auto.
Qed.

Lemma heads_ok_lookup fl c hs : forall r0 i h,
  heads_ok fl c r0 hs = true -> hs !! i = Some h ->
  head_ok fl c (r0 + Z.of_nat i) h = true.
Proof.
  induction hs as [|x hs IH]; intros r0 i h H Hl; [discriminate|].
  simpl in H. apply andb_true_iff in H as [H1 H2].
  destruct i as [|i]; simpl in Hl.
  - inversion Hl; subst. rewrite Z.add_0_r. exact H1.
  - replace (r0 + Z.of_nat (S i)) with (r0 + 1 + Z.of_nat i) by lia. eauto.
Qed.

Lemma slot_heads_ok_lookup fl hs : forall r0 i h,
  slot_heads_ok fl r0 hs = true -> hs !! i = Some h ->
  slot_head_ok fl (r0 + Z.of_nat i) h = true.
Proof.
  induction hs as [|x hs IH]; intros r0 i h H Hl; [discriminate|].
  simpl in H. apply andb_true_iff in H as [H1 H2].
  destruct i as [|i]; simpl in Hl.
  - inversion Hl; subst. rewrite Z.add_0_r. exact H1.
  - replace (r0 + Z.of_nat (S i)) with (r0 + 1 + Z.of_nat i) by lia. eauto.
Qed.

Lemma inv_Inv a : inv a = true -> Inv a.
Proof.
  unfold inv. rewrite !andb_true_iff, !Nat.eqb_eq, !Z.leb_le.
  intros ((((((((Hc & Hb) & Hp) & Hs) & Hf1) & Hf2) & Hsz) & Hh) & Hsl).
  apply eqb_list_eq in Hc.
  constructor; auto.
  - unfold good. auto.
  - intros r h Hi. apply index_lookup in Hi as [Hr Hi].
    rewrite Hc in Hh.
    pose proof (heads_ok_lookup _ _ _ 0 _ _ Hh Hi) as H.
    rewrite Z.add_0_l, Z2Nat.id in H by lia. exact H.
  - intros r h Hi. apply index_lookup in Hi as [Hr Hi].
    pose proof (slot_heads_ok_lookup _ _ 0 _ _ Hsl Hi) as H.
    rewrite Z.add_0_l, Z2Nat.id in H by lia. exact H.
Qed.

(** What [head_ok] says about a non-empty list *)

Lemma head_ok_page fl r h :
  head_ok fl caps r h = true -> h <> 0 ->
  aligned h = true /\ exists p, page_at fl h = Some p /\ p_rank p = r
    /\ links_ok p = true /\ shape_ok p = true
    /\ (r <= 6 -> 0 <= p_brk p /\ exists k, index caps r = Some k /\ p_brk p < k)
    /\ (r = 22 -> p_next p <> 0 ->
        exists q, page_at fl (p_next p) = Some q /\ links_ok q = true).
Proof.
  unfold head_ok. intros H Hh.
  apply orb_true_iff in H as [H|H]; [apply Z.eqb_eq in H; contradiction|].
  apply andb_true_iff in H as [Ha H]. split; [exact Ha|].
  destruct (page_at fl h) as [p|]; [|discriminate].
  exists p. rewrite !andb_true_iff in H.
  destruct H as ((((Hr & Hl) & Hs) & Hb) & H2).
  apply Z.eqb_eq in Hr. repeat split; auto.
  - change maxSharedRank with 6 in Hb. destruct (r <=? 6) eqn:E; [|apply Z.leb_gt in E; lia].
    apply andb_true_iff in Hb as [Hb _]. apply Z.leb_le in Hb. exact Hb.
  - change maxSharedRank with 6 in Hb. destruct (r <=? 6) eqn:E; [|apply Z.leb_gt in E; lia].
    apply andb_true_iff in Hb as [_ Hb].
    destruct (index caps r) as [k|]; [|discriminate].
    exists k. split; auto. apply Z.ltb_lt in Hb. exact Hb.
  - intros -> Hn. change (22 =? ranks - 1) with true in H2. cbv iota in H2.
    apply orb_true_iff in H2 as [H2|H2]; [apply Z.eqb_eq in H2; contradiction|].
    destruct (page_at fl (p_next p)) as [q|]; [|discriminate]. eauto.
Qed.

Lemma links_ok_spec p : links_ok p = true -> link_ok (p_prev p) = true /\ link_ok (p_next p) = true.
Proof. unfold links_ok. apply andb_true_iff. Qed.

(** Rank arithmetic *)

Lemma i64_i64_add x y : i64 (i64 x + y) = i64 (x + y).
Proof. unfold i64. Z.div_mod_to_equations. lia. Qed.

Lemma roundup64_spec n :
  n + 4095 < 2 ^ 63 -> - 2 ^ 63 <= n + 4095 ->
  roundup64 n pageSize = 4096 * ((n + 4095) / 4096).
Proof.
  intros Hn Hb. unfold roundup64. change pageSize with 4096.
  change (i64 (4096 - 1)) with pageMask.
  replace (i64 (n + 4096) - 1) with (i64 (n + 4096) + (-1)) by lia.
  rewrite i64_i64_add, i64_id by (unfold is64; lia).
  rewrite ldiff_mask. f_equal. f_equal. lia.
Qed.

Lemma roundup64_neg n :
  is64 n -> 2 ^ 63 <= n + 4095 -> roundup64 n pageSize < 0.
Proof.
  intros Hn Hb. unfold roundup64. change pageSize with 4096.
  change (i64 (4096 - 1)) with pageMask.
  replace (i64 (n + 4096) - 1) with (i64 (n + 4096) + (-1)) by lia.
  rewrite i64_i64_add. rewrite ldiff_mask.
  unfold is64, i64 in *. Z.div_mod_to_equations. lia.
Qed.

(** The size and rank of the page that [allocBig] asks for. *)
Lemma need_facts size rk :
  1024 < size -> size < 2 ^ 63 ->
  pageRank (roundup64 (i64 (i64 (szPage + size) + szTail)) pageSize) = Some rk ->
  let need := roundup64 (i64 (i64 (szPage + size) + szTail)) pageSize in
  size + 56 <= need /\ need mod 4096 = 0 /\ need <= 2 ^ 63 - 4096
  /\ 7 <= rk <= 22 /\ (rk < 22 -> need = (rk - 6) * 4096)
  /\ (rk = 22 -> 16 * 4096 <= need).
Proof.
  intros Hs Hb. cbv zeta. change szPage with 48. change szTail with 8.
  rewrite i64_i64_add. replace (48 + size + 8) with (size + 56) by lia.
  set (n := i64 (size + 56)).
  assert (is64 n) as Hn by apply i64_is64.
  unfold pageRank. change maxSlot with 1024.
  destruct (roundup64 n pageSize <=? 1024) eqn:E; [discriminate|].
  apply Z.leb_gt in E. intros Hr. apply (inj Some) in Hr.
  assert (n = size + 56) as Hn'.
  { destruct (Z.lt_ge_cases (size + 56) (2 ^ 63)).
    - apply i64_id. unfold is64. lia.
    - exfalso. assert (n < 0) by (unfold n, i64; Z.div_mod_to_equations; lia).
      clearbody n.
      destruct (Z.lt_ge_cases (n + 4095) (2 ^ 63)).
      + rewrite roundup64_spec in E by (unfold is64 in Hn; lia).
        Z.div_mod_to_equations. lia.
      + lia. }
  assert (n < 0 -> n + 2 ^ 64 = size + 56) as Hneg.
  { unfold n, i64. Z.div_mod_to_equations. lia. }
  clearbody n.
  assert (n + 4095 < 2 ^ 63) as Hlt.
  { destruct (Z.lt_ge_cases (n + 4095) (2 ^ 63)); auto.
    pose proof (roundup64_neg n Hn ltac:(lia)). lia. }
  rewrite (roundup64_spec n) in E, Hr |- * by lia.
  set (k := (n + 4095) / 4096) in *.
  assert (n <= k * 4096 /\ k * 4096 <= n + 4095) by (unfold k; Z.div_mod_to_equations; lia).
  assert (1 <= k) by lia. clearbody k.
  assert (k * 4096 < 2 ^ 63) by lia.
  assert (k < 2 ^ 51) by lia.
  rewrite roundup64_spec in Hr by lia.
  replace ((4096 * k + 4095) / 4096) with k in Hr by (Z.div_mod_to_equations; lia).
  change pageLog with 12 in Hr. rewrite Z.shiftr_div_pow2 in Hr by lia.
  change (2 ^ 12) with 4096 in Hr.
  rewrite (Z.mul_comm 4096), Z.div_mul in Hr by lia.
  rewrite i64_id in Hr by (unfold is64; lia). change ranks with 23 in Hr.
  rewrite (Z.mul_comm 4096), Z.mod_mul by lia.
  destruct (k + 6 >=? 23) eqn:Ek.
  - apply Z.geb_le in Ek. lia.
  - rewrite Z.geb_leb in Ek. apply Z.leb_gt in Ek. lia.
Qed.

Lemma panic_no {A} a (v : A) a' : panic a = (Return v None, a') -> False.
Proof. discriminate. Qed.

Lemma fail_no {A} (d : A) e a (v : A) a' : fail d e a = (Return v None, a') -> False.
Proof. discriminate. Qed.

(** Slot ranks, by enumeration of the 1024 sizes *)

Lemma slotRank_checked : forallb slotRank_check (map Z.of_nat (seq 1 1024)) = true.
Proof. vm_compute. reflexivity. Qed.

Lemma slotRank_spec n r :
  slotRank n = Some r -> 1 <= n <= 1024 /\ 0 <= r <= 6 /\ n <= 2 ^ (r + 4).
Proof.
  intros H.
  assert (1 <= n <= 1024) as Hn.
  { unfold slotRank in H. destruct ((n <? 1) || (n >? 1024)) eqn:E; [discriminate|].
    apply orb_false_iff in E as [E1 E2]. apply Z.ltb_ge in E1.
    rewrite Z.gtb_ltb in E2. apply Z.ltb_ge in E2. lia. }
  split; [exact Hn|].
  pose proof slotRank_checked as Hc. rewrite forallb_forall in Hc.
  specialize (Hc n). unfold slotRank_check in Hc. rewrite H in Hc.
  assert (In n (map Z.of_nat (seq 1 1024))) as Hin.
  { apply in_map_iff. exists (Z.to_nat n). split; [lia|]. apply in_seq. lia. }
  specialize (Hc Hin). rewrite !andb_true_iff, !Z.leb_le in Hc. lia.
Qed.

Lemma shared_usable r : 0 <= r <= 6 -> shl 1 (i64 (r + 4)) = 2 ^ (r + 4).
Proof.
  intros Hr. assert (r = 0 \/ r = 1 \/ r = 2 \/ r = 3 \/ r = 4 \/ r = 5 \/ r = 6) as H by lia.
  destruct H as [->|[->|[->|[->|[->|[->| ->]]]]]]; reflexivity.
Qed.

(** What [UsableSize] reports from a header *)

Lemma usableSize_hdr a o p :
  304 <= o -> page_at (f a) (pageOf o) = Some p -> 0 <= p_rank p <= 22 ->
  usableSize o a
  = (Return (if p_rank p <=? 6 then shl 1 (i64 (p_rank p + 4))
             else i64 (i64 (p_size p - szPage) - szTail), p) None, a).
Proof.
  intros Ho Hp Hr. unfold usableSize. change (szFile + szPage) with 304.
  destruct (o <? 304) eqn:E; [apply Z.ltb_lt in E; lia|].
  unfold bind. fold (pageOf o).
  assert (openPage (pageOf o) a = (Return p None, a)) as -> by (apply openPage_ok; auto).
  change ranks with 23. change maxSharedRank with 6.
  destruct (p_rank p <? 0) eqn:E1; [apply Z.ltb_lt in E1; lia|].
  destruct (p_rank p >=? 23) eqn:E2; [apply Z.geb_le in E2; lia|].
  cbn [orb]. destruct (p_rank p <=? 6); reflexivity.
Qed.

Lemma UsableSize_shared a o r s :
  G (pageOf o) r s a -> 304 <= o -> 0 <= r <= 6 ->
  UsableSize o a = (Return (2 ^ (r + 4)) None, a).
Proof.
  intros [_ (p & Hp & Hr & Hs)] Ho Hrr. unfold UsableSize.
  rewrite (usableSize_hdr a o p) by (auto; lia).
  rewrite Hr. destruct (r <=? 6) eqn:E; [|apply Z.leb_gt in E; lia].
  rewrite shared_usable by lia. reflexivity.
Qed.

Lemma UsableSize_excl a o r s :
  G (pageOf o) r s a -> 304 <= o -> 7 <= r <= 22 -> 56 <= s ->
  UsableSize o a = (Return (s - 56) None, a).
Proof.
  intros [_ (p & Hp & Hr & Hs)] Ho Hrr Hss. unfold UsableSize.
  rewrite (usableSize_hdr a o p) by (auto; lia).
  rewrite Hr. destruct (r <=? 6) eqn:E; [apply Z.leb_le in E; lia|].
  pose proof (page_at_is64 _ _ _ Hp) as (_ & Is & _).
  rewrite Hs in *. change szPage with 48. change szTail with 8.
  unfold is64 in Is.
  rewrite (i64_id (s - 48)), i64_id by (unfold is64; lia).
  replace (s - 48 - 8) with (s - 56) by lia. reflexivity.
Qed.

(** Where the tail word of a page goes *)

Lemma tail_apart o s off :
  0 <= o < 2 ^ 63 -> is64 s -> 56 <= s -> off <= o -> off <= 2 ^ 62 + 4096 ->
  0 <= i64 (i64 (o + s) - szTail) ->
  off + 48 <= i64 (i64 (o + s) - szTail).
Proof.
  intros Ho Hs Hm Hoff Hsm. change szTail with 8.
  unfold is64, i64 in *. Z.div_mod_to_equations. lia.
Qed.

Lemma setTail_pos q n a a' :
  memPage_setTail q n a = (Return tt None, a') ->
  0 <= i64 (i64 (p_off q + p_size q) - szTail).
Proof.
  intros H. apply f_WriteAt_ok in H as (fl' & Hw & _).
  apply WriteAt_ok in Hw as [Hw _]. exact Hw.
Qed.

(** Unlinking a page *)

Lemma relink_pages h (upd : memPage -> memPage) a a' :
  (try next <- openPage h else tt;
   try _ <- memPage_flush (upd next) else tt;
   ret tt) a = (Return tt None, a') ->
  pages a' = pages a /\ fsize a' = fsize a.
Proof.
  intros H.
  apply bind_ok in H as (next & a1 & Ho & H).
  apply bind_ok in H as (n' & a2 & Hf & H).
  apply ret_ok in H as [_ ->].
  apply openPage_ok in Ho as [_ ->].
  apply memPage_flush_ok in Hf as [(_ & _ & ->)|(_ & _ & fl' & _ & ->)]; auto.
Qed.

Lemma memPage_unlink_ok m a m' a' :
  memPage_unlink m a = (Return m' None, a') ->
  m' = memPage_setNext (memPage_setPrev m 0) 0
  /\ (forall r h, index (pages a') r = Some h ->
                  index (pages a) r = Some h \/ h = p_next m).
Proof.
  unfold memPage_unlink. intros H.
  apply bind_ok in H as ([] & a1 & H1 & H).
  apply bind_ok in H as ([] & a2 & H2 & H).
  apply bind_ok in H as (h & a3 & H3 & H).
  apply bind_ok in H as ([] & a4 & H4 & H).
  apply ret_ok in H as [-> ->]. split; [reflexivity|].
  assert (pages a1 = pages a) as P1.
  { destruct (negb (p_prev m =? 0)).
    - apply relink_pages in H1. tauto.
    - apply ret_ok in H1 as [_ ->]. reflexivity. }
  assert (pages a2 = pages a1) as P2.
  { destruct (negb (p_next m =? 0)).
    - apply relink_pages in H2. tauto.
    - apply ret_ok in H2 as [_ ->]. reflexivity. }
  apply at_index_ok in H3 as [_ ->].
  intros r x Hx.
  destruct (h =? p_off m).
  - unfold setPage in H4. destruct (index (pages a2) (p_rank m)); [|discriminate].
    inversion H4; subst a4. clear H4. cbn [pages set_dirty set_pages] in Hx.
    apply index_lookup in Hx as [Hr Hx].
    apply list_lookup_insert_Some in Hx as [(_ & <- & _)|(_ & Hx)]; [right; reflexivity|].
    left. apply index_lookup. split; [exact Hr|]. congruence.
  - apply ret_ok in H4 as [_ ->]. left. congruence.
Qed.

Lemma memPage_unlink_fsize m a m' a' :
  memPage_unlink m a = (Return m' None, a') -> fsize a' = fsize a.
Proof.
  unfold memPage_unlink. intros H.
  apply bind_ok in H as ([] & a1 & H1 & H).
  apply bind_ok in H as ([] & a2 & H2 & H).
  apply bind_ok in H as (h & a3 & H3 & H).
  apply bind_ok in H as ([] & a4 & H4 & H).
  apply ret_ok in H as [_ ->].
  assert (fsize a1 = fsize a) as P1.
  { destruct (negb (p_prev m =? 0)).
    - apply relink_pages in H1. tauto.
    - apply ret_ok in H1 as [_ ->]. reflexivity. }
  assert (fsize a2 = fsize a1) as P2.
  { destruct (negb (p_next m =? 0)).
    - apply relink_pages in H2. tauto.
    - apply ret_ok in H2 as [_ ->]. reflexivity. }
  apply at_index_ok in H3 as [_ ->].
  destruct (h =? p_off m).
  - unfold setPage in H4. destruct (index (pages a2) (p_rank m)); [|discriminate].
    inversion H4; subst a4. cbn [fsize set_dirty set_pages]. congruence.
  - apply ret_ok in H4 as [_ ->]. congruence.
Qed.

Strategy 1000 [i64 roundup64 roundup pageRank slotRank shl Z.pow Z.modulo Z.ldiff].

Lemma page_at_small a h p : Inv a -> page_at (f a) h = Some p -> 0 <= h <= 2 ^ 62.
Proof.
  intros I Hp. apply page_at_region in Hp as (? & ? & _).
  pose proof (inv_size a I). lia.
Qed.

Lemma aligned_mod16 h : aligned h = true -> h mod 16 = 0 /\ 256 <= h.
Proof. rewrite aligned_spec. intros [? ?]. Z.div_mod_to_equations. lia. Qed.

Lemma shl_small x n : 0 <= n < 64 -> shl x n = i64 (x * 2 ^ n).
Proof.
  intros Hn. unfold shl.
  destruct (0 <=? n) eqn:E1; [|apply Z.leb_gt in E1; lia].
  destruct (n <? 64) eqn:E2; [|apply Z.ltb_ge in E2; lia].
  cbn [andb]. rewrite Z.shiftl_mul_pow2 by lia. reflexivity.
Qed.

Lemma slot_value h rk k brk :
  aligned h = true -> h <= 2 ^ 62 + 4096 -> 0 <= rk <= 6 ->
  index caps rk = Some k -> 0 <= brk < k ->
  let o := i64 (i64 (h + szPage) + shl brk (i64 (rk + 4))) in
  okoff o /\ pageOf o = h.
Proof.
  intros Ha Hh Hr Hk Hb. cbv zeta.
  pose proof (aligned_mod16 h Ha) as [Hm Hl].
  assert (exists d, shl brk (i64 (rk + 4)) = d /\ 0 <= d /\ d mod 16 = 0 /\ 48 + d < 4096)
    as (d & -> & Hd0 & Hd16 & Hd).
  { assert (rk = 0 \/ rk = 1 \/ rk = 2 \/ rk = 3 \/ rk = 4 \/ rk = 5 \/ rk = 6) as Hc by lia.
    destruct Hc as [->|[->|[->|[->|[->|[->| ->]]]]]];
      apply (inj Some) in Hk; subst k;
      match goal with |- context [shl brk (i64 ?e)] =>
        let v := eval vm_compute in (i64 e) in change (i64 e) with v end;
      rewrite shl_small by lia;
      match goal with |- context [2 ^ ?e] =>
        let v := eval vm_compute in (2 ^ e) in change (2 ^ e) with v end;
      (eexists; split; [apply i64_id; unfold is64; try lia|];
       try (Z.div_mod_to_equations; lia)). }
  change szPage with 48.
  rewrite (i64_id (h + 48)) by (unfold is64; lia).
  rewrite i64_id by (unfold is64; lia).
  assert (pageOf (h + 48 + d) = h) as E.
  { replace (h + 48 + d) with (h + (48 + d)) by lia. apply pageOf_in; auto; lia. }
  split; [|exact E]. unfold okoff. rewrite E.
  split; [lia|]. split; [|lia]. Z.div_mod_to_equations. lia.
Qed.

Lemma head_value h :
  aligned h = true -> h <= 2 ^ 62 + 4096 ->
  let o := i64 (h + szPage) in okoff o /\ pageOf o = h.
Proof.
  intros Ha Hh. cbv zeta. pose proof (aligned_mod16 h Ha) as [Hm Hl].
  change szPage with 48. rewrite i64_id by (unfold is64; lia).
  assert (pageOf (h + 48) = h) as E by (apply pageOf_in; auto; lia).
  split; [|exact E]. unfold okoff. rewrite E.
  split; [lia|]. split; [|lia]. Z.div_mod_to_equations. lia.
Qed.

Lemma shape_ok_excl p :
  shape_ok p = true -> 7 <= p_rank p ->
  0 < p_size p /\ p_size p mod 4096 = 0 /\ pageRank (p_size p) = Some (p_rank p).
Proof.
  unfold shape_ok. change maxSharedRank with 6. change pageSize with 4096.
  intros H Hr. destruct (p_rank p <=? 6) eqn:E; [apply Z.leb_le in E; lia|].
  rewrite !andb_true_iff, Z.ltb_lt, Z.eqb_eq in H. destruct H as ((H1 & H2) & H3).
  destruct (pageRank (p_size p)) as [r|]; [|discriminate].
  apply Z.eqb_eq in H3. subst r. auto.
Qed.

Lemma node_at_region fl off n :
  node_at fl off = Some n -> 0 <= off /\ off + 16 <= Size fl /\ n_off n = off.
Proof.
  unfold node_at, openNode. cbn [f probe].
  destruct (ReadAt fl szNode off) as [b e] eqn:ER.
  destruct (negb (Z.of_nat (length b) =? szNode)) eqn:EL.
  - destruct e; [discriminate|]. intros _.
    apply ReadAt_short in ER; [|unfold szNode; lia].
    apply negb_true_iff, Z.eqb_neq in EL. contradiction.
  - apply negb_false_iff, Z.eqb_eq in EL.
    apply ReadAt_full in ER; [|assumption|unfold szNode; lia].
    destruct ER as (Ho & Hs & _). unfold szNode in *.
    intros H. apply (inj Some) in H. subst n. auto.
Qed.

Lemma G_nrelink off r s h (upd : memNode -> memNode) a a' :
  (forall n, n_off (upd n) = n_off n) ->
  (try next <- openNode h else tt;
   try _ <- memNode_flush (upd next) else tt;
   ret tt) a = (Return tt None, a') ->
  G off r s a -> aligned off = true -> slot_pos h = true ->
  G off r s a'.
Proof.
  intros Hupd H HG Hao Hsp.
  apply bind_ok in H as (next & a1 & Ho & H).
  apply bind_ok in H as (n' & a2 & Hf & H).
  apply ret_ok in H as [_ ->].
  apply openNode_ok in Ho as [Hp ->].
  apply node_at_region in Hp as (_ & _ & Hoff).
  eapply G_nflush; [exact Hf|exact HG|].
  rewrite Hupd, Hoff. apply slot_pos_apart; auto.
Qed.

Lemma G_nunlink off r s n rk a a' :
  memNode_unlink n rk a = (Return tt None, a') ->
  G off r s a -> aligned off = true ->
  node_link_ok (n_prev n) = true -> node_link_ok (n_next n) = true ->
  G off r s a'.
Proof.
  unfold memNode_unlink. intros H HG Hao Hlp Hln.
  apply bind_ok in H as ([] & a1 & H1 & H).
  apply bind_ok in H as ([] & a2 & H2 & H).
  apply bind_ok in H as (h & a3 & H3 & H).
  apply at_index_ok in H3 as [_ ->].
  assert (G off r s a1) as G1.
  { destruct (negb (n_prev n =? 0)) eqn:E.
    - apply negb_true_iff, Z.eqb_neq in E.
      eapply (G_nrelink off r s _ (fun m => memNode_setNext m (n_next n))); eauto.
      unfold node_link_ok in Hlp. apply orb_true_iff in Hlp as [Hlp|Hlp]; auto.
      apply Z.eqb_eq in Hlp. contradiction.
    - apply ret_ok in H1 as [_ ->]. exact HG. }
  assert (G off r s a2) as G2.
  { destruct (negb (n_next n =? 0)) eqn:E.
    - apply negb_true_iff, Z.eqb_neq in E.
      eapply (G_nrelink off r s _ (fun m => memNode_setPrev m (n_prev n))); eauto.
      unfold node_link_ok in Hln. apply orb_true_iff in Hln as [Hln|Hln]; auto.
      apply Z.eqb_eq in Hln. contradiction.
    - apply ret_ok in H2 as [_ ->]. exact G1. }
  destruct (h =? n_off n).
  - eapply G_setSlot; eauto.
  - apply ret_ok in H as [_ ->]. exact G2.
Qed.

Lemma new_off fs :
  0 <= fs <= 2 ^ 62 ->
  let off := i64 (roundup64 (i64 (fs - szFile)) pageSize + szFile) in
  aligned off = true /\ off <= 2 ^ 62 + 4096.
Proof.
  intros Hf. cbv zeta. change szFile with 256.
  rewrite (i64_id (fs - 256)) by (unfold is64; lia).
  rewrite roundup64_spec by lia.
  rewrite i64_id by (unfold is64; Z.div_mod_to_equations; lia).
  rewrite aligned_spec. Z.div_mod_to_equations. lia.
Qed.

Lemma shl_zero n : shl 0 n = 0.
Proof.
  unfold shl. destruct ((0 <=? n) && (n <? 64)); [|reflexivity].
  rewrite Z.shiftl_0_l. reflexivity.
Qed.

Lemma pageRank_spec s r :
  0 < s -> s mod 4096 = 0 -> is64 s -> pageRank s = Some r ->
  7 <= r <= 22 /\ (r < 22 -> s = (r - 6) * 4096) /\ (r = 22 -> 16 * 4096 <= s).
Proof.
  intros H0 Hm Hs. unfold pageRank. change maxSlot with 1024.
  destruct (s <=? 1024); [discriminate|]. intros Hr. apply (inj Some) in Hr.
  assert (s <= 2 ^ 63 - 4096) by (unfold is64 in Hs; Z.div_mod_to_equations; lia).
  rewrite roundup64_spec in Hr by lia.
  change pageLog with 12 in Hr. rewrite Z.shiftr_div_pow2 in Hr by lia.
  change (2 ^ 12) with 4096 in Hr.
  rewrite (Z.mul_comm 4096), Z.div_mul in Hr by lia.
  assert ((s + 4095) / 4096 = s / 4096) as E by (Z.div_mod_to_equations; lia).
  rewrite E in Hr. clear E.
  assert (s = 4096 * (s / 4096)) as Es by (Z.div_mod_to_equations; lia).
  set (k := s / 4096) in *. clearbody k.
  rewrite i64_id in Hr by (unfold is64; lia). change ranks with 23 in Hr.
  destruct (k + 6 >=? 23) eqn:Ek.
  - apply Z.geb_le in Ek. lia.
  - rewrite Z.geb_leb in Ek. apply Z.leb_gt in Ek. lia.
Qed.

Lemma flush_pages m a m' a' :
  memPage_flush m a = (Return m' None, a') -> pages a' = pages a.
Proof.
  intros H. apply memPage_flush_ok in H as [(_ & _ & ->)|(_ & _ & fl' & _ & ->)]; reflexivity.
Qed.

Lemma setTail_pages q n a a' :
  memPage_setTail q n a = (Return tt None, a') -> pages a' = pages a.
Proof. intros H. apply f_WriteAt_ok in H as (fl' & _ & ->). reflexivity. Qed.

Section Paths.

Variable a : Allocator.
Hypothesis I : Inv a.

(** Bump allocation on the head of a shared list *)
Lemma sbrk_served h rk o a' :
  index (pages a) rk = Some h -> h <> 0 -> 0 <= rk <= 6 ->
  sbrk h rk a = (Return o None, a') ->
  okoff o /\ exists s, G (pageOf o) rk s a'.
Proof.
  intros Hi Hh Hr H.
  pose proof (head_ok_page _ _ _ (inv_head a I _ _ Hi) Hh)
    as (Ha & p0 & Hp0 & Hrk & _ & _ & Hbrk & _).
  destruct (Hbrk ltac:(lia)) as (Hb0 & k & Hk & Hbk). clear Hbrk.
  pose proof (page_at_small _ _ _ I Hp0) as Hsmall.
  pose proof (page_at_is64 _ _ _ Hp0) as (Ir & Is & Ib & _ & _ & _ & Hoff).
  unfold sbrk in H.
  apply bind_ok in H as (p & a1 & Ho & H).
  apply openPage_ok in Ho as [Hp ->].
  assert (p = p0) by congruence. subst p0.
  destruct (negb (rk =? p_rank p)); [apply panic_no in H; contradiction|].
  cbv zeta in H.
  apply bind_ok in H as (c & a1 & Hc & H).
  apply at_index_ok in Hc as [Hc ->].
  apply bind_ok in H as (p3 & a3 & H3 & H).
  apply bind_ok in H as (p4 & a4 & H4 & H).
  apply returning_ok in H as [-> (x & H5)].
  match type of H3 with context [memPage_unlink ?q] => set (pB := q) in * end.
  assert (good a3 /\ p3 = pB \/ good a3 /\ p3 = memPage_setNext (memPage_setPrev pB 0) 0) as Hp3.
  { destruct (p_brk pB =? c).
    - right. split; [eapply pres_memPage_unlink; [apply (inv_good a I)|exact H3]|].
      apply memPage_unlink_ok in H3 as [-> _]. reflexivity.
    - left. apply ret_ok in H3 as [-> ->]. split; [apply (inv_good a I)|reflexivity]. }
  assert (good a3 /\ p_dirty p3 = true /\ p_off p3 = h /\ p_rank p3 = rk
          /\ p_size p3 = p_size p /\ p_brk p3 = i64 (p_brk p + 1)) as (G3 & D3 & O3 & R3 & S3 & B3).
  { destruct Hp3 as [[Hg ->]|[Hg ->]]; (split; [exact Hg|]); cbn; repeat split; auto. }
  clear Hp3 H3.
  apply est_pflush in H4 as [HG ->]; auto.
  rewrite O3, R3, S3 in HG. rewrite (i64_id rk) in HG by (rewrite <- Hrk; exact Ir).
  eapply G_flush in H5; [|exact HG|apply aligned_mod16 in Ha; lia].
  unfold memPage_slot. cbn [p_off p_rank p_brk with_dirty].
  rewrite O3, R3, B3.
  replace (i64 (i64 (p_brk p + 1) - 1)) with (p_brk p).
  2:{ unfold is64 in Ib. rewrite (i64_id (p_brk p + 1)), i64_id; unfold is64; try lia.
      assert (k <= 252); [|lia].
      assert (rk = 0 \/ rk = 1 \/ rk = 2 \/ rk = 3 \/ rk = 4 \/ rk = 5 \/ rk = 6) as Hcs by lia.
      destruct Hcs as [->|[->|[->|[->|[->|[->| ->]]]]]]; apply (inj Some) in Hk; subst k; lia. }
  destruct (slot_value h rk k (p_brk p) Ha ltac:(lia) Hr Hk ltac:(lia)) as (E1 & E3).
  split; [exact E1|].
  exists (i64 (p_size p)). rewrite E3. exact H5.
Qed.

(** Reuse of a free single page as a shared page *)
Lemma sbrk2_served h rk o a' :
  index (pages a) 7 = Some h -> h <> 0 -> 0 <= rk <= 6 ->
  sbrk2 h rk a = (Return o None, a') ->
  okoff o /\ exists s, G (pageOf o) rk s a'.
Proof.
  intros Hi Hh Hr H.
  pose proof (head_ok_page _ _ _ (inv_head a I _ _ Hi) Hh)
    as (Ha & p0 & Hp0 & Hrk & _ & Hsh & _ & _).
  apply shape_ok_excl in Hsh as (Hs0 & Hs1 & _); [|lia].
  assert (4096 <= p_size p0) as Hs2 by (Z.div_mod_to_equations; lia).
  pose proof (page_at_small _ _ _ I Hp0) as Hsmall.
  pose proof (page_at_is64 _ _ _ Hp0) as (Ir & Is & Ib & _ & _ & _ & Hoff).
  unfold sbrk2 in H.
  apply bind_ok in H as (p & a1 & Ho & H).
  apply openPage_ok in Ho as [Hp ->].
  assert (p = p0) by congruence. subst p0.
  apply bind_ok in H as (p1 & a1 & H1 & H).
  pose proof (pres_memPage_unlink _ _ _ _ (inv_good a I) H1) as G1.
  apply memPage_unlink_ok in H1 as [-> _].
  cbv zeta in H.
  apply bind_ok in H as (p2 & a2 & H2 & H).
  pose proof (pres_insertPage _ _ _ _ G1 H2) as G2.
  apply insertPage_ok in H2 as (h' & _ & ->).
  apply bind_ok in H as (p3 & a3 & H3 & H).
  apply est_pflush in H3 as [HG ->]; [|exact G2|reflexivity].
  cbn [p_off p_rank p_size memPage_setNext memPage_setPrev memPage_setRank
       memPage_setUsed memPage_setBrk] in HG.
  rewrite Hoff, (i64_id rk), (i64_id (p_size p)) in HG by (auto; unfold is64; lia).
  apply bind_ok in H as ([] & a4 & H4 & H).
  pose proof (setTail_pos _ _ _ _ H4) as Ht.
  eapply G_setTail in H4; [|exact HG|].
  2:{ right. cbn [p_off p_size with_dirty memPage_setNext memPage_setPrev memPage_setRank
                  memPage_setUsed memPage_setBrk] in *.
      rewrite Hoff in *. apply tail_apart; auto; lia. }
  apply returning_ok in H as [-> (x & H5)].
  eapply G_flush in H5; [|exact H4|apply aligned_mod16 in Ha; lia].
  cbn [p_off with_dirty memPage_setNext memPage_setPrev memPage_setRank
       memPage_setUsed memPage_setBrk].
  rewrite Hoff.
  destruct (head_value h Ha ltac:(lia)) as (E1 & E3).
  split; [exact E1|].
  exists (p_size p). rewrite E3. exact H5.
Qed.

(** Reuse of the head of a slot free list *)
Lemma allocSlot_served h rk o a' :
  index (slots a) rk = Some h -> h <> 0 -> 0 <= rk <= 6 ->
  allocSlot h rk a = (Return o None, a') ->
  okoff o /\ exists s, G (pageOf o) rk s a'.
Proof.
  intros Hi Hh Hr H.
  pose proof (inv_slot a I _ _ Hi) as Hs. unfold slot_head_ok in Hs.
  apply orb_true_iff in Hs as [Hs|Hs]; [apply Z.eqb_eq in Hs; contradiction|].
  apply andb_true_iff in Hs as [Hs Hpg]. apply andb_true_iff in Hs as [Hsp Hn].
  destruct (node_at (f a) h) as [n0|] eqn:Hn0; [|discriminate].
  apply andb_true_iff in Hn as [Hlp Hln].
  destruct (page_at (f a) (pageOf h)) as [p0|] eqn:Hp0; [|discriminate].
  apply Z.eqb_eq in Hpg.
  pose proof (node_at_region _ _ _ Hn0) as (Hh0 & Hh1 & _).
  pose proof (inv_size a I) as Hsz.
  pose proof (proj1 (slot_pos_spec h) Hsp) as (Hh304 & Hh16 & _).
  destruct (pageOf_aligned h Hh304 ltac:(unfold is64; lia)) as [Hal _].
  pose proof (page_at_is64 _ _ _ Hp0) as (Ir & Is & _ & _ & _ & _ & Hoff).
  assert (G (pageOf h) rk (p_size p0) a) as HG0.
  { split; [apply (inv_good a I)|]. exists p0. auto. }
  unfold allocSlot in H.
  apply bind_ok in H as (n & a1 & Ho & H).
  apply openNode_ok in Ho as [Hn1 ->].
  assert (n = n0) by congruence. subst n0.
  apply bind_ok in H as ([] & a1 & H1 & H).
  eapply G_nunlink in H1; [|exact HG0|exact Hal|exact Hlp|exact Hln].
  apply bind_ok in H as (p & a2 & H2 & H).
  fold (pageOf h) in H2.
  apply openPage_ok in H2 as [Hp ->].
  destruct H1 as [G1 (p' & Hp' & Hr' & Hs')].
  assert (p' = p) by congruence. subst p'.
  cbv zeta in H.
  apply bind_ok in H as (p3 & a3 & H3 & H).
  pose proof (page_at_is64 _ _ _ Hp) as (_ & _ & _ & _ & _ & _ & Hoff').
  apply est_pflush in H3 as [HG _]; [|exact G1|reflexivity].
  cbn [p_off p_rank p_size memPage_setUsed] in HG.
  rewrite Hoff', Hr', Hs', (i64_id rk), (i64_id (p_size p0)) in HG
    by (auto; rewrite <- ?Hpg; auto).
  apply returning_ok in H as [-> (x & H5)].
  eapply G_flush in H5; [|exact HG|apply aligned_mod16 in Hal; lia].
  split; [|exists (p_size p0); exact H5].
  pose proof (proj1 (slot_pos_spec h) Hsp) as (_ & _ & Hpos).
  unfold okoff. rewrite (pageOf_value h) by (auto; unfold is64; lia).
  split; [lia|]. split; [exact Hh16|]. Z.div_mod_to_equations. lia.
Qed.

(** A fresh shared page *)
Lemma newShared_served rk o a' :
  0 <= rk <= 6 ->
  (try p <- newSharedPage rk else (-1);
   try p <- insertPage p else (-1);
   let p := memPage_setUsed p 1 in
   let p := memPage_setBrk p 1 in
   try p <- memPage_flush p else (-1);
   returning (memPage_slot p 0) flush) a = (Return o None, a') ->
  okoff o /\ exists s, G (pageOf o) rk s a'.
Proof.
  intros Hr H.
  destruct (new_off (fsize a) (inv_fsize a I)) as [Hal Hsm].
  set (off := i64 (roundup64 (i64 (fsize a - szFile)) pageSize + szFile)) in *.
  apply bind_ok in H as (p & a1 & H1 & H).
  pose proof (pres_newSharedPage _ _ _ _ (inv_good a I) H1) as G1.
  unfold newSharedPage in H1. fold off in H1.
  apply returning_ok in H1 as [-> _].
  apply bind_ok in H as (p2 & a2 & H2 & H).
  pose proof (pres_insertPage _ _ _ _ G1 H2) as G2.
  apply insertPage_ok in H2 as (h' & _ & ->).
  cbv zeta in H.
  apply bind_ok in H as (p3 & a3 & H3 & H).
  apply est_pflush in H3 as [HG ->]; [|exact G2|reflexivity].
  cbn [p_off p_rank p_size memPage_setNext memPage_setSize memPage_setRank
       memPage_setUsed memPage_setBrk newMemPage] in HG.
  rewrite (i64_id rk) in HG by (unfold is64; lia).
  apply returning_ok in H as [-> (x & H5)].
  eapply G_flush in H5; [|exact HG|apply aligned_mod16 in Hal; lia].
  unfold memPage_slot.
  cbn [p_off p_rank with_dirty memPage_setNext memPage_setSize memPage_setRank
       memPage_setUsed memPage_setBrk newMemPage].
  rewrite shl_zero, Z.add_0_r.
  rewrite (i64_id (i64 (off + szPage))) by apply i64_is64.
  destruct (head_value off Hal Hsm) as (E1 & E3).
  split; [exact E1|].
  eexists. rewrite E3. exact H5.
Qed.

(** Reuse of a free exclusive page, whole *)
Lemma allocBig2_served h j o a' :
  index (pages a) j = Some h -> h <> 0 -> 7 <= j <= 21 ->
  allocBig2 h a = (Return o None, a') ->
  okoff o /\ G (pageOf o) j ((j - 6) * 4096) a'.
Proof.
  intros Hi Hh Hj H.
  pose proof (head_ok_page _ _ _ (inv_head a I _ _ Hi) Hh)
    as (Ha & p0 & Hp0 & Hrk & _ & Hsh & _ & _).
  pose proof (page_at_small _ _ _ I Hp0) as Hsmall.
  pose proof (page_at_is64 _ _ _ Hp0) as (Ir & Is & Ib & _ & _ & _ & Hoff).
  apply shape_ok_excl in Hsh as (Hs0 & Hs1 & Hpr); [|lia].
  apply pageRank_spec in Hpr as (_ & Hsz & _); auto.
  rewrite Hrk in Hsz. specialize (Hsz ltac:(lia)).
  unfold allocBig2 in H.
  apply bind_ok in H as (p & a1 & Ho & H).
  apply openPage_ok in Ho as [Hp ->].
  assert (p = p0) by congruence. subst p0.
  apply bind_ok in H as (p1 & a1 & H1 & H).
  pose proof (pres_memPage_unlink _ _ _ _ (inv_good a I) H1) as G1.
  apply memPage_unlink_ok in H1 as [-> _].
  apply bind_ok in H as (p3 & a3 & H3 & H).
  apply est_pflush in H3 as [HG ->]; [|exact G1|reflexivity].
  cbn [p_off p_rank p_size memPage_setNext memPage_setPrev] in HG.
  rewrite Hoff, Hrk, Hsz in HG.
  rewrite (i64_id j), (i64_id ((j - 6) * 4096)) in HG by (unfold is64; lia).
  apply bind_ok in H as ([] & a4 & H4 & H).
  pose proof (setTail_pos _ _ _ _ H4) as Ht.
  eapply G_setTail in H4; [|exact HG|].
  2:{ right. cbn [p_off p_size with_dirty memPage_setNext memPage_setPrev] in *.
      rewrite Hoff, Hsz in *. apply tail_apart; auto; unfold is64; lia. }
  apply returning_ok in H as [-> (x & H5)].
  eapply G_flush in H5; [|exact H4|apply aligned_mod16 in Ha; lia].
  cbn [p_off with_dirty memPage_setNext memPage_setPrev].
  rewrite Hoff.
  destruct (head_value h Ha ltac:(lia)) as (E1 & E3).
  split; [exact E1|]. rewrite E3. exact H5.
Qed.

(** Reuse of a page of the last list, cut to size *)
Lemma allocMaxRank_served p need rk o a' :
  page_at (f a) (p_off p) = Some p -> aligned (p_off p) = true ->
  link_ok (p_next p) = true ->
  4096 <= need <= 2 ^ 63 - 4096 -> need mod 4096 = 0 ->
  pageRank need = Some rk -> 7 <= rk <= 22 ->
  need <= p_size p ->
  allocMaxRank p need a = (Return o None, a') ->
  okoff o /\ G (pageOf o) rk need a'.
Proof.
  intros Hp Ha Hln Hneed Hnm Hpr Hrk Hsz H.
  pose proof (page_at_small _ _ _ I Hp) as Hsmall.
  pose proof (page_at_is64 _ _ _ Hp) as (Ir & Is & Ib & _ & _ & _ & _).
  set (h := p_off p) in *.
  unfold allocMaxRank in H.
  apply bind_ok in H as (p1 & a1 & H1 & H).
  pose proof (pres_memPage_unlink _ _ _ _ (inv_good a I) H1) as G1.
  apply memPage_unlink_ok in H1 as [-> Hpages].
  cbv zeta in H.
  cbn [p_size memPage_setSize memPage_setNext memPage_setPrev] in H.
  rewrite Hpr in H.
  apply bind_ok in H as (p3 & a3 & H3 & H).
  pose proof (flush_pages _ _ _ _ H3) as P3.
  apply est_pflush in H3 as [HG ->]; [|exact G1|reflexivity].
  cbn [p_off p_rank p_size memPage_setNext memPage_setPrev memPage_setSize
       memPage_setRank] in HG.
  fold h in HG.
  rewrite (i64_id rk), (i64_id need) in HG by (unfold is64; lia).
  apply bind_ok in H as ([] & a4 & H4 & H).
  pose proof (setTail_pos _ _ _ _ H4) as Ht.
  pose proof (setTail_pages _ _ _ _ H4) as P4.
  eapply G_setTail in H4; [|exact HG|].
  2:{ right. cbn [p_off p_size with_dirty memPage_setNext memPage_setPrev
                  memPage_setSize memPage_setRank] in *.
      fold h in Ht |- *. apply tail_apart; auto; unfold is64; lia. }
  apply bind_ok in H as ([] & a5 & H5 & H).
  apply returning_ok in H as [-> (x & H6)].
  cbn [p_off p_size with_dirty memPage_setNext memPage_setPrev
       memPage_setSize memPage_setRank] in *.
  fold h in H5 |- *.
  assert (G h rk need a5) as G5.
  { destruct (negb (i64 (p_size p - need) =? 0)) eqn:Erem.
    2:{ apply ret_ok in H5 as [_ ->]. exact H4. }
    set (rem := i64 (p_size p - need)) in *.
    assert (rem = p_size p - need) as Erem' by (apply i64_id; unfold is64 in *; lia).
    destruct (pageRank rem) as [r'|] eqn:Er'; [|apply panic_no in H5; contradiction].
    assert (1024 < rem) as Hrem.
    { unfold pageRank in Er'. change maxSlot with 1024 in Er'.
      destruct (rem <=? 1024) eqn:E; [discriminate|]. apply Z.leb_gt in E. exact E. }
    apply bind_ok in H5 as ([] & a6 & H7 & H5).
    apply bind_ok in H5 as (q1 & a7 & H8 & H5).
    apply bind_ok in H5 as (q2 & a8 & H9 & H5).
    apply bind_ok in H5 as ([] & a9 & H10 & H5).
    apply ret_ok in H5 as [_ ->].
    unfold modify in H7. apply (f_equal snd) in H7. cbn [snd] in H7. subst a6.
    assert (h + need < 2 ^ 63) as Hhn.
    { pose proof (proj1 (aligned_spec _) Ha) as Ha'. fold h in Ht.
      change szTail with 8 in Ht. clear - Ht Ha' Hnm Hneed Hsmall.
      unfold i64 in Ht. Z.div_mod_to_equations. lia. }
    assert (i64 (h + need) = h + need) as Eq by (apply i64_id; unfold is64; lia).
    rewrite Eq in *.
    assert (aligned (h + need) = true) as Haq.
    { apply aligned_spec. apply aligned_spec in Ha.
      Z.div_mod_to_equations. lia. }
    pose proof (insertPage_ok _ _ _ _ H8) as (h' & _ & ->).
    eapply G_insertPage in H8.
    2:{ destruct H4 as [Hg Hh]. split; [exact Hg|exact Hh]. }
    2:{ exact Ha. }
    2:{ intros h0 Hh0. cbn [pages set_npages] in Hh0. rewrite P4, P3 in Hh0.
        apply Hpages in Hh0 as [Hh0| ->].
        - pose proof (inv_head a I _ _ Hh0) as Hok. unfold head_ok in Hok.
          unfold link_ok. apply orb_true_iff in Hok as [Hok|Hok];
            apply orb_true_iff; [left; exact Hok|right].
          apply andb_true_iff in Hok as [Hok _]. exact Hok.
        - exact Hln. }
    assert (p_off q2 = h + need /\ p_size q2 = rem) as [Oq Sq].
    { pose proof H9 as H9'.
      apply memPage_flush_ok in H9' as [(_ & -> & _)|(_ & -> & _)]; cbn; auto. }
    eapply G_pflush_other in H9; [|exact H8|].
    2:{ cbn [p_off memPage_setNext memPage_setRank memPage_setSize newMemPage]. lia. }
    pose proof (setTail_pos _ _ _ _ H10) as Ht2.
    eapply G_setTail in H10; [exact H10|exact H9|].
    right.
    rewrite Oq, Sq in *. 
    apply (tail_apart (h + need) rem h); auto; try lia.
    unfold is64 in *. lia. }
  eapply G_flush in H6; [|exact G5|apply aligned_mod16 in Ha; lia].
  destruct (head_value h Ha ltac:(lia)) as (E1 & E3).
  split; [exact E1|]. rewrite E3. exact H6.
Qed.

(** A fresh exclusive page *)
Lemma newPage_served size rk o a' :
  let need := roundup64 (i64 (i64 (szPage + size) + szTail)) pageSize in
  pageRank need = Some rk -> 4096 <= need <= 2 ^ 63 - 4096 -> 7 <= rk <= 22 ->
  (try p <- newPage size else (-1);
   try p <- memPage_flush p else (-1);
   returning (i64 (p_off p + szPage)) flush) a = (Return o None, a') ->
  okoff o /\ G (pageOf o) rk need a'.
Proof.
  cbv zeta. set (need := roundup64 (i64 (i64 (szPage + size) + szTail)) pageSize).
  intros Hpr Hneed Hrk H.
  destruct (new_off (fsize a) (inv_fsize a I)) as [Hal Hsm].
  set (off := i64 (roundup64 (i64 (fsize a - szFile)) pageSize + szFile)) in *.
  apply bind_ok in H as (p & a1 & H1 & H).
  pose proof (pres_newPage _ _ _ _ (inv_good a I) H1) as G1.
  unfold newPage in H1. fold off need in H1. rewrite Hpr in H1.
  apply returning_ok in H1 as [-> _].
  apply bind_ok in H as (p3 & a3 & H3 & H).
  apply est_pflush in H3 as [HG ->]; [|exact G1|reflexivity].
  cbn [p_off p_rank p_size memPage_setSize memPage_setRank newMemPage] in HG.
  rewrite (i64_id rk), (i64_id need) in HG by (unfold is64; lia).
  apply returning_ok in H as [-> (x & H5)].
  eapply G_flush in H5; [|exact HG|apply aligned_mod16 in Hal; lia].
  cbn [p_off with_dirty memPage_setSize memPage_setRank newMemPage].
  destruct (head_value off Hal Hsm) as (E1 & E3).
  split; [exact E1|]. rewrite E3. exact H5.
Qed.

Lemma allocBig_scan_cases need (K : M Z) o a' : forall j off,
  (j <= 2)%nat ->
  allocBig_scan need off j K a = (Return o None, a') ->
  (exists p, (page_at (f a) off = Some p
              \/ (j = 2%nat /\ exists p1, page_at (f a) off = Some p1 /\ p_next p1 <> 0
                                /\ page_at (f a) (p_next p1) = Some p))
             /\ need <= p_size p
             /\ allocMaxRank p need a = (Return o None, a'))
  \/ K a = (Return o None, a').
Proof.
  induction j as [|j IH]; intros off Hj H; cbn [allocBig_scan] in H; [right; exact H|].
  destruct (off =? 0) eqn:E0; [right; exact H|].
  apply bind_ok in H as (p & a1 & Ho & H).
  apply openPage_ok in Ho as [Hp ->].
  destruct (p_size p >=? need) eqn:Es.
  - left. exists p. apply Z.geb_le in Es. auto.
  - destruct j as [|j]; [right; exact H|].
    assert (j = 0%nat) by lia. subst j.
    cbn [allocBig_scan] in H.
    destruct (p_next p =? 0) eqn:En; [right; exact H|].
    apply Z.eqb_neq in En.
    apply bind_ok in H as (q & a1 & Ho & H).
    apply openPage_ok in Ho as [Hq ->].
    destruct (p_size q >=? need) eqn:Es2; [|right; exact H].
    left. exists q. apply Z.geb_le in Es2. split; [|auto].
    right. split; [reflexivity|]. exists p. auto.
Qed.

Lemma allocBig_loop_cases need (k : M Z) o a' : forall n i,
  allocBig_loop need i n k a = (Return o None, a') ->
  (exists j h, i <= j < 22 /\ index (pages a) j = Some h /\ h <> 0
               /\ allocBig2 h a = (Return o None, a'))
  \/ (exists h p, index (pages a) 22 = Some h /\ h <> 0 /\ reach2 (f a) h p
                  /\ need <= p_size p /\ allocMaxRank p need a = (Return o None, a'))
  \/ k a = (Return o None, a').
Proof.
  induction n as [|n IH]; intros i H; cbn [allocBig_loop] in H; [right; right; exact H|].
  apply bind_ok in H as (off & a1 & Hi & H).
  apply at_index_ok in Hi as [Hi ->].
  assert (forall R, allocBig_loop need (i + 1) n k a = R ->
            R = (Return o None, a') ->
            (exists j h, i <= j < 22 /\ index (pages a) j = Some h /\ h <> 0
               /\ allocBig2 h a = (Return o None, a'))
            \/ (exists h p, index (pages a) 22 = Some h /\ h <> 0 /\ reach2 (f a) h p
                  /\ need <= p_size p /\ allocMaxRank p need a = (Return o None, a'))
            \/ k a = (Return o None, a')) as Hnext.
  { intros R HR ->. apply IH in HR as [(j & h & Hj & Hx)|[Hx|Hx]]; auto.
    left. exists j, h. split; [lia|exact Hx]. }
  destruct (off =? 0) eqn:E0; [eapply Hnext; eauto|].
  apply Z.eqb_neq in E0. change (ranks - 1) with 22 in H.
  destruct (i <? 22) eqn:Ei.
  - apply Z.ltb_lt in Ei. left. exists i, off. repeat split; auto; lia.
  - apply Z.ltb_ge in Ei.
    assert (i = 22) as ->.
    { pose proof (inv_good a I) as (_ & Hl & _).
      apply index_lookup in Hi as [_ Hi]. apply lookup_lt_Some in Hi. lia. }
    pose proof (allocBig_scan_cases need _ o a' 2%nat off ltac:(lia) H)
      as [(p & Hp & Hs & Hm)|HK]; [|eapply Hnext; eauto].
    right. left. exists off, p. repeat split; auto.
    destruct Hp as [Hp|[_ Hp]]; [left; exact Hp|right; exact Hp].
Qed.

Lemma allocBig_served size o a' :
  1024 < size -> size < 2 ^ 63 ->
  allocBig size a = (Return o None, a') ->
  okoff o
  /\ exists r s, G (pageOf o) r s a' /\ 7 <= r <= 22 /\ size + 56 <= s.
Proof.
  intros Hs Hb H. unfold allocBig in H. cbv zeta in H.
  destruct (pageRank (roundup64 (i64 (i64 (szPage + size) + szTail)) pageSize))
    as [rk|] eqn:Hpr; [|apply panic_no in H; contradiction].
  pose proof (need_facts size rk Hs Hb Hpr) as Hf. cbv zeta in Hf.
  set (need := roundup64 (i64 (i64 (szPage + size) + szTail)) pageSize) in *.
  destruct Hf as (Hn1 & Hn2 & Hn3 & Hrk & Hlt & H22).
  apply allocBig_loop_cases in H as [(j & h & Hj & Hi & Hh & H)|[(h & p & Hi & Hh & Hre & Hsz & H)|H]].
  - apply (allocBig2_served h j) in H as (E1 & E3); auto; [|lia].
    split; [exact E1|].
    exists j, ((j - 6) * 4096). split; [exact E3|]. split; [lia|].
    specialize (Hlt ltac:(lia)). lia.
  - pose proof (head_ok_page _ _ _ (inv_head a I _ _ Hi) Hh)
      as (Ha & p1 & Hp1 & _ & Hl1 & _ & _ & Hsec).
    apply links_ok_spec in Hl1 as [_ Hl1n].
    assert (page_at (f a) (p_off p) = Some p /\ aligned (p_off p) = true
            /\ link_ok (p_next p) = true) as (Hp & Hap & Hlp).
    { destruct Hre as [Hp|(p1' & Hp1' & Hn & Hp)].
      - assert (p = p1) by congruence. subst p1.
        pose proof (page_at_is64 _ _ _ Hp) as (_ & _ & _ & _ & _ & _ & Hoff).
        rewrite Hoff. auto.
      - assert (p1' = p1) by congruence. subst p1'.
        destruct (Hsec eq_refl Hn) as (q & Hq & Hlq).
        assert (q = p) by congruence. subst q.
        pose proof (page_at_is64 _ _ _ Hp) as (_ & _ & _ & _ & _ & _ & Hoff).
        rewrite Hoff. apply links_ok_spec in Hlq as [_ Hlq]. split; [exact Hp|].
        split; [|exact Hlq].
        unfold link_ok in Hl1n. apply orb_true_iff in Hl1n as [Hz|Hz]; [|exact Hz].
        apply Z.eqb_eq in Hz. contradiction. }
    apply (allocMaxRank_served p need rk) in H as (E1 & E3); auto; [|lia].
    split; [exact E1|].
    exists rk, need. auto.
  - apply (newPage_served size rk) in H as (E1 & E3); auto; [|fold need; lia].
    split; [exact E1|].
    exists rk, need. auto.
Qed.

End Paths.

Lemma Inv_set_allocs a x : Inv a -> Inv (set_allocs a x).
Proof. intros [? ? ? ? ?]. constructor; auto. Qed.

(** Every successful [Alloc] hands out a block of a page whose header says
    so. *)

Lemma Alloc_served a size o a' :
  Inv a -> size < 2 ^ 63 ->
  Alloc size a = (Return o None, a') -> Served size o a'.
Proof.
  intros I Hb H. unfold Alloc in H.
  destruct (size <=? 0) eqn:E0; [apply fail_no in H; contradiction|].
  apply Z.leb_gt in E0.
  apply bind_ok in H as ([] & a1 & Hm & H).
  unfold modify in Hm. apply (f_equal snd) in Hm. cbn [snd] in Hm. subst a1.
  apply (Inv_set_allocs a (i64 (allocs a + 1))) in I.
  set (a1 := set_allocs a (i64 (allocs a + 1))) in *. clearbody a1. clear a.
  change maxSlot with 1024 in H.
  destruct (size >? 1024) eqn:Eb.
  - rewrite Z.gtb_ltb in Eb. apply Z.ltb_lt in Eb.
    apply (allocBig_served a1 I) in H as (E1 & r & s & HG & Hr & Hs); auto.
    split; [exact E1|]. exists r, s. auto.
  - destruct (slotRank size) as [rk|] eqn:Hrk; [|apply panic_no in H; contradiction].
    pose proof (slotRank_spec _ _ Hrk) as (_ & Hr & _).
    assert (forall x, okoff o /\ (exists s, G (pageOf o) rk s x) ->
                      Served size o x) as Hfin.
    { intros x (E1 & s & HG). split; [exact E1|].
      exists rk, s. auto. }
    apply Hfin.
    apply bind_ok in H as (h & a2 & Hi & H).
    apply at_index_ok in Hi as [Hi ->].
    destruct (negb (h =? 0)) eqn:Eh.
    { apply negb_true_iff, Z.eqb_neq in Eh. eapply sbrk_served; eauto. }
    apply bind_ok in H as (h7 & a2 & Hi7 & H).
    apply at_index_ok in Hi7 as [Hi7 ->].
    destruct (negb (h7 =? 0)) eqn:Eh7.
    { apply negb_true_iff, Z.eqb_neq in Eh7. eapply sbrk2_served; eauto. }
    apply bind_ok in H as (hs & a2 & His & H).
    apply at_index_ok in His as [His ->].
    destruct (negb (hs =? 0)) eqn:Ehs.
    { apply negb_true_iff, Z.eqb_neq in Ehs. eapply allocSlot_served; eauto. }
    eapply newShared_served; eauto.
Qed.

Lemma Served_usable size o a' :
  0 < size -> Served size o a' ->
  exists n, UsableSize o a' = (Return n None, a') /\ size <= n.
Proof.
  intros Hs ((Ho & _ & _) & r & s & HG & [Hr|(Hb & Hr & Hsz)]).
  - apply slotRank_spec in Hr as (_ & Hr & Hle).
    exists (2 ^ (r + 4)). split; [|exact Hle]. eapply UsableSize_shared; eauto. lia.
  - exists (s - 56). split; [|lia]. eapply UsableSize_excl; eauto; lia.
Qed.

(** The zeroing loop of [Calloc] stays behind the header of the page. *)
Lemma Calloc_loop_G off r s b : forall fuel dst sz a a',
  G off r s a -> 0 <= sz < 2 ^ 63 -> is64 dst -> off + 48 <= dst \/ dst < 0 ->
  Calloc_loop fuel b dst sz a = (Return tt None, a') ->
  G off r s a'.
Proof.
  induction fuel as [|fuel IH]; intros dst sz a a' HG Hsz Hd64 Hdst H.
  - cbn [Calloc_loop] in H. destruct (sz =? 0).
    + apply ret_ok in H as [_ ->]. exact HG.
    + discriminate.
  - cbn [Calloc_loop] in H. destruct (sz =? 0) eqn:E0.
    { apply ret_ok in H as [_ ->]. exact HG. }
    apply Z.eqb_neq in E0. cbv zeta in H.
    set (rq := if sz <? Z.of_nat (length b) then sz else Z.of_nat (length b)) in *.
    assert (0 <= rq <= sz) as Hrq.
    { unfold rq. destruct (sz <? Z.of_nat (length b)) eqn:E; [lia|].
      apply Z.ltb_ge in E. lia. }
    clearbody rq.
    destruct (rq <? 0); [apply panic_no in H; contradiction|].
    apply bind_ok in H as ([] & a1 & Hw & H).
    pose proof Hw as Hw'. apply f_WriteAt_ok in Hw' as (fl' & Hw' & _).
    apply WriteAt_ok in Hw' as [Hpos _].
    eapply G_WriteAt in Hw; [|exact HG|right; lia].
    eapply IH; [exact Hw| | | |exact H].
    + rewrite i64_id by (unfold is64; lia). lia.
    + apply i64_is64.
    + unfold is64 in Hd64. unfold i64. Z.div_mod_to_equations. lia.
Qed.

Lemma Calloc_served a size o a' :
  Inv a -> 0 < size < 2 ^ 63 ->
  Calloc size a = (Return o None, a') -> Served size o a'.
Proof.
  intros I Hs H. unfold Calloc in H.
  apply bind_ok in H as (off & a1 & Ha & H).
  apply Alloc_served in Ha; [|exact I|lia].
  cbv zeta in H.
  apply bind_ok in H as ([] & a2 & Hl & H).
  apply ret_ok in H as [-> ->].
  destruct Ha as (Hok & r & s & HG & Hrs).
  split; [exact Hok|]. exists r, s. split; [|exact Hrs].
  destruct Hok as (Ho & _ & Hp).
  eapply Calloc_loop_G; [exact HG| | | |exact Hl]; unfold is64; lia.
Qed.


Lemma usableSize_ok off a n p a' :
  usableSize off a = (Return (n, p) None, a') ->
  a' = a /\ 304 <= off /\ page_at (f a) (pageOf off) = Some p
  /\ 0 <= p_rank p <= 22
  /\ n = (if p_rank p <=? 6 then shl 1 (i64 (p_rank p + 4))
          else i64 (i64 (p_size p - szPage) - szTail)).
Proof.
  unfold usableSize. change (szFile + szPage) with 304.
  destruct (off <? 304) eqn:E; [intros H; apply fail_no in H; contradiction|].
  apply Z.ltb_ge in E. intros H.
  apply bind_ok in H as (q & a1 & Ho & H). fold (pageOf off) in Ho.
  apply openPage_ok in Ho as [Hp ->].
  change ranks with 23 in H. change maxSharedRank with 6 in H.
  destruct (p_rank q <? 0) eqn:E1; [apply panic_no in H; contradiction|].
  destruct (p_rank q >=? 23) eqn:E2; [apply panic_no in H; contradiction|].
  apply Z.ltb_ge in E1. rewrite Z.geb_leb in E2. apply Z.leb_gt in E2.
  cbn [orb] in H.
  destruct (p_rank q <=? 6) eqn:E3; apply ret_ok in H as [H ->];
    inversion H; subst; rewrite ?E3; repeat split; auto; lia.
Qed.



(** [Realloc] to the usable size *)
Lemma rank_shared r : 0 <= r <= 6 -> rank (2 ^ (r + 4)) = Some r.
Proof.
  intros Hr. assert (r = 0 \/ r = 1 \/ r = 2 \/ r = 3 \/ r = 4 \/ r = 5 \/ r = 6) as H by lia.
  destruct H as [->|[->|[->|[->|[->|[->| ->]]]]]]; vm_compute; reflexivity.
Qed.

Lemma rank_excl s r :
  0 < s -> s mod 4096 = 0 -> is64 s -> pageRank s = Some r -> rank (s - 56) = Some r.
Proof.
  intros H0 Hm Hs Hr.
  assert (4096 <= s <= 2 ^ 63 - 4096) by (unfold is64 in Hs; Z.div_mod_to_equations; lia).
  unfold rank. change maxSlot with 1024.
  destruct (s - 56 <=? 1024) eqn:E; [apply Z.leb_le in E; lia|].
  rewrite <- Hr. unfold pageRank. change maxSlot with 1024. rewrite E.
  destruct (s <=? 1024) eqn:E'; [apply Z.leb_le in E'; lia|].
  rewrite !roundup64_spec by lia.
  replace ((s - 56 + 4095) / 4096) with ((s + 4095) / 4096)
    by (Z.div_mod_to_equations; lia).
  reflexivity.
Qed.

Lemma Realloc_same fuel off a n p a' :
  usableSize off a = (Return (n, p) None, a') -> shape_ok p = true ->
  Realloc fuel off n a = (Return off None, a).
Proof.
  intros Hu Hsh. pose proof Hu as Hu'.
  apply usableSize_ok in Hu' as (-> & Ho & Hp & Hr & Hn).
  pose proof (page_at_is64 _ _ _ Hp) as (_ & Is & _).
  assert (0 < n /\ rank n = Some (p_rank p)) as [Hn0 Hrk].
  { destruct (p_rank p <=? 6) eqn:E.
    - apply Z.leb_le in E. rewrite shared_usable in Hn by lia. subst n.
      split; [apply Z.pow_pos_nonneg; lia|apply rank_shared; lia].
    - apply Z.leb_gt in E.
      apply shape_ok_excl in Hsh as (H0 & Hm & Hpr); [|lia].
      assert (4096 <= p_size p <= 2 ^ 63 - 4096)
        by (unfold is64 in Is; Z.div_mod_to_equations; lia).
      change szPage with 48 in Hn. change szTail with 8 in Hn.
      rewrite (i64_id (p_size p - 48)), i64_id in Hn by (unfold is64; lia).
      replace (p_size p - 48 - 8) with (p_size p - 56) in Hn by lia. subst n.
      split; [lia|apply rank_excl; auto]. }
  unfold Realloc. change (szFile + szPage) with 304.
  destruct (off <? 304) eqn:E; [apply Z.ltb_lt in E; lia|].
  destruct (n =? 0) eqn:E0; [apply Z.eqb_eq in E0; lia|].
  unfold bind at 1. rewrite Hu. cbv zeta. cbn [fst snd].
  destruct (n >=? n) eqn:E1; [|rewrite Z.geb_leb in E1; apply Z.leb_gt in E1; lia].
  rewrite Hrk, Z.eqb_refl. reflexivity.
Qed.

(** * Termination: the fuel of the bounded loops is enough *)

Lemma bind_fuel {A B} (m : M A) (d : B) (k : A -> M B) a a' :
  bind m d k a = (OutOfFuel, a') ->
  m a = (OutOfFuel, a') \/ exists x a1, m a = (Return x None, a1) /\ k x a1 = (OutOfFuel, a').
Proof.
  unfold bind. destruct (m a) as [[x [e|]| |] a1]; intros H; try discriminate.
  - right. eauto.
  - left. inversion H; reflexivity.
Qed.

Lemma total_bind {A B} (m : M A) (d : B) k :
  total m -> (forall x, total (k x)) -> total (bind m d k).
Proof.
  intros Hm Hk a a' H. apply bind_fuel in H as [H|(x & a1 & _ & H)].
  - eapply Hm; eauto.
  - eapply Hk; eauto.
Qed.

Lemma total_returning {A B} (v : B) (m : M A) : total m -> total (returning v m).
Proof.
  intros Hm a a' H. unfold returning in H.
  destruct (m a) as [[x e| |] a1] eqn:E; try discriminate.
  inversion H; subst. eapply Hm; eauto.
Qed.

Lemma total_ret {A} (v : A) : total (ret v).
Proof. intros a a' H. discriminate. Qed.
Lemma total_fail {A} (v : A) e : total (fail v e).
Proof. intros a a' H. discriminate. Qed.
Lemma total_panic {A} : total (@panic A).
Proof. intros a a' H. discriminate. Qed.
Lemma total_gets {A} (g : Allocator -> A) : total (gets g).
Proof. intros a a' H. discriminate. Qed.
Lemma total_modify g : total (modify g).
Proof. intros a a' H. discriminate. Qed.
Lemma total_at_index sel i : total (at_index sel i).
Proof. intros a a' H. unfold at_index in H. destruct (index (sel a) i); discriminate. Qed.
Lemma total_WriteAt b o : total (f_WriteAt b o).
Proof. intros a a' H. unfold f_WriteAt in H. destruct (WriteAt (f a) b o); discriminate. Qed.
Lemma total_Truncate n : total (f_Truncate n).
Proof. intros a a' H. unfold f_Truncate in H. destruct (Truncate (f a) n); discriminate. Qed.
Lemma total_setPage r n : total (setPage r n).
Proof. intros a a' H. unfold setPage in H. destruct (index (pages a) r); discriminate. Qed.
Lemma total_setSlot r n : total (setSlot r n).
Proof. intros a a' H. unfold setSlot in H. destruct (index (slots a) r); discriminate. Qed.
Lemma total_openPage off : total (openPage off).
Proof.
  intros a a' H. unfold openPage in H. destruct (ReadAt (f a) szPage off) as [b e].
  destruct (negb (Z.of_nat (length b) =? szPage)); discriminate.
Qed.
Lemma total_openNode off : total (openNode off).
Proof.
  intros a a' H. unfold openNode in H. destruct (ReadAt (f a) szNode off) as [b e].
  destruct (negb (Z.of_nat (length b) =? szNode)); discriminate.
Qed.
Lemma total_Allocator_read off : total (Allocator_read off).
Proof.
  intros a a' H. unfold Allocator_read in H. destruct (ReadAt (f a) 8 off) as [b e].
  destruct (negb (Z.of_nat (length b) =? 8)); discriminate.
Qed.
Lemma total_memPage_flush m : total (memPage_flush m).
Proof.
  intros a a' H. unfold memPage_flush in H. destruct (negb (p_dirty m)); [discriminate|].
  destruct (WriteAt (f a) (page_bytes m) (p_off m)); discriminate.
Qed.
Lemma total_memNode_flush m : total (memNode_flush m).
Proof.
  intros a a' H. unfold memNode_flush in H. destruct (negb (n_dirty m)); [discriminate|].
  match type of H with context [WriteAt ?x ?b ?o] => destruct (WriteAt x b o) end.
  discriminate.
Qed.
Lemma total_memPage_setTail m n : total (memPage_setTail m n).
Proof. apply total_WriteAt. Qed.
Lemma total_flush : total flush.
Proof.
  intros a a' H. unfold flush in H. destruct (negb (dirty a)); [discriminate|].
  match type of H with context [WriteAt ?x ?b ?o] => destruct (WriteAt x b o) end.
  discriminate.
Qed.

Create HintDb total.
#[export] Hint Resolve total_ret total_fail total_panic total_gets total_modify
  total_at_index total_WriteAt total_Truncate total_setPage total_setSlot
  total_openPage total_openNode total_Allocator_read total_memPage_flush
  total_memNode_flush total_memPage_setTail total_flush total_returning : total.

Ltac total_step :=
  match goal with
  | |- total (bind _ _ _) => apply total_bind; [|intros ?]
  | |- total (returning _ _) => apply total_returning
  | |- total (if ?c then _ else _) => destruct c
  | |- total (match ?x with _ => _ end) => destruct x
  | |- total _ => solve [auto with total]
  end.
Ltac total_tac := repeat total_step.

Lemma total_memNode_unlink m r : total (memNode_unlink m r).
Proof. unfold memNode_unlink. total_tac. Qed.
Lemma total_memPage_unlink m : total (memPage_unlink m).
Proof. unfold memPage_unlink. total_tac. Qed.
Lemma total_insertPage p : total (insertPage p).
Proof. unfold insertPage. total_tac. Qed.
Lemma total_insertSlot r off : total (insertSlot r off).
Proof. unfold insertSlot. cbv zeta. total_tac. Qed.
#[export] Hint Resolve total_memNode_unlink total_memPage_unlink total_insertPage
  total_insertSlot : total.

Lemma total_freeSlots_loop m : forall n i, total (freeSlots_loop m i n).
Proof. induction n as [|n IH]; intros i; cbn [freeSlots_loop]; total_tac. Qed.
#[export] Hint Resolve total_freeSlots_loop : total.
Lemma total_memPage_freeSlots m : total (memPage_freeSlots m).
Proof. unfold memPage_freeSlots. total_tac. Qed.
#[export] Hint Resolve total_memPage_freeSlots : total.

Lemma total_newSharedPage r : total (newSharedPage r).
Proof.
  intros a a'. unfold newSharedPage.
  apply (total_returning _ _ (total_memPage_setTail _ _)).
Qed.
Lemma total_newPage s : total (newPage s).
Proof.
  intros a a'. unfold newPage.
  destruct (pageRank (roundup64 (i64 (i64 (szPage + s) + szTail)) pageSize)) as [r|].
  - apply (total_returning _ _ (total_memPage_setTail _ _)).
  - discriminate.
Qed.
#[export] Hint Resolve total_newSharedPage total_newPage : total.

Lemma total_sbrk h r : total (sbrk h r).
Proof. unfold sbrk. cbv zeta. total_tac. Qed.
Lemma total_sbrk2 h r : total (sbrk2 h r).
Proof. unfold sbrk2. cbv zeta. total_tac. Qed.
Lemma total_allocSlot h r : total (allocSlot h r).
Proof. unfold allocSlot. cbv zeta. total_tac. Qed.
Lemma total_allocBig2 h : total (allocBig2 h).
Proof. unfold allocBig2. total_tac. Qed.
Lemma total_allocMaxRank p need : total (allocMaxRank p need).
Proof. unfold allocMaxRank. cbv zeta. total_tac. Qed.
#[export] Hint Resolve total_sbrk total_sbrk2 total_allocSlot total_allocBig2
  total_allocMaxRank : total.

Lemma total_allocBig_scan need k : total k -> forall j off, total (allocBig_scan need off j k).
Proof. intros Hk. induction j as [|j IH]; intros off; cbn [allocBig_scan]; total_tac. Qed.

Lemma total_allocBig_loop need k : total k -> forall n i, total (allocBig_loop need i n k).
Proof.
  intros Hk. induction n as [|n IH]; intros i; cbn [allocBig_loop]; total_tac.
  apply total_allocBig_scan. apply IH.
Qed.

Lemma total_allocBig size : total (allocBig size).
Proof.
  unfold allocBig. cbv zeta.
  destruct (pageRank _); [|auto with total].
  apply total_allocBig_loop. total_tac.
Qed.
#[export] Hint Resolve total_allocBig : total.

(** [Alloc] has no loop that runs on fuel. *)
Lemma total_Alloc size : total (Alloc size).
Proof. unfold Alloc. cbv zeta. total_tac. Qed.
#[export] Hint Resolve total_Alloc : total.

Lemma total_Calloc_loop b : forall fuel dst sz,
  0 <= sz < 2 ^ 63 -> sz <= Z.of_nat fuel * Z.of_nat (length b) ->
  total (Calloc_loop fuel b dst sz).
Proof.
  induction fuel as [|fuel IH]; intros dst sz Hs Hf; cbn [Calloc_loop].
  - destruct (sz =? 0) eqn:E; [auto with total|]. apply Z.eqb_neq in E. lia.
  - destruct (sz =? 0) eqn:E; [auto with total|]. apply Z.eqb_neq in E. cbv zeta.
    set (rq := if sz <? Z.of_nat (length b) then sz else Z.of_nat (length b)).
    assert (0 <= rq <= sz /\ sz - rq <= Z.of_nat fuel * Z.of_nat (length b)) as [Hrq Hle].
    { unfold rq. destruct (sz <? Z.of_nat (length b)) eqn:El.
      - split; lia.
      - apply Z.ltb_ge in El. split; lia. }
    clearbody rq.
    destruct (rq <? 0); [auto with total|].
    apply total_bind; [auto with total|]. intros _.
    apply IH; rewrite i64_id by (unfold is64; lia); lia.
Qed.

(** The fuel that [Calloc] gives its zeroing loop is enough. *)
Lemma total_Calloc size : size < 2 ^ 63 -> total (Calloc size).
Proof.
  intros Hs. unfold Calloc. intros a a' H.
  apply bind_fuel in H as [H|(off & a1 & Ha & H)]; [eapply total_Alloc; eauto|].
  assert (0 < size) as Hpos.
  { unfold Alloc in Ha. destruct (size <=? 0) eqn:E; [discriminate|].
    apply Z.leb_gt in E. exact E. }
  cbv zeta in H.
  apply bind_fuel in H as [H|(u & a2 & _ & H)]; [|discriminate].
  revert H. apply total_Calloc_loop; [lia|].
  unfold zeros. rewrite length_replicate. unfold bufSize.
  rewrite Nat2Z.inj_succ, !Z2Nat.id by (try apply Z.div_pos; lia).
  destruct (Z.min_spec 1048576 size) as [[Hlt ->]|[Hge ->]].
  - pose proof (Z.div_mod size 1048576 ltac:(lia)).
    pose proof (Z.mod_pos_bound size 1048576 ltac:(lia)). nia.
  - assert (0 <= size / 1048576) by (apply Z.div_pos; lia). nia.
Qed.

Lemma f_Truncate_ok n a a' :
  f_Truncate n a = (Return tt None, a') -> 0 <= n /\ Size (f a') = n.
Proof.
  unfold f_Truncate, Truncate, next_fault. intros H.
  destruct (faults (f a)) as [|[|] fs]; cbn in H;
    destruct (n <? 0) eqn:En; inversion H; subst; cbn [f set_f data];
    apply Z.ltb_ge in En; (split; [exact En|]);
    unfold Size; cbn [data]; rewrite length_take, length_app, length_replicate; lia.
Qed.

(** Every further round of [freeLastPage] works on a page that lies
    below the previous one, so the offset of the first page bounds the
    number of rounds. *)
Lemma total_freeLastPage_loop : forall fuel p,
  (Z.to_nat (p_off p) < fuel)%nat -> total (freeLastPage_loop fuel p).
Proof.
  induction fuel as [|fuel IH]; intros p Hlt a a' H; [lia|].
  cbn [freeLastPage_loop] in H.
  apply bind_fuel in H as [H|([] & a1 & _ & H)].
  { destruct (p_rank p <=? maxSharedRank);
      [eapply total_memPage_freeSlots|eapply total_ret]; eauto. }
  apply bind_fuel in H as [H|(p1 & a2 & H1 & H)]; [eapply total_memPage_unlink; eauto|].
  apply memPage_unlink_ok in H1 as [-> _].
  apply bind_fuel in H as [H|(p2 & a3 & H2 & H)]; [eapply total_memPage_flush; eauto|].
  assert (p_off p2 = p_off p) as Ho.
  { apply memPage_flush_ok in H2 as [(_ & -> & _)|(_ & -> & _)]; reflexivity. }
  apply bind_fuel in H as [H|([] & a4 & H4 & H)]; [eapply total_Truncate; eauto|].
  apply f_Truncate_ok in H4 as [Hpos Hsz].
  apply bind_fuel in H as [H|([] & a5 & H5 & H)]; [discriminate|].
  unfold modify in H5. apply (f_equal snd) in H5. cbn [snd] in H5. subst a5.
  destruct (p_off p2 >? szFile); [|discriminate].
  apply bind_fuel in H as [H|(prevSize & a6 & H6 & H)];
    [eapply total_Allocator_read; eauto|].
  assert (a6 = set_bytes (set_npages (set_fsize a4 (p_off p2)) (i64 (npages a4 - 1)))
                         (i64 (bytes a4 - p_size p2))) as ->.
  { unfold Allocator_read in H6.
    match type of H6 with context [ReadAt ?x ?l ?o] => destruct (ReadAt x l o) as [b e] end.
    destruct (negb (Z.of_nat (length b) =? 8)); inversion H6; reflexivity. }
  destruct (negb (prevSize =? 0)); [|discriminate].
  apply bind_fuel in H as [H|(p' & a7 & H7 & H)]; [eapply total_openPage; eauto|].
  apply openPage_ok in H7 as [H7 ->]. cbn [f set_bytes set_npages set_fsize] in H7.
  pose proof (page_at_is64 _ _ _ H7) as (_ & _ & _ & _ & _ & _ & Hoff).
  apply page_at_region in H7 as (H70 & H71 & _).
  revert H. apply IH. rewrite Hoff. lia.
Qed.

Lemma total_freeLastPage p : total (freeLastPage p).
Proof. unfold freeLastPage. apply total_freeLastPage_loop. lia. Qed.
#[export] Hint Resolve total_freeLastPage : total.

Lemma total_freePage p : total (freePage p).
Proof. unfold freePage. total_tac. Qed.
#[export] Hint Resolve total_freePage : total.

(** [Free] always comes to an end: the fuel of [freeLastPage] is enough. *)
Lemma total_Free off : total (Free off).
Proof. unfold Free. cbv zeta. total_tac. Qed.

(** * C1 *)

Lemma check_heads_Some b base max : forall n i,
  (forall j, i <= j < i + Z.of_nat n ->
             0 <= read (drop (Z.to_nat (base + 8 * j)) b) <= max) ->
  check_heads b base max n i
  = Some (map (fun k => read (drop (Z.to_nat (base + 8 * (i + Z.of_nat k))) b)) (seq 0 n)).
Proof.
  induction n as [|n IH]; intros i H; [reflexivity|].
  cbn [check_heads]. unfold check.
  pose proof (H i ltac:(lia)) as Hi.
  destruct (read (drop (Z.to_nat (base + 8 * i)) b) <? 0) eqn:E1; [apply Z.ltb_lt in E1; lia|].
  destruct (read (drop (Z.to_nat (base + 8 * i)) b) >? max) eqn:E2;
    [rewrite Z.gtb_ltb in E2; apply Z.ltb_lt in E2; lia|].
  cbn [orb]. rewrite IH by (intros; apply H; lia).
  cbn [seq map]. rewrite Z.add_0_r. f_equal. f_equal.
  rewrite <- seq_shift, map_map. apply map_ext. intros k. do 4 f_equal. lia.
Qed.

Lemma check_heads_None b base max : forall n i j,
  i <= j < i + Z.of_nat n ->
  ~ (0 <= read (drop (Z.to_nat (base + 8 * j)) b) <= max) ->
  check_heads b base max n i = None.
Proof.
  induction n as [|n IH]; intros i j Hj Hbad; [lia|].
  cbn [check_heads]. unfold check.
  destruct ((read (drop (Z.to_nat (base + 8 * i)) b) <? 0)
            || (read (drop (Z.to_nat (base + 8 * i)) b) >? max)) eqn:E; [reflexivity|].
  apply orb_false_iff in E as [E1 E2]. apply Z.ltb_ge in E1.
  rewrite Z.gtb_ltb in E2. apply Z.ltb_ge in E2.
  destruct (Z.eq_dec i j) as [->|Hne]; [lia|].
  rewrite (IH (i + 1) j) by (auto; lia). reflexivity.
Qed.

Lemma NewAllocator_read fl :
  256 <= Size fl ->
  ReadAt fl 240 16 = (take 240 (drop 16 (data fl)), None)
  /\ length (take 240 (drop 16 (data fl))) = 240%nat.
Proof.
  intros Hs. unfold Size in Hs.
  assert (length (take 240 (drop 16 (data fl))) = 240%nat) as L
    by (rewrite length_take, length_drop; lia).
  split; [|exact L]. unfold ReadAt.
  change (16 <? 0) with false. cbv iota.
  change (Z.to_nat 240) with 240%nat. change (Z.to_nat 16) with 16%nat.
  rewrite L. reflexivity.
Qed.

Lemma index_map_seq (g : nat -> Z) n i :
  0 <= i < Z.of_nat n -> index (map g (seq 0 n)) i = Some (g (Z.to_nat i)).
Proof.
  intros Hi. apply index_lookup. split; [lia|].
  change (map g (seq 0 n)) with (g <$> seq 0 n).
  rewrite list_lookup_fmap, lookup_seq_lt by lia. reflexivity.
Qed.

(** C1 (as amended). [NewAllocator] initializes a store of at most 16
    bytes (the user area) by writing a zeroed 240-byte header at offset 16;
    a store of 17 to 255 bytes makes the header read short and the open
    fail with the read's error; for a store of at least 256 bytes the 240
    bytes at offset 16 are read and decoded, and the open succeeds with
    those heads when every one of the 30 lies in [0, fsize - szPage] and
    fails with the corrupt-file error when one does not. *)
Theorem NewAllocator_cases (fl : File) :
  (Size fl <= oFileSkip ->
   forall fl', WriteAt fl (zeros (szFile - oFileSkip)) oFileSkip = (None, fl') ->
   exists a, NewAllocator fl = (Return (Some a) None, fl')
     /\ f a = fl'
     /\ data fl' = splice (data fl) (Z.to_nat oFileSkip) (zeros (szFile - oFileSkip))
     /\ pages a = replicate (Z.to_nat ranks) 0
     /\ slots a = replicate (Z.to_nat slotRanks) 0)
  /\ (oFileSkip < Size fl < szFile ->
      NewAllocator fl = (Return None (Some EOF), fl))
  /\ (szFile <= Size fl < 2 ^ 63 ->
      (forall i, 0 <= i < ranks + slotRanks ->
                 0 <= head_at fl i <= Size fl - szPage) ->
      exists a, NewAllocator fl = (Return (Some a) None, fl)
        /\ (forall i, 0 <= i < ranks -> index (pages a) i = Some (head_at fl i))
        /\ (forall i, 0 <= i < slotRanks ->
                      index (slots a) i = Some (head_at fl (ranks + i))))
  /\ (szFile <= Size fl < 2 ^ 63 ->
      (exists i, 0 <= i < ranks + slotRanks
                 /\ ~ (0 <= head_at fl i <= Size fl - szPage)) ->
      NewAllocator fl = (Return None (Some CorruptedFile), fl)).
Proof.
  change oFileSkip with 16. change szFile with 256. change szPage with 48.
  change ranks with 23. change slotRanks with 7.
  assert (forall j, head_at fl j = read (drop (Z.to_nat (8 * j)) (take 240 (drop 16 (data fl)))))
    as Hhead by reflexivity.
  split; [|split; [|split]].
  - intros Hs fl' Hw. unfold NewAllocator. cbn [fsize buf].
    change oFileSkip with 16. change (zeros (szFile - 16)) with (zeros (256 - 16)).
    destruct (Size fl <=? 16) eqn:E; [|apply Z.leb_gt in E; lia].
    rewrite Hw. eexists. split; [reflexivity|].
    apply WriteAt_ok in Hw as [_ Hw]. cbn [f set_f pages slots]. auto.
  - intros Hs. unfold NewAllocator. cbn [fsize buf]. change oFileSkip with 16.
    destruct (Size fl <=? 16) eqn:E; [apply Z.leb_le in E; lia|].
    change (Z.of_nat (length (zeros (szFile - 16)))) with 240.
    change (length (zeros (szFile - 16))) with 240%nat.
    unfold ReadAt. change (16 <? 0) with false. cbv iota. cbv zeta.
    change (Z.to_nat 240) with 240%nat. change (Z.to_nat 16) with 16%nat.
    assert (length (take 240 (drop 16 (data fl))) < 240)%nat as L
      by (unfold Size in Hs; rewrite length_take, length_drop; lia).
    destruct (Z.of_nat (length (take 240 (drop 16 (data fl)))) <? 240) eqn:E1;
      [|apply Z.ltb_ge in E1; lia].
    destruct (length (take 240 (drop 16 (data fl))) =? 240)%nat eqn:E2;
      [apply Nat.eqb_eq in E2; lia|].
    reflexivity.
  - intros Hs Hall. unfold NewAllocator. cbn [fsize buf]. change oFileSkip with 16.
    destruct (Size fl <=? 16) eqn:E; [apply Z.leb_le in E; lia|].
    change (Z.of_nat (length (zeros (szFile - 16)))) with 240.
    change (length (zeros (szFile - 16))) with 240%nat.
    destruct (NewAllocator_read fl ltac:(lia)) as [-> L].
    rewrite L. rewrite Nat.eqb_refl. cbn [negb]. cbv zeta.
    change szPage with 48. rewrite (i64_id (Size fl - 48)) by (unfold is64; lia).
    change (oFilePages - 16) with 0. change (oFileSlots - 16) with 184.
    change (Z.to_nat ranks) with 23%nat. change (Z.to_nat slotRanks) with 7%nat.
    rewrite check_heads_Some.
    2:{ intros j Hj. rewrite Z.add_0_l, <- Hhead. apply Hall. lia. }
    rewrite check_heads_Some.
    2:{ intros j Hj. replace (184 + 8 * j) with (8 * (23 + j)) by lia.
        rewrite <- Hhead. apply Hall. lia. }
    eexists. split; [reflexivity|]. cbn [pages slots set_slots set_pages set_buf]. split.
    + intros i Hi. rewrite index_map_seq by lia. f_equal. rewrite Hhead.
      do 3 f_equal. lia.
    + intros i Hi. rewrite index_map_seq by lia. f_equal. rewrite Hhead.
      do 3 f_equal. lia.
  - intros Hs (i & Hi & Hbad). unfold NewAllocator. cbn [fsize buf]. change oFileSkip with 16.
    destruct (Size fl <=? 16) eqn:E; [apply Z.leb_le in E; lia|].
    change (Z.of_nat (length (zeros (szFile - 16)))) with 240.
    change (length (zeros (szFile - 16))) with 240%nat.
    destruct (NewAllocator_read fl ltac:(lia)) as [-> L].
    rewrite L. rewrite Nat.eqb_refl. cbn [negb]. cbv zeta.
    change szPage with 48. rewrite (i64_id (Size fl - 48)) by (unfold is64; lia).
    change (oFilePages - 16) with 0. change (oFileSlots - 16) with 184.
    change (Z.to_nat ranks) with 23%nat. change (Z.to_nat slotRanks) with 7%nat.
    rewrite Hhead in Hbad.
    destruct (Z.lt_ge_cases i 23) as [Hlt|Hge].
    + rewrite (check_heads_None _ 0 _ 23 0 i); [reflexivity|lia|].
      rewrite Z.add_0_l. exact Hbad.
    + destruct (check_heads _ 0 _ 23 0); [|reflexivity].
      rewrite (check_heads_None _ 184 _ 7 0 (i - 23)); [reflexivity|lia|].
      replace (184 + 8 * (i - 23)) with (8 * i) by lia. exact Hbad.
Qed.

Lemma blank_heads :
  forall i, 0 <= i < ranks + slotRanks ->
            0 <= head_at (blank 300) i <= Size (blank 300) - szPage.
Proof.
  assert (forallb (fun i => (0 <=? head_at (blank 300) i)
                            && (head_at (blank 300) i <=? Size (blank 300) - szPage))
                  (map Z.of_nat (seq 0 30)) = true) as H by (vm_compute; reflexivity).
  rewrite forallb_forall in H. intros i Hi. change (ranks + slotRanks) with 30 in Hi.
  specialize (H i). rewrite andb_true_iff, !Z.leb_le in H. apply H.
  apply in_map_iff. exists (Z.to_nat i). split; [lia|]. apply in_seq. lia.
Qed.

Lemma NewAllocator_cases_witness :
  (exists a, NewAllocator empty
             = (Return (Some a) None,
                snd (WriteAt empty (zeros (szFile - oFileSkip)) oFileSkip))
     /\ pages a = replicate (Z.to_nat ranks) 0)
  /\ NewAllocator (blank 100) = (Return None (Some EOF), blank 100)
  /\ (exists a, NewAllocator (blank 300) = (Return (Some a) None, blank 300)
        /\ index (pages a) 7 = Some (head_at (blank 300) 7))
  /\ NewAllocator garbled = (Return None (Some CorruptedFile), garbled).
Proof.
  split; [|split; [|split]].
  - destruct (NewAllocator_cases empty) as (H & _).
    destruct (H ltac:(vm_compute; discriminate)
                (snd (WriteAt empty (zeros (szFile - oFileSkip)) oFileSkip))
                eq_refl) as (a & Ha & _ & _ & Hp & _).
    exists a. split; [exact Ha|exact Hp].
  - destruct (NewAllocator_cases (blank 100)) as (_ & H & _).
    apply H. vm_compute. split; reflexivity.
  - destruct (NewAllocator_cases (blank 300)) as (_ & _ & H & _).
    destruct (H ltac:(vm_compute; split; [discriminate|reflexivity]) blank_heads)
      as (a & Ha & Hp & _).
    exists a. split; [exact Ha|]. apply Hp. vm_compute. split; [discriminate|reflexivity].
  - destruct (NewAllocator_cases garbled) as (_ & _ & _ & H).
    apply H.
    + vm_compute. split; [discriminate|reflexivity].
    + exists 0. split; [vm_compute; split; [discriminate|reflexivity]|].
      intros [Hc _]. vm_compute in Hc. apply Hc. reflexivity.
Defined.

(** C1, as stated, fails: a store of 100 bytes (at most 256) is not
    initialized; the open fails on the short header read and the store is
    left as it was. *)
Lemma NewAllocator_short_store :
  Size (blank 100) <= szFile
  /\ NewAllocator (blank 100) = (Return None (Some EOF), blank 100).
Proof. split; [vm_compute; discriminate|vm_compute; reflexivity]. Qed.

(** * C2 *)

(** C2 (the code's behaviour). After a flush of a dirty object (the
    allocator header, a page, a slot node) the dirty flag is [true] exactly
    when the positional write succeeded and [false] when it failed: the
    assignment [dirty = err == nil] has the sense of the flag inverted. *)
Theorem flush_dirty_flag :
  (forall a, match flush (set_dirty a true) with
             | (Return _ e, a') => dirty a' = isnil e
             | _ => False
             end)
  /\ (forall m a, match memPage_flush (with_dirty m true) a with
                  | (Return m' e, _) => p_dirty m' = isnil e
                  | _ => False
                  end)
  /\ (forall m a, match memNode_flush (memNode_setNext m (n_next m)) a with
                  | (Return m' e, _) => n_dirty m' = isnil e
                  | _ => False
                  end)
  /\ dirty (after flush (set_dirty fresh true)) = true
  /\ dirty (after flush (set_dirty (set_f fresh (mkFile (data (f fresh)) [true])) true))
     = false.
Proof.
  split; [|split; [|split; [|split]]].
  - intros a. unfold flush. cbn [dirty set_dirty negb].
    match goal with |- context [WriteAt ?x ?b ?o] => destruct (WriteAt x b o) as [e fl'] end.
    reflexivity.
  - intros m a. unfold memPage_flush. cbn [p_dirty with_dirty negb].
    match goal with |- context [WriteAt ?x ?b ?o] => destruct (WriteAt x b o) as [e fl'] end.
    reflexivity.
  - intros m a. unfold memNode_flush. cbn [n_dirty memNode_setNext negb].
    match goal with |- context [WriteAt ?x ?b ?o] => destruct (WriteAt x b o) as [e fl'] end.
    reflexivity.
  - vm_compute. reflexivity.
  - vm_compute. reflexivity.
Qed.

(** * C4 *)

Lemma Alloc_nonpositive a size :
  size <= 0 -> Alloc size a = (Return (-1) (Some InvalidArgument), a).
Proof.
  intros H. unfold Alloc. destruct (size <=? 0) eqn:E; [reflexivity|].
  apply Z.leb_gt in E. lia.
Qed.

Lemma Calloc_nonpositive a size :
  size <= 0 -> Calloc size a = (Return (-1) (Some InvalidArgument), a).
Proof.
  intros H. unfold Calloc, bind. rewrite Alloc_nonpositive by exact H. reflexivity.
Qed.

Lemma Realloc_negative fuel off size a n p :
  size < 0 -> usableSize off a = (Return (n, p) None, a) -> size <= n ->
  Realloc fuel off size a = (Panic, a).
Proof.
  intros Hs Hu Hn. pose proof Hu as Hu'.
  apply usableSize_ok in Hu' as (_ & Ho & _).
  unfold Realloc. change (szFile + szPage) with 304.
  destruct (off <? 304) eqn:E; [apply Z.ltb_lt in E; lia|].
  destruct (size =? 0) eqn:E0; [apply Z.eqb_eq in E0; lia|].
  unfold bind at 1. rewrite Hu. cbv zeta. cbn [fst snd].
  destruct (n >=? size) eqn:E1; [|rewrite Z.geb_leb in E1; apply Z.leb_gt in E1; lia].
  unfold rank. change maxSlot with 1024.
  destruct (size <=? 1024) eqn:E2; [|apply Z.leb_gt in E2; lia].
  unfold slotRank. destruct (size <? 1) eqn:E3; [|apply Z.ltb_ge in E3; lia].
  reflexivity.
Qed.

(** C4 (the code's behaviour). [Alloc] and [Calloc] reject every size
    that is zero or negative with the invalid-argument error and leave the
    state as it is; [Realloc] of the live block at 304 to any negative size
    returns no error at all: it panics in [slotRank]. *)
Theorem nonpositive_size :
  (forall a (n : N),
     Alloc (- Z.of_N n) a = (Return (-1) (Some InvalidArgument), a)
     /\ Calloc (- Z.of_N n) a = (Return (-1) (Some InvalidArgument), a))
  /\ (forall fuel (k : positive), Realloc fuel 304 (Z.neg k) small = (Panic, small)).
Proof.
  split.
  - intros a n. split; [apply Alloc_nonpositive|apply Calloc_nonpositive]; lia.
  - intros fuel k.
    destruct (usableSize 304 small) as [[[n p] e| |] a1] eqn:Hu;
      try (vm_compute in Hu; discriminate).
    assert (n = 16 /\ e = None /\ a1 = small) as (-> & -> & ->).
    { vm_compute in Hu. inversion Hu. repeat split; vm_compute; reflexivity. }
    eapply Realloc_negative; [lia|exact Hu|lia].
Qed.

(** * C5 *)

(** C5. On an empty store [Alloc 10] returns 304 and leaves [fsize] at
    4352; the usable size of the block at 304 is 16; [Free 304] then
    truncates the store, and [fsize], back to 256. *)
Theorem scenario_single_small_alloc :
  NewAllocator empty = (Return (Some fresh) None, f fresh)
  /\ Alloc 10 fresh = (Return 304 None, small)
  /\ fsize small = 4352 /\ Size (f small) = 4352
  /\ UsableSize 304 small = (Return 16 None, small)
  /\ fst (Free 304 small) = Return tt None
  /\ fsize (after (Free 304) small) = 256
  /\ Size (f (after (Free 304) small)) = 256.
Proof.
  split; [vm_compute; reflexivity|]. split; [vm_compute; reflexivity|].
  split; [vm_compute; reflexivity|]. split; [vm_compute; reflexivity|].
  split; [vm_compute; reflexivity|]. split; [vm_compute; reflexivity|].
  split; vm_compute; reflexivity.
Qed.

(** * C6 *)

(** C6. On an empty store [Alloc 10000] creates at 256 an exclusive page
    of rank 9 and 12288 bytes and returns 304; [Realloc 304 5000] splits it
    in place: it returns 304, the page at 256 now has 8192 bytes, rank 8 and
    tail word 0, and at 8448 lies a page of 4096 bytes and rank 7, the head
    of [pages[7]], whose tail word is 4096. *)
Theorem scenario_large_alloc_realloc_shrink :
  Alloc 10000 fresh = (Return 304 None, big)
  /\ (exists p, page_at (f big) 256 = Some p /\ p_rank p = 9 /\ p_size p = 12288)
  /\ (forall fuel, Realloc fuel 304 5000 big = (Return 304 None, shrunk))
  /\ (exists p, page_at (f shrunk) 256 = Some p /\ p_rank p = 8 /\ p_size p = 8192)
  /\ Allocator_read 8440 shrunk = (Return 0 None, shrunk)
  /\ (exists q, page_at (f shrunk) 8448 = Some q /\ p_rank q = 7 /\ p_size q = 4096)
  /\ index (pages shrunk) 7 = Some 8448
  /\ Allocator_read 12536 shrunk = (Return 4096 None, shrunk).
Proof.
  split; [vm_compute; reflexivity|].
  split; [eexists; split; [vm_compute; reflexivity|split; vm_compute; reflexivity]|].
  split.
  { intros fuel. destruct fuel; vm_compute; reflexivity. }
  split; [eexists; split; [vm_compute; reflexivity|split; vm_compute; reflexivity]|].
  split; [vm_compute; reflexivity|].
  split; [eexists; split; [vm_compute; reflexivity|split; vm_compute; reflexivity]|].
  split; vm_compute; reflexivity.
Qed.

(** * C7 *)








(** * C9 *)

(** C9. For every offset that passes the argument check, [Realloc off 0]
    is [Free off] with the offset -1 put in front of its error result: the
    same state, the same error (none when the free succeeds), and -1. *)
Theorem Realloc_zero_is_Free fuel off a :
  szFile + szPage <= off ->
  Realloc fuel off 0 a
  = match Free off a with
    | (Return _ e, a') => (Return (-1) e, a')
    | (Panic, a') => (Panic, a')
    | (OutOfFuel, a') => (OutOfFuel, a')
    end.
Proof.
  intros Ho. unfold Realloc.
  destruct (off <? szFile + szPage) eqn:E; [apply Z.ltb_lt in E; lia|].
  reflexivity.
Qed.

Lemma Realloc_zero_is_Free_witness :
  Realloc 0 304 0 small = (Return (-1) None, after (Free 304) small)
  /\ fsize (after (Free 304) small) = 256.
Proof.
  split; [|vm_compute; reflexivity].
  rewrite (Realloc_zero_is_Free 0 304 small); [|vm_compute; discriminate].
  vm_compute. reflexivity.
Defined.

(** * C3 *)

(** Every dispatch path of [Alloc] is taken from a state that satisfies
    the invariants: the bump allocation in the shared page that heads the
    list of the rank, the reuse of a free rank-7 page, the slot taken from
    the slot list, the fresh shared page, and for the big sizes the free
    page of a list below the last rank, the page split off a page of the
    last rank, and the fresh exclusive page. *)
Example dispatch_paths :
  (inv small = true /\ Alloc 10 small = sbrk 256 0 (counted small)
   /\ fst (Alloc 10 small) = Return 320 None)
  /\ (inv shrunk = true /\ Alloc 10 shrunk = sbrk2 8448 0 (counted shrunk)
      /\ fst (Alloc 10 shrunk) = Return 8496 None)
  /\ (inv slot_freed = true
      /\ Alloc 1024 slot_freed = allocSlot 304 6 (counted slot_freed)
      /\ fst (Alloc 1024 slot_freed) = Return 304 None)
  /\ (inv fresh = true /\ pages fresh = replicate 23 0 /\ slots fresh = replicate 7 0
      /\ fst (Alloc 10 fresh) = Return 304 None)
  /\ (inv (hole 10000) = true
      /\ Alloc 3000 (hole 10000) = allocBig2 256 (counted (hole 10000))
      /\ fst (Alloc 3000 (hole 10000)) = Return 304 None)
  /\ (inv (hole 100000) = true
      /\ pages (hole 100000) !! 22%nat = Some 256
      /\ match page_at (f (hole 100000)) 256 with
         | Some p => p_rank p = 22 /\ 73728 <= p_size p
                     /\ fst (allocMaxRank p 73728 (counted (hole 100000)))
                        = Return 304 None
         | None => False
         end
      /\ fst (Alloc 70000 (hole 100000)) = Return 304 None)
  /\ (inv fresh = true /\ fst (Alloc 10000 fresh) = Return 304 None).
Proof.
  split; [split; [|split]; vm_compute; reflexivity|].
  split; [split; [|split]; vm_compute; reflexivity|].
  split; [split; [|split]; vm_compute; reflexivity|].
  split; [split; [|split; [|split]]; vm_compute; reflexivity|].
  split; [split; [|split]; vm_compute; reflexivity|].
  split; [|split; vm_compute; reflexivity].
  split; [vm_compute; reflexivity|].
  split; [vm_compute; reflexivity|].
  split; [|vm_compute; reflexivity].
  vm_compute. split; [reflexivity|]. split; [discriminate|reflexivity].
Qed.

(** C3. In every allocator state that satisfies the data-model invariants
    and for every size > 0, the offset that a successful [Alloc] or [Calloc]
    returns has a usable size of at least that size. *)
Theorem Alloc_usable_size a size o a' :
  inv a = true -> 0 < size < 2 ^ 63 ->
  Alloc size a = (Return o None, a') \/ Calloc size a = (Return o None, a') ->
  exists n, UsableSize o a' = (Return n None, a') /\ size <= n.
Proof.
  intros Hi Hs H. apply inv_Inv in Hi.
  apply Served_usable; [lia|].
  destruct H as [H|H].
  - eapply Alloc_served; eauto; lia.
  - eapply Calloc_served; eauto.
Qed.

Lemma Alloc_usable_size_witness :
  exists n, UsableSize 304 (after (Alloc 30) reuse)
            = (Return n None, after (Alloc 30) reuse) /\ 30 <= n.
Proof.
  apply (Alloc_usable_size reuse 30 304 (after (Alloc 30) reuse)).
  - vm_compute. reflexivity.
  - lia.
  - left. vm_compute. reflexivity.
Defined.

(** * C8 *)

(** C8. For a block at [off] whose page has the shape of the data model,
    [Realloc] to the usable size that [usableSize off] reports returns [off]
    itself and leaves the allocator and the store as they are. *)
Theorem Realloc_usable_size fuel off a n p a' :
  usableSize off a = (Return (n, p) None, a') -> shape_ok p = true ->
  Realloc fuel off n a = (Return off None, a).
Proof. apply Realloc_same. Qed.

Lemma Realloc_usable_size_witness :
  Realloc 0 304 12232 big = (Return 304 None, big)
  /\ UsableSize 304 big = (Return 12232 None, big).
Proof.
  split; [|vm_compute; reflexivity].
  destruct (usableSize 304 big) as [[[n p] e| |] a1] eqn:Hu;
    try (vm_compute in Hu; discriminate).
  assert (n = 12232 /\ e = None /\ shape_ok p = true) as (-> & -> & Hs).
  { vm_compute in Hu. inversion Hu. repeat split; vm_compute; reflexivity. }
  exact (Realloc_usable_size 0 304 big 12232 p a1 Hu Hs).
Defined.

(** * C10 *)



(** * The byte codec *)

Lemma Z_of_byte_inj x y : Z_of_byte x = Z_of_byte y -> x = y.
Proof.
  unfold Z_of_byte. intros H. apply N2Z.inj in H.
  apply (f_equal Byte.of_N) in H. rewrite !Byte.of_to_N in H. congruence.
Qed.

Lemma map_Z_of_byte_inj l : forall k, map Z_of_byte l = map Z_of_byte k -> l = k.
Proof.
  induction l as [|x l IH]; intros [|y k] H; try discriminate; [reflexivity|].
  cbn [map] in H. injection H as Hx Hl. apply Z_of_byte_inj in Hx. apply IH in Hl.
  congruence.
Qed.

Lemma byte_at hi v lo k :
  0 <= k -> 0 <= lo < 2 ^ k -> 0 <= v < 256 ->
  (((hi * 256 + v) * 2 ^ k + lo) / 2 ^ k) mod 256 = v.
Proof.
  intros Hk Hlo Hv. assert (0 < 2 ^ k) by (apply Z.pow_pos_nonneg; lia).
  rewrite Z.div_add_l by lia. rewrite Z.div_small by lia. rewrite Z.add_0_r.
  rewrite Z.add_comm, Z.mod_add by lia. apply Z.mod_small; lia.
Qed.

Lemma i64_add_low x v : x mod 256 = 0 -> 0 <= v < 256 -> i64 x + v = i64 (x + v).
Proof. intros Hx Hv. unfold i64. Z.div_mod_to_equations. lia. Qed.

Lemma i64_mod64 u : 0 <= u < 2 ^ 64 -> i64 u mod 2 ^ 64 = u.
Proof. intros Hu. unfold i64. Z.div_mod_to_equations. lia. Qed.
Lemma write_read_bytes b : length b = 8%nat -> write_bytes 8 (read b) = b.
Proof.
  intros L.
  destruct b as [|b0 [|b1 [|b2 [|b3 [|b4 [|b5 [|b6 [|b7 [|]]]]]]]]]; try discriminate.
  apply map_Z_of_byte_inj.
  pose proof (Z_of_byte_range b0) as R0.
  pose proof (Z_of_byte_range b1) as R1.
  pose proof (Z_of_byte_range b2) as R2.
  pose proof (Z_of_byte_range b3) as R3.
  pose proof (Z_of_byte_range b4) as R4.
  pose proof (Z_of_byte_range b5) as R5.
  pose proof (Z_of_byte_range b6) as R6.
  pose proof (Z_of_byte_range b7) as R7.
  set (v0 := Z_of_byte b0) in *.
  set (v1 := Z_of_byte b1) in *.
  set (v2 := Z_of_byte b2) in *.
  set (v3 := Z_of_byte b3) in *.
  set (v4 := Z_of_byte b4) in *.
  set (v5 := Z_of_byte b5) in *.
  set (v6 := Z_of_byte b6) in *.
  set (v7 := Z_of_byte b7) in *.
  assert (read [b0; b1; b2; b3; b4; b5; b6; b7]
          = i64 (v0 * 2 ^ 56 + v1 * 2 ^ 48 + v2 * 2 ^ 40 + v3 * 2 ^ 32 + v4 * 2 ^ 24 + v5 * 2 ^ 16 + v6 * 2 ^ 8 + v7)) as ->.
  { unfold read. rewrite fold_read_map. cbn [take map fold_left].
    change (Z_of_byte b0) with v0.
    change (Z_of_byte b1) with v1.
    change (Z_of_byte b2) with v2.
    change (Z_of_byte b3) with v3.
    change (Z_of_byte b4) with v4.
    change (Z_of_byte b5) with v5.
    change (Z_of_byte b6) with v6.
    change (Z_of_byte b7) with v7.
    change (i64 (0 * 256)) with 0. rewrite Z.add_0_l.
    rewrite (i64_id (v0 * 256)) by (unfold is64; lia).
    rewrite (i64_id ((v0 * 256 + v1) * 256)) by (unfold is64; lia).
    rewrite (i64_id (((v0 * 256 + v1) * 256 + v2) * 256)) by (unfold is64; lia).
    rewrite (i64_id ((((v0 * 256 + v1) * 256 + v2) * 256 + v3) * 256)) by (unfold is64; lia).
    rewrite (i64_id (((((v0 * 256 + v1) * 256 + v2) * 256 + v3) * 256 + v4) * 256)) by (unfold is64; lia).
    rewrite (i64_id ((((((v0 * 256 + v1) * 256 + v2) * 256 + v3) * 256 + v4) * 256 + v5) * 256)) by (unfold is64; lia).
    rewrite i64_add_low by (first [lia | apply Z.mod_mul; lia]).
    f_equal. lia. }
  set (U := v0 * 2 ^ 56 + v1 * 2 ^ 48 + v2 * 2 ^ 40 + v3 * 2 ^ 32 + v4 * 2 ^ 24 + v5 * 2 ^ 16 + v6 * 2 ^ 8 + v7).
  assert (0 <= U < 2 ^ 64) as HU by (unfold U; lia).
  rewrite write_bytes_i64, <- (write_bytes_i64 8 U), write_bytes_8 by apply i64_is64.
  rewrite i64_mod64 by exact HU. cbn [map].
  change (56 - 0) with 56; change (56 - 8) with 48; change (56 - 16) with 40;
  change (56 - 24) with 32; change (56 - 32) with 24; change (56 - 40) with 16;
  change (56 - 48) with 8; change (56 - 56) with 0.
  assert ((U / 2 ^ 56) mod 256 = v0) as ->.
  { replace U with (((0) * 256 + v0) * 2 ^ 56 + (v1 * 2 ^ 48 + v2 * 2 ^ 40 + v3 * 2 ^ 32 + v4 * 2 ^ 24 + v5 * 2 ^ 16 + v6 * 2 ^ 8 + v7)) by (unfold U; lia).
    apply byte_at; lia. }
  assert ((U / 2 ^ 48) mod 256 = v1) as ->.
  { replace U with (((v0) * 256 + v1) * 2 ^ 48 + (v2 * 2 ^ 40 + v3 * 2 ^ 32 + v4 * 2 ^ 24 + v5 * 2 ^ 16 + v6 * 2 ^ 8 + v7)) by (unfold U; lia).
    apply byte_at; lia. }
  assert ((U / 2 ^ 40) mod 256 = v2) as ->.
  { replace U with (((v0 * 2 ^ 8 + v1) * 256 + v2) * 2 ^ 40 + (v3 * 2 ^ 32 + v4 * 2 ^ 24 + v5 * 2 ^ 16 + v6 * 2 ^ 8 + v7)) by (unfold U; lia).
    apply byte_at; lia. }
  assert ((U / 2 ^ 32) mod 256 = v3) as ->.
  { replace U with (((v0 * 2 ^ 16 + v1 * 2 ^ 8 + v2) * 256 + v3) * 2 ^ 32 + (v4 * 2 ^ 24 + v5 * 2 ^ 16 + v6 * 2 ^ 8 + v7)) by (unfold U; lia).
    apply byte_at; lia. }
  assert ((U / 2 ^ 24) mod 256 = v4) as ->.
  { replace U with (((v0 * 2 ^ 24 + v1 * 2 ^ 16 + v2 * 2 ^ 8 + v3) * 256 + v4) * 2 ^ 24 + (v5 * 2 ^ 16 + v6 * 2 ^ 8 + v7)) by (unfold U; lia).
    apply byte_at; lia. }
  assert ((U / 2 ^ 16) mod 256 = v5) as ->.
  { replace U with (((v0 * 2 ^ 32 + v1 * 2 ^ 24 + v2 * 2 ^ 16 + v3 * 2 ^ 8 + v4) * 256 + v5) * 2 ^ 16 + (v6 * 2 ^ 8 + v7)) by (unfold U; lia).
    apply byte_at; lia. }
  assert ((U / 2 ^ 8) mod 256 = v6) as ->.
  { replace U with (((v0 * 2 ^ 40 + v1 * 2 ^ 32 + v2 * 2 ^ 24 + v3 * 2 ^ 16 + v4 * 2 ^ 8 + v5) * 256 + v6) * 2 ^ 8 + (v7)) by (unfold U; lia).
    apply byte_at; lia. }
  assert ((U / 2 ^ 0) mod 256 = v7) as ->.
  { replace U with (((v0 * 2 ^ 48 + v1 * 2 ^ 40 + v2 * 2 ^ 32 + v3 * 2 ^ 24 + v4 * 2 ^ 16 + v5 * 2 ^ 8 + v6) * 256 + v7) * 2 ^ 0 + (0)) by (unfold U; lia).
    apply byte_at; lia. }
  reflexivity.
Qed.

Lemma read_take8 b : read (take 8 b) = read b.
Proof. unfold read. rewrite take_take. reflexivity. Qed.

(** [write] followed by [read]: the 8 bytes that [write] stores decode to
    the number written, and [write] changes the first 8 bytes of the
    buffer only. *)
Theorem write_then_read b n :
  (8 <= length b)%nat -> is64 n ->
  read (write b n) = n
  /\ length (write b n) = length b
  /\ drop 8 (write b n) = drop 8 b.
Proof.
  intros L Hn. unfold write. split; [|split].
  - apply read_write_bytes. exact Hn.
  - rewrite length_app, length_write_bytes, length_drop. lia.
  - apply drop8_write.
Qed.

Lemma write_then_read_witness :
  read (write (zeros 16) (-2)) = -2
  /\ length (write (zeros 16) (-2)) = length (zeros 16)
  /\ drop 8 (write (zeros 16) (-2)) = drop 8 (zeros 16).
Proof.
  apply (write_then_read (zeros 16) (-2)).
  - vm_compute. lia.
  - unfold is64. lia.
Defined.

(** [read] followed by [write]: writing back the number that the first 8
    bytes of a buffer decode to leaves the buffer as it is; so two buffers
    that decode alike agree on their first 8 bytes. *)
Theorem read_then_write b :
  (8 <= length b)%nat ->
  write b (read b) = b
  /\ forall b', (8 <= length b')%nat -> read b' = read b -> take 8 b' = take 8 b.
Proof.
  intros L.
  assert (forall c, (8 <= length c)%nat -> write_bytes 8 (read c) = take 8 c) as H.
  { intros c Lc. rewrite <- read_take8. apply write_read_bytes.
    rewrite length_take. lia. }
  split.
  - unfold write. rewrite H by exact L. apply take_drop.
  - intros b' L' E. rewrite <- (H b' L'), <- (H b L), E. reflexivity.
Qed.

Lemma read_then_write_witness :
  write [Byte.xff; Byte.x01; Byte.x02; Byte.x03; Byte.x04; Byte.x05; Byte.x06;
         Byte.x80; Byte.x2a]
        (read [Byte.xff; Byte.x01; Byte.x02; Byte.x03; Byte.x04; Byte.x05; Byte.x06;
               Byte.x80; Byte.x2a])
  = [Byte.xff; Byte.x01; Byte.x02; Byte.x03; Byte.x04; Byte.x05; Byte.x06;
     Byte.x80; Byte.x2a].
Proof.
  apply (read_then_write [Byte.xff; Byte.x01; Byte.x02; Byte.x03; Byte.x04;
                          Byte.x05; Byte.x06; Byte.x80; Byte.x2a]).
  vm_compute. lia.
Defined.

(** * Size classes *)

Lemma ldiff_pow2 x k : 0 <= k -> Z.ldiff x (2 ^ k - 1) = 2 ^ k * (x / 2 ^ k).
Proof.
  intros Hk. replace (2 ^ k - 1) with (Z.ones k) by (rewrite Z.ones_equiv; lia).
  rewrite Z.ldiff_ones_r by lia.
  rewrite Z.shiftl_mul_pow2, Z.shiftr_div_pow2 by lia. lia.
Qed.

(** [roundup64] and [roundup] with a power of two [m]: the least multiple
    of [m] that is not below [n], as long as it fits into 63 bits. *)
Theorem roundup64_least_multiple k n :
  0 <= k <= 62 -> 0 <= n -> n + 2 ^ k <= 2 ^ 63 ->
  roundup64 n (2 ^ k) mod 2 ^ k = 0
  /\ n <= roundup64 n (2 ^ k) < n + 2 ^ k
  /\ roundup n (2 ^ k) = roundup64 n (2 ^ k).
Proof.
  intros Hk Hn Hb.
  assert (0 < 2 ^ k) as Hm by (apply Z.pow_pos_nonneg; lia).
  assert (2 ^ k <= 2 ^ 62) as Hm' by (apply Z.pow_le_mono_r; lia).
  assert (roundup64 n (2 ^ k) = 2 ^ k * ((n + 2 ^ k - 1) / 2 ^ k)) as E.
  { unfold roundup64.
    replace (i64 (n + 2 ^ k) - 1) with (i64 (n + 2 ^ k) + (-1)) by lia.
    rewrite i64_i64_add, i64_id by (unfold is64; lia).
    rewrite (i64_id (2 ^ k - 1)) by (unfold is64; lia).
    rewrite ldiff_pow2 by lia.
    replace (n + 2 ^ k + -1) with (n + 2 ^ k - 1) by lia. reflexivity. }
  split; [|split; [|reflexivity]].
  - rewrite E, Z.mul_comm. apply Z.mod_mul. lia.
  - rewrite E.
    pose proof (Z.div_mod (n + 2 ^ k - 1) (2 ^ k) ltac:(lia)) as D.
    pose proof (Z.mod_pos_bound (n + 2 ^ k - 1) (2 ^ k) Hm) as B.
    set (q := 2 ^ k * ((n + 2 ^ k - 1) / 2 ^ k)) in *. clearbody q. lia.
Qed.

Lemma roundup64_least_multiple_witness :
  roundup64 1089 (2 ^ 12) mod 2 ^ 12 = 0
  /\ 1089 <= roundup64 1089 (2 ^ 12) < 1089 + 2 ^ 12
  /\ roundup 1089 (2 ^ 12) = roundup64 1089 (2 ^ 12).
Proof. apply (roundup64_least_multiple 12 1089); lia. Defined.

Lemma slotRank_tight_all : forallb slotRank_tight (map Z.of_nat (seq 1 1024)) = true.
Proof. vm_compute. reflexivity. Qed.

(** [slotRank]: a size from 1 to 1024 gets the smallest of the seven slot
    classes 16, 32, ..., 1024 that holds it; any other size panics. *)
Theorem slotRank_classes n :
  (1 <= n <= 1024 ->
   exists r, slotRank n = Some r /\ 0 <= r <= 6 /\ n <= 16 * 2 ^ r
             /\ (r = 0 \/ 16 * 2 ^ (r - 1) < n))
  /\ (n < 1 \/ 1024 < n -> slotRank n = None).
Proof.
  split.
  - intros Hn. pose proof slotRank_tight_all as Hc. rewrite forallb_forall in Hc.
    specialize (Hc n). unfold slotRank_tight in Hc.
    assert (In n (map Z.of_nat (seq 1 1024))) as Hin.
    { apply in_map_iff. exists (Z.to_nat n). split; [lia|]. apply in_seq. lia. }
    specialize (Hc Hin). destruct (slotRank n) as [r|]; [|discriminate].
    exists r. rewrite !andb_true_iff, orb_true_iff, !Z.leb_le, Z.eqb_eq, Z.ltb_lt in Hc.
    split; [reflexivity|]. tauto.
  - intros Hn. unfold slotRank.
    destruct (n <? 1) eqn:E1; [reflexivity|].
    destruct (n >? 1024) eqn:E2; [reflexivity|].
    apply Z.ltb_ge in E1. rewrite Z.gtb_ltb in E2. apply Z.ltb_ge in E2. lia.
Qed.

Lemma slotRank_classes_witness :
  (exists r, slotRank 17 = Some r /\ 0 <= r <= 6 /\ 17 <= 16 * 2 ^ r
             /\ (r = 0 \/ 16 * 2 ^ (r - 1) < 17))
  /\ slotRank 0 = None.
Proof.
  split.
  - apply (proj1 (slotRank_classes 17)). lia.
  - apply (proj2 (slotRank_classes 0)). lia.
Defined.

(** [pageRank]: a size above 1024 that needs [k] pages of 4096 bytes has
    rank [k + 6], capped at the last rank 22, which takes every size of more
    than 15 pages; a size up to 1024 panics. *)
Theorem pageRank_classes n :
  (1024 < n -> n + 4096 <= 2 ^ 63 ->
   exists r, pageRank n = Some r /\ 7 <= r <= 22
             /\ (r < 22 -> (r - 7) * 4096 < n <= (r - 6) * 4096)
             /\ (r = 22 -> 15 * 4096 < n))
  /\ (n <= 1024 -> pageRank n = None).
Proof.
  split.
  - intros Hn Hb. unfold pageRank. change maxSlot with 1024.
    destruct (n <=? 1024) eqn:E; [apply Z.leb_le in E; lia|].
    rewrite roundup64_spec by lia. change pageLog with 12.
    rewrite Z.shiftr_div_pow2 by lia. change (2 ^ 12) with 4096.
    rewrite Z.mul_comm, Z.div_mul by lia.
    assert (1 <= (n + 4095) / 4096 < 2 ^ 51) as Hq.
    { split; [apply Z.div_le_lower_bound; lia|apply Z.div_lt_upper_bound; lia]. }
    rewrite i64_id by (unfold is64; lia). change ranks with 23.
    pose proof (Z.div_mod (n + 4095) 4096 ltac:(lia)) as D.
    pose proof (Z.mod_pos_bound (n + 4095) 4096 ltac:(lia)) as B.
    set (q := (n + 4095) / 4096) in *. clearbody q.
    destruct (q + 6 >=? 23) eqn:E1.
    + rewrite Z.geb_leb in E1. apply Z.leb_le in E1.
      exists 22. split; [reflexivity|]. lia.
    + rewrite Z.geb_leb in E1. apply Z.leb_gt in E1.
      exists (q + 6). split; [reflexivity|]. lia.
  - intros Hn. unfold pageRank. change maxSlot with 1024.
    destruct (n <=? 1024) eqn:E; [reflexivity|apply Z.leb_gt in E; lia].
Qed.

Lemma pageRank_classes_witness :
  (exists r, pageRank 10056 = Some r /\ 7 <= r <= 22
             /\ (r < 22 -> (r - 7) * 4096 < 10056 <= (r - 6) * 4096)
             /\ (r = 22 -> 15 * 4096 < 10056))
  /\ pageRank 1024 = None.
Proof.
  split.
  - apply (proj1 (pageRank_classes 10056)); lia.
  - apply (proj2 (pageRank_classes 1024)). lia.
Defined.

(** * Headers on the store *)

Lemma page_written fl fl' m :
  WriteAt fl (page_bytes m) (p_off m) = (None, fl') -> int64_page m ->
  page_at fl' (p_off m) = Some (with_dirty m false).
Proof.
  intros Hw (H1 & H2 & H3 & H4 & H5 & H6).
  apply WriteAt_ok in Hw as [Ho Hdat].
  apply page_at_region. split; [assumption|]. split.
  - unfold Size. rewrite Hdat, length_splice, length_page_bytes. lia.
  - rewrite Hdat.
    pose proof (region_splice_same (data fl) (Z.to_nat (p_off m)) (page_bytes m)) as Hr.
    rewrite length_page_bytes in Hr. rewrite Hr, dec_page_bytes.
    rewrite !i64_id by assumption. destruct m; reflexivity.
Qed.

Lemma node_at_spec fl off n :
  node_at fl off = Some n <->
  0 <= off /\ off + 16 <= Size fl
  /\ n = ndec off (region (data fl) (Z.to_nat off) 16).
Proof.
  unfold node_at, openNode. cbn [f probe].
  destruct (ReadAt fl szNode off) as [b e] eqn:ER.
  destruct (negb (Z.of_nat (length b) =? szNode)) eqn:EL.
  - split.
    + destruct e; [discriminate|]. intros _.
      apply ReadAt_short in ER; [|unfold szNode; lia].
      apply negb_true_iff, Z.eqb_neq in EL. contradiction.
    + intros (Ho & Hs & _).
      rewrite (ReadAt_ok fl szNode off) in ER by (unfold szNode; lia).
      inversion ER; subst b. rewrite length_region in EL.
      * discriminate.
      * unfold Size, szNode in *. lia.
  - apply negb_false_iff, Z.eqb_eq in EL.
    apply ReadAt_full in ER; [|assumption|unfold szNode; lia].
    destruct ER as (Ho & Hs & ->). unfold szNode in *.
    split.
    + intros H. inversion H. auto.
    + intros (_ & _ & ->). reflexivity.
Qed.

Lemma node_bytes_eq pv nx :
  put (put (zeros szNode) oNodeNext nx) oNodePrev pv
  = write_bytes 8 pv ++ write_bytes 8 nx ++ [].
Proof. reflexivity. Qed.

Lemma node_written fl fl' pv nx off :
  WriteAt fl (put (put (zeros szNode) oNodeNext nx) oNodePrev pv) off = (None, fl') ->
  is64 pv -> is64 nx ->
  node_at fl' off = Some (mkNode false pv nx off).
Proof.
  rewrite node_bytes_eq. intros Hw Hp Hn.
  set (b := write_bytes 8 pv ++ write_bytes 8 nx ++ []) in *.
  assert (length b = 16%nat) as Lb
    by (unfold b; rewrite !length_app, !length_write_bytes; reflexivity).
  apply WriteAt_ok in Hw as [Ho Hdat].
  apply node_at_spec. split; [assumption|]. split.
  - unfold Size. rewrite Hdat, length_splice, Lb. lia.
  - rewrite Hdat.
    pose proof (region_splice_same (data fl) (Z.to_nat off) b) as Hr.
    rewrite Lb in Hr. rewrite Hr. unfold ndec, b.
    rewrite drop8_write, drop_0, !read_write_bytes by assumption. reflexivity.
Qed.

Lemma node_at_write_other fl fl' x o off n :
  WriteAt fl x o = (None, fl') ->
  node_at fl off = Some n ->
  o + Z.of_nat (length x) <= off \/ off + 16 <= o ->
  node_at fl' off = Some n.
Proof.
  intros H Hp Hdis. apply WriteAt_ok in H as [Ho Hd].
  apply node_at_spec in Hp as (Hoff & Hs & ->).
  apply node_at_spec. split; [assumption|]. unfold Size in *. split.
  - rewrite Hd, length_splice. lia.
  - f_equal. rewrite Hd. symmetry. apply region_splice_other; lia.
Qed.

(** A page header survives the store: after a successful [flush] of a
    dirty page, [openPage] at its offset returns the six fields that were
    flushed, and the flush changed nothing but the store. *)
Theorem page_flush_then_open m a m' a' :
  int64_page m -> p_dirty m = true ->
  memPage_flush m a = (Return m' None, a') ->
  openPage (p_off m) a' = (Return (with_dirty m false) None, a')
  /\ a' = set_f a (f a').
Proof.
  intros Hi Hd H.
  apply memPage_flush_ok in H as [(Hd' & _)|(_ & _ & fl' & Hw & ->)]; [congruence|].
  split; [|reflexivity].
  apply openPage_ok. split; [|reflexivity]. cbn [f set_f].
  eapply page_written; eassumption.
Qed.

Lemma page_flush_then_open_witness :
  openPage 256 (after (memPage_flush (mkPage true 256 3 0 4352 0 4096 2)) fresh)
  = (Return (mkPage false 256 3 0 4352 0 4096 2) None,
     after (memPage_flush (mkPage true 256 3 0 4352 0 4096 2)) fresh).
Proof.
  apply (page_flush_then_open (mkPage true 256 3 0 4352 0 4096 2) fresh
           (mkPage true 256 3 0 4352 0 4096 2)
           (after (memPage_flush (mkPage true 256 3 0 4352 0 4096 2)) fresh)).
  - unfold int64_page, is64. cbn. lia.
  - reflexivity.
  - vm_compute. reflexivity.
Defined.

(** A slot node survives the store: after a successful [flush] of a dirty
    node, [openNode] at its offset returns the two links that were
    flushed. *)
Theorem node_flush_then_open m a m' a' :
  is64 (n_prev m) -> is64 (n_next m) -> n_dirty m = true ->
  memNode_flush m a = (Return m' None, a') ->
  openNode (n_off m) a'
  = (Return (mkNode false (n_prev m) (n_next m) (n_off m)) None, a').
Proof.
  intros Hp Hn Hd H. unfold memNode_flush in H. rewrite Hd in H. cbn [negb] in H.
  cbv zeta in H.
  destruct (WriteAt (f a) _ (n_off m)) as [[e|] fl'] eqn:Hw;
    [apply (f_equal fst) in H; discriminate|].
  apply (f_equal snd) in H. cbn [snd] in H. subst a'.
  apply openNode_ok. split; [|reflexivity]. cbn [f set_f].
  eapply node_written; eassumption.
Qed.

Lemma node_flush_then_open_witness :
  openNode 320 (after (memNode_flush (mkNode true 304 0 320)) small)
  = (Return (mkNode false 304 0 320) None,
     after (memNode_flush (mkNode true 304 0 320)) small).
Proof.
  apply (node_flush_then_open (mkNode true 304 0 320) small (mkNode true 304 0 320)
           (after (memNode_flush (mkNode true 304 0 320)) small)).
  - unfold is64. cbn. lia.
  - unfold is64. cbn. lia.
  - reflexivity.
  - vm_compute. reflexivity.
Defined.

(** * The slots of a shared page *)

Lemma NewAllocator_cap fl a e fl' :
  NewAllocator fl = (Return (Some a) e, fl') -> cap a = caps.
Proof.
  unfold NewAllocator. cbv zeta. cbn [fsize buf].
  destruct (Size fl <=? oFileSkip).
  - destruct (WriteAt fl (zeros (szFile - oFileSkip)) oFileSkip) as [[e1|] fl1];
      intros H; [discriminate|].
    apply (f_equal fst) in H. cbn [fst] in H.
    assert (forall (x y : option Allocator) e1 e2, Return x e1 = Return y e2 -> x = y) as Hi
      by (intros ? ? ? ? Hx; injection Hx; auto).
    apply Hi, (inj Some) in H. subst a. reflexivity.
  - destruct (ReadAt fl _ oFileSkip) as [b err].
    destruct (negb _); [intros H; discriminate|].
    destruct (check_heads b _ _ _ 0) as [ps|]; [|intros H; discriminate].
    destruct (check_heads b _ _ _ 0) as [ss|]; [|intros H; discriminate].
    intros H. apply (f_equal fst) in H. cbn [fst] in H.
    assert (forall (x y : option Allocator) e1 e2, Return x e1 = Return y e2 -> x = y) as Hi
      by (intros ? ? ? ? Hx; injection Hx; auto).
    apply Hi, (inj Some) in H. subst a. reflexivity.
Qed.

Lemma slot_eq p i r :
  p_rank p = r -> 0 <= r <= 6 -> 0 <= i <= 252 -> 0 <= p_off p <= 2 ^ 62 ->
  memPage_slot p i = p_off p + 48 + i * 2 ^ (r + 4).
Proof.
  intros Hr Hrr Hi Ho. unfold memPage_slot. rewrite Hr. change szPage with 48.
  rewrite (i64_id (r + 4)) by (unfold is64; lia).
  rewrite shl_small by lia.
  assert (16 <= 2 ^ (r + 4) <= 1024) as Hm.
  { change 16 with (2 ^ 4). change 1024 with (2 ^ 10).
    split; apply Z.pow_le_mono_r; lia. }
  set (m := 2 ^ (r + 4)) in *. clearbody m.
  assert (0 <= i * m <= 258048) by nia.
  rewrite (i64_id (i * m)) by (unfold is64; lia).
  rewrite (i64_id (p_off p + 48)) by (unfold is64; lia).
  apply i64_id. unfold is64. lia.
Qed.

(** The slots of a shared page, as [slot] places them and the capacity
    table of [NewAllocator] counts them, lie behind the page header, do not
    overlap one another and end before the tail word of the page. *)
Theorem slots_within_page fl a e fl' p r k i j :
  NewAllocator fl = (Return (Some a) e, fl') ->
  index (cap a) r = Some k -> p_rank p = r -> 0 <= p_off p <= 2 ^ 62 ->
  0 <= i < j -> j < k ->
  p_off p + szPage <= memPage_slot p i
  /\ memPage_slot p i + shl 1 (i64 (r + 4)) <= memPage_slot p j
  /\ memPage_slot p j + shl 1 (i64 (r + 4)) <= p_off p + pageSize - szTail.
Proof.
  intros HN Hk Hr Ho Hi Hj. apply NewAllocator_cap in HN. rewrite HN in Hk.
  apply index_lookup in Hk as [Hr0 Hk].
  pose proof (lookup_lt_Some _ _ _ Hk) as Hlt. change (length caps) with 7%nat in Hlt.
  assert (r = 0 \/ r = 1 \/ r = 2 \/ r = 3 \/ r = 4 \/ r = 5 \/ r = 6) as Hcase by lia.
  change szPage with 48. change pageSize with 4096. change szTail with 8.
  destruct Hcase as [E|[E|[E|[E|[E|[E|E]]]]]]; rewrite E in Hk, Hr |- *;
    cbn in Hk; apply (inj Some) in Hk; subst k;
    rewrite shared_usable by lia;
    rewrite (slot_eq p i _ Hr), (slot_eq p j _ Hr) by lia;
    match goal with |- context [2 ^ ?x] =>
      let v := eval vm_compute in (2 ^ x) in change (2 ^ x) with v end;
    lia.
Qed.

Lemma slots_within_page_witness :
  256 + szPage <= memPage_slot (mkPage false 256 0 0 0 6 4096 0) 1
  /\ memPage_slot (mkPage false 256 0 0 0 6 4096 0) 1 + shl 1 (i64 (6 + 4))
     <= memPage_slot (mkPage false 256 0 0 0 6 4096 0) 2
  /\ memPage_slot (mkPage false 256 0 0 0 6 4096 0) 2 + shl 1 (i64 (6 + 4))
     <= 256 + pageSize - szTail.
Proof.
  apply (slots_within_page empty fresh None (f fresh)
           (mkPage false 256 0 0 0 6 4096 0) 6 3 1 2).
  - vm_compute. reflexivity.
  - vm_compute. reflexivity.
  - reflexivity.
  - cbn. lia.
  - lia.
  - lia.
Defined.

(** * Arguments and read-only operations *)

Lemma UsableSize_state off a : snd (UsableSize off a) = a.
Proof.
  unfold UsableSize, usableSize.
  destruct (off <? szFile + szPage); [reflexivity|].
  unfold bind.
  destruct (openPage _ a) as [r a1] eqn:E. apply openPage_state in E. subst a1.
  destruct r as [p [e|]| |]; try reflexivity.
  destruct ((p_rank p <? 0) || (p_rank p >=? ranks)); [reflexivity|].
  destruct (p_rank p <=? maxSharedRank); reflexivity.
Qed.

(** [UsableSize] only reads: whatever it returns, the allocator and the
    store are as before. *)
Theorem UsableSize_reads_only off a : snd (UsableSize off a) = a.
Proof. apply UsableSize_state. Qed.

(** An offset below the first block (304) is refused by [Free], [Realloc]
    and [UsableSize] with the invalid-argument error before anything is
    read, counted or written. *)
Theorem low_offset_refused off a :
  off < szFile + szPage ->
  Free off a = (Return tt (Some InvalidArgument), a)
  /\ (forall fuel size, Realloc fuel off size a = (Return (-1) (Some InvalidArgument), a))
  /\ UsableSize off a = (Return (-1) (Some InvalidArgument), a).
Proof.
  intros H. apply Z.ltb_lt in H.
  unfold Free, Realloc, UsableSize, usableSize. rewrite H. repeat split.
Qed.

Lemma low_offset_refused_witness :
  Free 303 small = (Return tt (Some InvalidArgument), small)
  /\ (forall fuel size, Realloc fuel 303 size small
                        = (Return (-1) (Some InvalidArgument), small))
  /\ UsableSize 303 small = (Return (-1) (Some InvalidArgument), small).
Proof. apply (low_offset_refused 303 small). vm_compute. reflexivity. Defined.

(** * The file header *)

Lemma put_splice b o n :
  0 <= o -> (Z.to_nat o + 8 <= length b)%nat ->
  put b o n = splice b (Z.to_nat o) (write_bytes 8 n).
Proof.
  intros Ho L. unfold put, write, splice. rewrite length_write_bytes.
  replace (Z.to_nat o - length b)%nat with 0%nat by lia.
  cbn [replicate]. rewrite app_nil_r, drop_drop. reflexivity.
Qed.

Lemma read_region l o : read (drop o l) = read (region l o 8).
Proof. unfold read, region. rewrite take_take. reflexivity. Qed.

Lemma read_put_all vs : forall b base,
  0 <= base -> (Z.to_nat base + 8 * length vs <= length b)%nat ->
  (forall j v, vs !! j = Some v ->
               read (drop (Z.to_nat base + 8 * j) (put_all b base vs)) = i64 v)
  /\ (forall o, (o + 8 <= length b)%nat ->
                (o + 8 <= Z.to_nat base \/ Z.to_nat base + 8 * length vs <= o)%nat ->
                region (put_all b base vs) o 8 = region b o 8)
  /\ length (put_all b base vs) = length b.
Proof.
  induction vs as [|v vs IH]; intros b base Hb L.
  - split; [intros j v H; rewrite lookup_nil in H; discriminate|].
    split; reflexivity.
  - cbn [length] in L. cbn [put_all].
    assert (length (put b base v) = length b) as L1 by (apply length_put; lia).
    destruct (IH (put b base v) (base + 8) ltac:(lia)
                 ltac:(rewrite L1, Z2Nat.inj_add by lia; change (Z.to_nat 8) with 8%nat; lia))
      as (I1 & I2 & I3).
    rewrite Z2Nat.inj_add in I1, I2 by lia. change (Z.to_nat 8) with 8%nat in I1, I2.
    assert (forall o, (o + 8 <= length b)%nat ->
                      (o + 8 <= Z.to_nat base \/ Z.to_nat base + 8 <= o)%nat ->
                      region (put b base v) o 8 = region b o 8) as Hother.
    { intros o Lo Ho. rewrite put_splice by lia.
      apply region_splice_other; [exact Lo|].
      rewrite length_write_bytes. lia. }
    split; [|split].
    + intros [|j] w Hj.
      * cbn in Hj. apply (inj Some) in Hj. subst w.
        rewrite Nat.mul_0_r, Nat.add_0_r, read_region.
        rewrite I2 by (rewrite ?L1; lia).
        rewrite put_splice by lia.
        pose proof (region_splice_same b (Z.to_nat base) (write_bytes 8 v)) as Hr.
        rewrite length_write_bytes in Hr. rewrite Hr.
        rewrite <- (app_nil_r (write_bytes 8 v)). apply read_write.
      * cbn in Hj. specialize (I1 j w Hj).
        replace (Z.to_nat base + 8 * S j)%nat with (Z.to_nat base + 8 + 8 * j)%nat by lia.
        exact I1.
    + intros o Lo Ho. cbn [length] in Ho.
      rewrite I2 by (rewrite ?L1; lia). apply Hother; lia.
    + rewrite I3. exact L1.
Qed.

Lemma f_Close_data a x a' : f_Close a = (Return x None, a') -> data (f a') = data (f a).
Proof.
  unfold f_Close, next_fault. destruct (faults (f a)) as [|bad fs]; intros H.
  - apply (f_equal snd) in H. cbn [snd] in H. subst a'. reflexivity.
  - apply (f_equal snd) in H. cbn [snd] in H. subst a'. reflexivity.
Qed.

Lemma heads_back (vs : list Z) b base n :
  length vs = n ->
  (forall j v, vs !! j = Some v -> read (drop (Z.to_nat (base + 8 * (0 + Z.of_nat j))) b) = v) ->
  map (fun k => read (drop (Z.to_nat (base + 8 * (0 + Z.of_nat k))) b)) (seq 0 n) = vs.
Proof.
  intros L H. apply list_eq. intros i.
  change (map ?g ?l) with (g <$> l). rewrite list_lookup_fmap.
  destruct (vs !! i) as [v|] eqn:E.
  - pose proof (lookup_lt_Some _ _ _ E) as Hi.
    rewrite lookup_seq_lt by lia. cbn. f_equal. apply H. exact E.
  - apply lookup_ge_None in E. rewrite lookup_seq_ge by lia. reflexivity.
Qed.

(** The list heads survive [Close]: after a successful [Close] of a dirty
    allocator, [NewAllocator] on the store succeeds without writing and
    returns the same 23 page heads and 7 slot heads, provided every head
    passes the check of [NewAllocator] against the length of the store. *)
Theorem Close_then_reopen a a' :
  good a -> dirty a = true -> Size (f a') < 2 ^ 63 ->
  (forall h, In h (pages a ++ slots a) -> 0 <= h <= Size (f a') - szPage) ->
  Allocator_Close a = (Return tt None, a') ->
  exists b, NewAllocator (f a') = (Return (Some b) None, f a')
            /\ pages b = pages a /\ slots b = slots a
            /\ fsize b = Size (f a') /\ cap b = cap a.
Proof.
  intros Hg Hd Hs Hh H. unfold Allocator_Close in H.
  apply bind_ok in H as ([] & a1 & Hf & Hc).
  apply f_Close_data in Hc.
  unfold flush in Hf. rewrite Hd in Hf. cbn [negb] in Hf.
  set (b := put_all (put_all (buf a) (oFilePages - oFileSkip) (pages a))
                    (oFileSlots - oFileSkip) (slots a)) in *.
  destruct Hg as (Lb & Lp & Ls & Hcap).
  change (oFilePages - oFileSkip) with 0 in b. change (oFileSlots - oFileSkip) with 184 in b.
  destruct (read_put_all (pages a) (buf a) 0 ltac:(lia)
              ltac:(rewrite Lb, Lp; change (Z.to_nat 0) with 0%nat; lia))
    as (P1 & P2 & P3).
  destruct (read_put_all (slots a) (put_all (buf a) 0 (pages a)) 184 ltac:(lia)
              ltac:(rewrite P3, Lb, Ls; change (Z.to_nat 184) with 184%nat; lia))
    as (S1 & S2 & S3).
  fold b in S1, S2, S3.
  change (Z.to_nat 0) with 0%nat in P1. change (Z.to_nat 184) with 184%nat in S1, S2.
  assert (length b = 240%nat) as L by (rewrite S3, P3; exact Lb).
  destruct (WriteAt (f a) b oFileSkip) as [[e|] fl1] eqn:Hw;
    [apply (f_equal fst) in Hf; discriminate|].
  apply (f_equal snd) in Hf. cbn [snd isnil] in Hf. subst a1.
  cbn [f set_dirty set_f set_buf] in Hc.
  apply WriteAt_ok in Hw as [_ Hdat]. change (Z.to_nat oFileSkip) with 16%nat in Hdat.
  assert (256 <= Size (f a')) as Hsz.
  { unfold Size. rewrite Hc, Hdat, length_splice, L. lia. }
  assert (take 240 (drop 16 (data (f a'))) = b) as Hb.
  { rewrite Hc, Hdat.
    pose proof (region_splice_same (data (f a)) 16 b) as Hr. rewrite L in Hr. exact Hr. }
  assert (forall h, In h (pages a ++ slots a) -> i64 h = h) as Hid.
  { intros h Hin. apply i64_id. specialize (Hh h Hin). unfold is64.
    change szPage with 48 in Hh. lia. }
  assert (forall j v, pages a !! j = Some v ->
                      read (drop (Z.to_nat (0 + 8 * (0 + Z.of_nat j))) b) = v) as HP.
  { intros j v Hj. pose proof (lookup_lt_Some _ _ _ Hj) as Hlt.
    replace (Z.to_nat (0 + 8 * (0 + Z.of_nat j))) with (8 * j)%nat by lia.
    rewrite read_region. unfold b at 1. rewrite S2 by (rewrite ?P3, ?Lb; lia).
    rewrite <- read_region. specialize (P1 j v Hj). rewrite Nat.add_0_l in P1.
    rewrite P1. apply Hid. apply in_or_app. left.
    apply list_elem_of_In. eapply list_elem_of_lookup_2. exact Hj. }
  assert (forall j v, slots a !! j = Some v ->
                      read (drop (Z.to_nat (184 + 8 * (0 + Z.of_nat j))) b) = v) as HS.
  { intros j v Hj. specialize (S1 j v Hj).
    replace (Z.to_nat (184 + 8 * (0 + Z.of_nat j))) with (184 + 8 * j)%nat by lia.
    rewrite S1. apply Hid. apply in_or_app. right.
    apply list_elem_of_In. eapply list_elem_of_lookup_2. exact Hj. }
  unfold NewAllocator. cbn [fsize buf]. change oFileSkip with 16.
  destruct (Size (f a') <=? 16) eqn:E; [apply Z.leb_le in E; lia|].
  change (Z.of_nat (length (zeros (szFile - 16)))) with 240.
  change (length (zeros (szFile - 16))) with 240%nat.
  destruct (NewAllocator_read (f a') ltac:(lia)) as [-> Lr].
  rewrite Lr. rewrite Nat.eqb_refl. cbn [negb]. cbv zeta.
  change szPage with 48 in *. rewrite (i64_id (Size (f a') - 48)) by (unfold is64; lia).
  change (oFilePages - 16) with 0. change (oFileSlots - 16) with 184.
  change (Z.to_nat ranks) with 23%nat. change (Z.to_nat slotRanks) with 7%nat.
  rewrite Hb.
  rewrite check_heads_Some.
  2:{ intros j Hj.
      destruct (pages a !! Z.to_nat j) as [v|] eqn:Ej;
        [|apply lookup_ge_None in Ej; lia].
      pose proof (HP _ _ Ej) as Hv.
      replace (0 + 8 * (0 + Z.of_nat (Z.to_nat j))) with (0 + 8 * j) in Hv by lia.
      rewrite Hv. apply Hh. apply in_or_app. left.
      apply list_elem_of_In. eapply list_elem_of_lookup_2. exact Ej. }
  rewrite check_heads_Some.
  2:{ intros j Hj.
      destruct (slots a !! Z.to_nat j) as [v|] eqn:Ej;
        [|apply lookup_ge_None in Ej; lia].
      pose proof (HS _ _ Ej) as Hv.
      replace (184 + 8 * (0 + Z.of_nat (Z.to_nat j))) with (184 + 8 * j) in Hv by lia.
      rewrite Hv. apply Hh. apply in_or_app. right.
      apply list_elem_of_In. eapply list_elem_of_lookup_2. exact Ej. }
  eexists. split; [reflexivity|].
  cbn [pages slots fsize cap set_slots set_pages set_buf].
  split; [apply heads_back; assumption|].
  split; [apply heads_back; assumption|].
  split; [reflexivity|]. rewrite Hcap. reflexivity.
Qed.

Lemma small_heads :
  forall h, In h (pages small ++ slots small)
            -> 0 <= h <= Size (f (after Allocator_Close small)) - szPage.
Proof.
  assert (forallb (fun h => (0 <=? h)
                            && (h <=? Size (f (after Allocator_Close small)) - szPage))
                  (pages small ++ slots small) = true) as H by (vm_compute; reflexivity).
  rewrite forallb_forall in H. intros h Hin. specialize (H h Hin).
  rewrite andb_true_iff, !Z.leb_le in H. exact H.
Qed.

Lemma Close_then_reopen_witness :
  exists b, NewAllocator (f (after Allocator_Close small))
            = (Return (Some b) None, f (after Allocator_Close small))
            /\ pages b = pages small /\ slots b = slots small
            /\ fsize b = Size (f (after Allocator_Close small)) /\ cap b = cap small.
Proof.
  apply (Close_then_reopen small (after Allocator_Close small)).
  - unfold good. repeat split; vm_compute; reflexivity.
  - vm_compute. reflexivity.
  - vm_compute. reflexivity.
  - exact small_heads.
  - vm_compute. reflexivity.
Defined.

Lemma NewAllocator_frame fl r fl' :
  NewAllocator fl = (r, fl') ->
  (oFileSkip < Size fl -> fl' = fl)
  /\ (forall i, (i < 16)%nat -> (i < length (data fl))%nat ->
                data fl' !! i = data fl !! i).
Proof.
  unfold NewAllocator. cbv zeta. cbn [fsize buf]. change oFileSkip with 16.
  destruct (Size fl <=? 16) eqn:E.
  - apply Z.leb_le in E.
    destruct (WriteAt fl (zeros (szFile - 16)) 16) as [[e|] fl1] eqn:Hw; intros H;
      apply (f_equal snd) in H; cbn [snd] in H; subst fl'.
    + split; [lia|]. intros i _ _. unfold WriteAt, next_fault in Hw.
      destruct (faults fl) as [|[|] fs]; cbn in Hw; inversion Hw; reflexivity.
    + split; [lia|]. intros i Hi Hl. apply WriteAt_ok in Hw as [_ ->].
      apply lookup_splice_out; [exact Hl|]. change (Z.to_nat 16) with 16%nat. lia.
  - assert (forall x : result (option Allocator),
              (x, fl) = (r, fl') ->
              (16 < Size fl -> fl' = fl)
              /\ (forall i, (i < 16)%nat -> (i < length (data fl))%nat ->
                            data fl' !! i = data fl !! i)) as Hfin.
    { intros x H. apply (f_equal snd) in H. cbn [snd] in H. subst fl'.
      split; reflexivity. }
    destruct (ReadAt fl _ 16) as [b err].
    destruct (negb _); [apply Hfin|].
    destruct (check_heads b _ _ _ 0); [|apply Hfin].
    destruct (check_heads b _ _ _ 0); apply Hfin.
Qed.

(** [NewAllocator] never writes to a store of more than 16 bytes, and on
    any store it leaves the bytes of the user area (the first 16) as they
    are. *)
Theorem NewAllocator_user_area fl :
  (oFileSkip < Size fl -> snd (NewAllocator fl) = fl)
  /\ (forall i, (i < 16)%nat -> (i < length (data fl))%nat ->
                data (snd (NewAllocator fl)) !! i = data fl !! i).
Proof.
  destruct (NewAllocator fl) as [r fl'] eqn:H. cbn [snd].
  exact (NewAllocator_frame fl r fl' H).
Qed.

(** * Calloc *)

Lemma Calloc_loop_neg b : forall fuel dst sz a a',
  dst < 0 -> sz <> 0 -> Calloc_loop fuel b dst sz a = (Return tt None, a') -> False.
Proof.
  intros [|fuel] dst sz a a' Hd Hs H; cbn [Calloc_loop] in H;
    destruct (sz =? 0) eqn:E; try (apply Z.eqb_eq in E; contradiction);
    try discriminate.
  cbv zeta in H. destruct (_ <? 0); [discriminate|].
  apply bind_ok in H as ([] & a1 & Hw & _).
  apply f_WriteAt_ok in Hw as (fl' & Hw & _). apply WriteAt_ok in Hw as [Ho _]. lia.
Qed.

Lemma Calloc_loop_zero n : forall fuel dst sz a a',
  (0 < n)%nat -> 0 <= dst < 2 ^ 63 -> 0 <= sz < 2 ^ 63 ->
  Calloc_loop fuel (replicate n Byte.x00) dst sz a = (Return tt None, a') ->
  (forall i, (Z.to_nat dst <= i < Z.to_nat (dst + sz))%nat ->
             data (f a') !! i = Some Byte.x00)
  /\ (forall i, (i < Z.to_nat dst)%nat -> (i < length (data (f a)))%nat ->
                data (f a') !! i = data (f a) !! i)
  /\ (length (data (f a)) <= length (data (f a')))%nat.
Proof.
  induction fuel as [|fuel IH]; intros dst sz a a' Hn Hd Hs H; cbn [Calloc_loop] in H.
  - destruct (sz =? 0) eqn:E; [|discriminate]. apply Z.eqb_eq in E.
    apply ret_ok in H as [_ ->]. split; [intros i Hi; lia|]. split; auto.
  - destruct (sz =? 0) eqn:E.
    { apply Z.eqb_eq in E. apply ret_ok in H as [_ ->].
      split; [intros i Hi; lia|]. split; auto. }
    apply Z.eqb_neq in E. cbv zeta in H. rewrite length_replicate in H.
    set (rq := if sz <? Z.of_nat n then sz else Z.of_nat n) in H.
    assert (0 < rq <= sz /\ rq <= Z.of_nat n) as (Hrq & Hrn).
    { unfold rq. destruct (sz <? Z.of_nat n) eqn:El.
      - apply Z.ltb_lt in El. lia.
      - apply Z.ltb_ge in El. lia. }
    clearbody rq.
    destruct (rq <? 0) eqn:Eq; [discriminate|].
    apply bind_ok in H as ([] & a1 & Hw & H).
    apply f_WriteAt_ok in Hw as (fl' & Hw & ->). apply WriteAt_ok in Hw as [_ Hdat].
    rewrite take_replicate in Hdat.
    replace (Z.to_nat rq `min` n)%nat with (Z.to_nat rq) in Hdat by lia.
    rewrite (i64_id (sz - rq)) in H by (unfold is64; lia).
    assert (forall i, (Z.to_nat dst <= i < Z.to_nat (dst + rq))%nat ->
                      data fl' !! i = Some Byte.x00) as Hnew.
    { intros i Hi. rewrite Hdat, lookup_splice_in by (rewrite length_replicate; lia).
      apply lookup_replicate_2. lia. }
    assert (forall i, (i < Z.to_nat dst)%nat -> (i < length (data (f a)))%nat ->
                      data fl' !! i = data (f a) !! i) as Hold.
    { intros i Hi Hl. rewrite Hdat. apply lookup_splice_out; [exact Hl|lia]. }
    assert (length (data (f a)) <= length (data fl') /\
            Z.to_nat (dst + rq) <= length (data fl'))%nat as [Hlen Hlen'].
    { rewrite Hdat, length_splice, length_replicate. lia. }
    destruct (Z.eq_dec (sz - rq) 0) as [E0|E0].
    + rewrite E0 in H. destruct fuel; cbn [Calloc_loop] in H;
        change (0 =? 0) with true in H; cbv iota in H;
        apply ret_ok in H as [_ ->]; cbn [f set_f];
        (split; [intros i Hi; apply Hnew; lia|]); (split; [exact Hold|exact Hlen]).
    + destruct (Z_lt_ge_dec (dst + rq) (2 ^ 63)) as [Hlt|Hge].
      * rewrite (i64_id (dst + rq)) in H by (unfold is64; lia).
        apply IH in H; [|exact Hn|lia|lia]. cbn [f set_f] in H.
        destruct H as (Z1 & Z2 & Z3).
        split; [|split].
        -- intros i Hi. destruct (Nat.lt_ge_cases i (Z.to_nat (dst + rq))) as [Hi'|Hi'].
           ++ rewrite Z2 by lia. apply Hnew. lia.
           ++ apply Z1. replace (dst + rq + (sz - rq)) with (dst + sz) by lia. lia.
        -- intros i Hi Hl. rewrite Z2 by lia. apply Hold; assumption.
        -- lia.
      * exfalso. eapply (Calloc_loop_neg _ fuel (i64 (dst + rq)) (sz - rq)); [|exact E0|exact H].
        unfold i64. Z.div_mod_to_equations. lia.
Qed.

Lemma Calloc_zeroes_core a size o a' :
  Inv a -> 0 < size < 2 ^ 63 ->
  Calloc size a = (Return o None, a') ->
  304 <= o
  /\ region (data (f a')) (Z.to_nat o) (Z.to_nat size)
     = replicate (Z.to_nat size) Byte.x00.
Proof.
  intros I Hs H. unfold Calloc in H.
  apply bind_ok in H as (off & a1 & Ha & H).
  apply Alloc_served in Ha as ((Ho & _ & _) & _); [|exact I|lia].
  cbv zeta in H. apply bind_ok in H as ([] & a2 & Hl & H).
  apply ret_ok in H as [-> ->].
  unfold zeros in Hl.
  apply Calloc_loop_zero in Hl as (Z1 & _ & _); [|unfold bufSize; lia|lia|lia].
  split; [lia|].
  apply list_eq. intros i. unfold region.
  destruct (Nat.lt_ge_cases i (Z.to_nat size)) as [Hi|Hi].
  - rewrite lookup_take_lt, lookup_drop by lia. rewrite Z1 by lia.
    symmetry. apply lookup_replicate_2. exact Hi.
  - rewrite lookup_take_ge by lia. symmetry. apply lookup_replicate_None. lia.
Qed.

(** [Calloc] zeroes the block: after a successful [Calloc size] on a state
    that satisfies the data-model invariants, the [size] bytes of the store
    from the returned offset are all zero. *)
Theorem Calloc_zeroes a size o a' :
  inv a = true -> 0 < size < 2 ^ 63 ->
  Calloc size a = (Return o None, a') ->
  region (data (f a')) (Z.to_nat o) (Z.to_nat size)
  = replicate (Z.to_nat size) Byte.x00.
Proof.
  intros Hi Hs H. apply inv_Inv in Hi.
  exact (proj2 (Calloc_zeroes_core a size o a' Hi Hs H)).
Qed.

Lemma Calloc_zeroes_witness :
  region (data (f (after (Calloc 1024) two_freed))) (Z.to_nat 1328) (Z.to_nat 1024)
  = replicate (Z.to_nat 1024) Byte.x00.
Proof.
  apply (Calloc_zeroes two_freed 1024 1328 (after (Calloc 1024) two_freed)).
  - vm_compute. reflexivity.
  - lia.
  - vm_compute. reflexivity.
Defined.

(** * Termination *)

(** The loops of [Calloc] and of [Free] come to an end: [Calloc] writes at
    least one byte a round, and every further round of [freeLastPage] works
    on a page that lies below the one just cut off, so neither runs out of
    the rounds the embedding grants it. *)
Theorem Calloc_Free_terminate a :
  (forall size, size < 2 ^ 63 -> fst (Calloc size a) <> OutOfFuel)
  /\ (forall off, fst (Free off a) <> OutOfFuel)
  /\ (forall p, fst (freeLastPage p a) <> OutOfFuel).
Proof.
  split; [|split].
  - intros size Hs E. destruct (Calloc size a) as [r a'] eqn:H. cbn [fst] in E. subst r.
    exact (total_Calloc size Hs a a' H).
  - intros off E. destruct (Free off a) as [r a'] eqn:H. cbn [fst] in E. subst r.
    exact (total_Free off a a' H).
  - intros p E. destruct (freeLastPage p a) as [r a'] eqn:H. cbn [fst] in E. subst r.
    exact (total_freeLastPage p a a' H).
Qed.

Lemma Calloc_Free_terminate_witness :
  fst (Calloc 3000000 fresh) <> OutOfFuel /\ fst (Free 304 (hole 10000)) <> OutOfFuel.
Proof.
  split.
  - apply (proj1 (Calloc_Free_terminate fresh)). lia.
  - apply (proj1 (proj2 (Calloc_Free_terminate (hole 10000)))).
Defined.

(** * Free *)

Lemma freeLastPage_loop_cut : forall fuel p a a',
  freeLastPage_loop fuel p a = (Return tt None, a') ->
  Size (f a') = fsize a' /\ 0 <= fsize a' <= p_off p.
Proof.
  induction fuel as [|fuel IH]; intros p a a' H; [discriminate|].
  cbn [freeLastPage_loop] in H.
  apply bind_ok in H as ([] & a1 & _ & H).
  apply bind_ok in H as (p1 & a2 & H1 & H).
  apply memPage_unlink_ok in H1 as [-> _].
  apply bind_ok in H as (p2 & a3 & H2 & H).
  assert (p_off p2 = p_off p /\ p_size p2 = p_size p) as [Ho Hsz].
  { apply memPage_flush_ok in H2 as [(_ & -> & _)|(_ & -> & _)]; split; reflexivity. }
  apply bind_ok in H as ([] & a4 & H4 & H).
  apply f_Truncate_ok in H4 as [Hpos Hcut].
  apply bind_ok in H as ([] & a5 & H5 & H).
  unfold modify in H5. apply (f_equal snd) in H5. cbn [snd] in H5. subst a5.
  destruct (p_off p2 >? szFile).
  - apply bind_ok in H as (prevSize & a6 & H6 & H).
    assert (a6 = set_bytes (set_npages (set_fsize a4 (p_off p2)) (i64 (npages a4 - 1)))
                           (i64 (bytes a4 - p_size p2))) as ->.
    { unfold Allocator_read in H6.
      match type of H6 with context [ReadAt ?x ?l ?o] => destruct (ReadAt x l o) as [b e] end.
      destruct (negb (Z.of_nat (length b) =? 8)); inversion H6; reflexivity. }
    destruct (negb (prevSize =? 0)).
    + apply bind_ok in H as (p' & a7 & H7 & H).
      apply openPage_ok in H7 as [H7 ->]. cbn [f set_bytes set_npages set_fsize] in H7.
      pose proof (page_at_is64 _ _ _ H7) as (_ & _ & _ & _ & _ & _ & Hoff).
      apply page_at_region in H7 as (H70 & H71 & _).
      apply IH in H as [E1 E2]. split; [exact E1|]. rewrite Hoff in E2. lia.
    + apply ret_ok in H as [_ ->]. cbn [f fsize set_bytes set_npages set_fsize]. lia.
  - apply ret_ok in H as [_ ->]. cbn [f fsize set_bytes set_npages set_fsize]. lia.
Qed.

(** [freeLastPage] cuts the store: after it succeeded, the store ends
    where the allocator records its end, [fsize], and that is at or below
    the offset of the page that was freed. *)
Theorem freeLastPage_cuts_store p a a' :
  freeLastPage p a = (Return tt None, a') ->
  Size (f a') = fsize a' /\ 0 <= fsize a' <= p_off p.
Proof. unfold freeLastPage. apply freeLastPage_loop_cut. Qed.

Lemma freeLastPage_cuts_store_witness :
  Size (f (after (freeLastPage (mkPage false 256 0 0 0 9 12288 0)) big))
  = fsize (after (freeLastPage (mkPage false 256 0 0 0 9 12288 0)) big)
  /\ 0 <= fsize (after (freeLastPage (mkPage false 256 0 0 0 9 12288 0)) big) <= 256.
Proof.
  apply (freeLastPage_cuts_store (mkPage false 256 0 0 0 9 12288 0) big
           (after (freeLastPage (mkPage false 256 0 0 0 9 12288 0)) big)).
  vm_compute. reflexivity.
Defined.

Lemma nrelink_frame h (upd : memNode -> memNode) a a' :
  (try next <- openNode h else tt;
   try _ <- memNode_flush (upd next) else tt;
   ret tt) a = (Return tt None, a') ->
  a' = a \/ exists fl, a' = set_f a fl.
Proof.
  intros H. apply bind_ok in H as (nx & a1 & H1 & H).
  apply openNode_ok in H1 as [_ ->].
  apply bind_ok in H as (m' & a2 & H2 & H). apply ret_ok in H as [_ ->].
  apply memNode_flush_ok in H2 as [->|(x & fl' & _ & _ & ->)]; eauto.
Qed.

Lemma flush_good a x a' :
  good a -> flush a = (Return x None, a') -> good a' /\ cap a' = cap a.
Proof.
  intros G H. split; [exact (pres_flush _ _ _ G H)|].
  pose proof (pres_flush _ _ _ G H) as G'.
  destruct G as (_ & _ & _ & ->). destruct G' as (_ & _ & _ & ->). reflexivity.
Qed.

Lemma flush_frame a x a' :
  good a -> flush a = (Return x None, a') ->
  pages a' = pages a /\ slots a' = slots a
  /\ (f a' = f a
      \/ exists b, length b = 240%nat /\ WriteAt (f a) b 16 = (None, f a')).
Proof.
  intros G. unfold flush. destruct (negb (dirty a)).
  - intros H; inversion H. auto.
  - pose proof (flush_buf_length a G) as L.
    match goal with |- context [WriteAt (f a) ?x oFileSkip] => set (b := x) in * end.
    change oFileSkip with 16.
    destruct (WriteAt (f a) b 16) as [[e|] fl'] eqn:E; intros H;
      [apply (f_equal fst) in H; discriminate|].
    apply (f_equal snd) in H. cbn [snd] in H. subst a'.
    cbn [pages slots f set_dirty set_f set_buf]. split; [reflexivity|].
    split; [reflexivity|]. right. exists b. auto.
Qed.

Lemma Free_shared_core off a a' p h :
  Inv a -> 304 <= off < 2 ^ 63 -> pageOf off + 48 <= off ->
  page_at (f a) (pageOf off) = Some p -> p_rank p <= 6 -> 2 <= p_used p ->
  index (slots a) (p_rank p) = Some h ->
  Free off a = (Return tt None, a') ->
  slots a' = <[Z.to_nat (p_rank p) := off]> (slots a)
  /\ pages a' = pages a
  /\ node_at (f a') off = Some (mkNode false 0 h off)
  /\ page_at (f a') (pageOf off)
     = Some (mkPage false (p_off p) (p_brk p) (p_prev p) (p_next p) (p_rank p)
                    (p_size p) (p_used p - 1))
  /\ good a'.
Proof.
  intros I Ho Hpo Hp Hr Hu Hh H.
  pose proof (inv_good a I) as (Lb & Lp & Ls & Hcap).
  pose proof (page_at_is64 _ _ _ Hp) as (I1 & I2 & I3 & I4 & I5 & I6 & Hoff).
  destruct (pageOf_aligned off ltac:(lia) ltac:(unfold is64; lia)) as [Hal _].
  apply aligned_spec in Hal as [Hal _].
  assert (is64 h) as Ih.
  { pose proof (inv_slot a I _ _ Hh) as Hs. unfold slot_head_ok in Hs.
    apply orb_true_iff in Hs as [Hs|Hs]; [apply Z.eqb_eq in Hs; subst h; unfold is64; lia|].
    apply andb_true_iff in Hs as [Hs _]. apply andb_true_iff in Hs as [_ Hn].
    destruct (node_at (f a) h) as [n0|] eqn:Hn0; [|discriminate].
    apply node_at_region in Hn0 as (Hh0 & Hh1 & _).
    pose proof (inv_size a I). unfold is64. lia. }
  unfold Free in H. change (szFile + szPage) with 304 in H.
  destruct (off <? 304) eqn:E; [apply Z.ltb_lt in E; lia|]. clear E.
  apply bind_ok in H as ([] & a1 & Hm & H).
  unfold modify in Hm. apply (f_equal snd) in Hm. cbn [snd] in Hm. subst a1.
  apply bind_ok in H as (p0 & a1 & Hop & H). fold (pageOf off) in Hop.
  apply openPage_ok in Hop as [Hp0 ->]. cbn [f set_allocs] in Hp0.
  assert (p0 = p) by congruence. subst p0.
  change maxSharedRank with 6 in H.
  destruct (p_rank p >? 6) eqn:E; [rewrite Z.gtb_ltb in E; apply Z.ltb_lt in E; lia|].
  clear E. cbv zeta in H. cbn [p_rank p_used memPage_setUsed] in H.
  rewrite (i64_id (p_used p - 1)) in H by (unfold is64 in *; lia).
  apply bind_ok in H as ([] & a2 & Hins & H).
  destruct (p_used p - 1 =? 0) eqn:E; [apply Z.eqb_eq in E; lia|]. clear E.
  apply bind_ok in H as (p3 & a3 & Hpf & Hfl).
  (* insertSlot *)
  unfold insertSlot in Hins.
  apply bind_ok in Hins as (h' & a11 & Hat & Hins).
  apply at_index_ok in Hat as [Hat ->]. cbn [slots set_allocs] in Hat.
  assert (h' = h) by congruence. subst h'.
  cbv zeta in Hins. cbn [n_next memNode_setNext n_prev n_off] in Hins.
  apply bind_ok in Hins as ([] & a12 & Hrel & Hins).
  assert (exists fl1, a12 = set_f (set_allocs a (i64 (allocs a - 1))) fl1) as (fl1 & ->).
  { destruct (negb (h =? 0)).
    - apply nrelink_frame in Hrel as [->|(fl & ->)]; [|eauto].
      exists (f a). destruct a; reflexivity.
    - apply ret_ok in Hrel as [_ ->]. exists (f a). destruct a; reflexivity. }
  apply bind_ok in Hins as ([] & a13 & Hset & Hins).
  unfold setSlot in Hset. cbn [slots set_f set_allocs] in Hset. rewrite Hh in Hset.
  apply (f_equal snd) in Hset. cbn [snd] in Hset. subst a13.
  apply bind_ok in Hins as (m' & a14 & Hnf & Hins). apply ret_ok in Hins as [_ ->].
  unfold memNode_flush, memNode_setNext in Hnf.
  cbn [n_dirty negb n_next n_prev n_off] in Hnf.
  cbv zeta in Hnf. cbn [f set_dirty set_slots set_f set_allocs] in Hnf.
  destruct (WriteAt fl1 _ off) as [[e|] fl2] eqn:Hw2;
    [apply (f_equal fst) in Hnf; discriminate|].
  apply (f_equal snd) in Hnf. cbn [snd] in Hnf. subst a14.
  apply node_written in Hw2; [|unfold is64; lia|exact Ih].
  (* the page header *)
  apply memPage_flush_ok in Hpf as [(Hd & _)|(_ & _ & fl3 & Hw3 & ->)]; [discriminate|].
  cbn [f set_dirty set_slots set_f set_allocs p_off memPage_setUsed] in Hw3.
  pose proof Hw3 as Hw3'.
  apply (page_written _ _ (memPage_setUsed p (p_used p - 1))) in Hw3';
    [|unfold int64_page; cbn [p_brk p_prev p_next p_rank p_size p_used memPage_setUsed];
      unfold is64 in *; repeat split; lia].
  cbn [p_off memPage_setUsed] in Hw3'.
  eapply node_at_write_other in Hw2; [|exact Hw3|rewrite length_page_bytes, Hoff; lia].
  (* the file header *)
  match type of Hfl with flush ?x = _ => assert (good x) as Gx end.
  { unfold good. cbn [buf pages slots cap set_dirty set_slots set_f set_allocs].
    rewrite length_insert. auto. }
  pose proof (flush_good _ _ _ Gx Hfl) as [G' _].
  apply flush_frame in Hfl as (Fp & Fs & Ff); [|exact Gx].
  cbn [pages slots f set_dirty set_slots set_f set_allocs] in Fp, Fs, Ff.
  split; [exact Fs|]. split; [exact Fp|].
  rewrite Hoff in Hw3'.
  destruct Ff as [->|(b & Lbb & Hw4)].
  - split; [exact Hw2|]. split; [exact Hw3'|exact G'].
  - split; [|split; [|exact G']].
    + eapply node_at_write_other; [exact Hw4|exact Hw2|rewrite Lbb; lia].
    + eapply page_at_write_other; [exact Hw4|exact Hw3'|rewrite Lbb; lia].
Qed.

(** [Free] of a block of a shared page that holds another live block puts
    the block at the head of the slot list of its rank: the allocator's
    head is the freed offset, the node written into the block links to the
    former head, and the page's count of used slots is one less. *)
Theorem Free_pushes_slot off a a' p h :
  inv a = true -> 304 <= off < 2 ^ 63 -> pageOf off + szPage <= off ->
  page_at (f a) (pageOf off) = Some p -> p_rank p <= maxSharedRank -> 2 <= p_used p ->
  index (slots a) (p_rank p) = Some h ->
  Free off a = (Return tt None, a') ->
  index (slots a') (p_rank p) = Some off
  /\ pages a' = pages a
  /\ node_at (f a') off = Some (mkNode false 0 h off)
  /\ page_at (f a') (pageOf off)
     = Some (mkPage false (p_off p) (p_brk p) (p_prev p) (p_next p) (p_rank p)
                    (p_size p) (p_used p - 1)).
Proof.
  intros Hi Ho Hpo Hp Hr Hu Hh H. apply inv_Inv in Hi.
  destruct (Free_shared_core off a a' p h Hi Ho Hpo Hp Hr Hu Hh H)
    as (Hs & Hpg & Hnd & Hpa & _).
  split; [|auto].
  apply index_lookup in Hh as [Hr0 Hh]. apply index_lookup. split; [exact Hr0|].
  rewrite Hs. apply list_lookup_insert_Some. left.
  split; [reflexivity|]. split; [reflexivity|]. eapply lookup_lt_Some. exact Hh.
Qed.

Lemma Free_pushes_slot_witness :
  index (slots two_freed) 6 = Some 1328
  /\ pages two_freed = pages slot_freed
  /\ node_at (f two_freed) 1328 = Some (mkNode false 0 304 1328)
  /\ page_at (f two_freed) (pageOf 1328) = Some (mkPage false 256 3 0 0 6 4096 1).
Proof.
  apply (Free_pushes_slot 1328 slot_freed two_freed (mkPage false 256 3 0 0 6 4096 2) 304).
  - vm_compute. reflexivity.
  - lia.
  - vm_compute. discriminate.
  - vm_compute. reflexivity.
  - vm_compute. discriminate.
  - cbn. lia.
  - vm_compute. reflexivity.
  - vm_compute. reflexivity.
Defined.

(** A freed slot is the next block of its size class, and taking it puts
    the lists back.  Let the state satisfy the invariants, let [off] lie at
    least a page header behind the start of its page, let that page be a
    shared page that holds at least one other block in use (its count of
    used slots is at least 2, so [Free] keeps the page), and let the page
    list of the page's rank and the list of free rank-7 pages both be
    empty.  If [Free off] succeeds and an [Alloc] of a size of that rank
    succeeds right after it, the [Alloc] returns [off], and the slot heads
    and page heads are again those from before the [Free].  (Without the
    other block in use [Free] releases the whole page instead, and the
    next [Alloc] need not return [off].) *)
Theorem Free_then_Alloc_reuses_slot off a a' p h size o a'' :
  inv a = true -> 304 <= off < 2 ^ 63 -> pageOf off + szPage <= off ->
  page_at (f a) (pageOf off) = Some p -> 2 <= p_used p ->
  slotRank size = Some (p_rank p) ->
  index (slots a) (p_rank p) = Some h ->
  index (pages a) (p_rank p) = Some 0 -> index (pages a) firstPageRank = Some 0 ->
  Free off a = (Return tt None, a') ->
  Alloc size a' = (Return o None, a'') ->
  o = off /\ slots a'' = slots a /\ pages a'' = pages a.
Proof.
  intros Hi Ho Hpo Hp Hu Hsr Hh Hp0 Hp7 H HA. apply inv_Inv in Hi.
  pose proof (slotRank_spec _ _ Hsr) as (Hsz & Hr & _).
  destruct (Free_shared_core off a a' p h Hi Ho Hpo Hp ltac:(lia) Hu Hh H)
    as (Hs & Hpg & Hnd & _ & G').
  unfold Alloc in HA.
  destruct (size <=? 0) eqn:E; [apply Z.leb_le in E; lia|]. clear E.
  apply bind_ok in HA as ([] & a1 & Hm & HA).
  unfold modify in Hm. apply (f_equal snd) in Hm. cbn [snd] in Hm. subst a1.
  change maxSlot with 1024 in HA.
  destruct (size >? 1024) eqn:E; [rewrite Z.gtb_ltb in E; apply Z.ltb_lt in E; lia|].
  clear E. rewrite Hsr in HA.
  apply bind_ok in HA as (h0 & a1 & Hat & HA).
  apply at_index_ok in Hat as [Hat ->]. cbn [pages set_allocs] in Hat.
  rewrite Hpg, Hp0 in Hat. apply (inj Some) in Hat. subst h0.
  change (negb (0 =? 0)) with false in HA. cbv iota in HA.
  apply bind_ok in HA as (h7 & a1 & Hat & HA).
  apply at_index_ok in Hat as [Hat ->]. cbn [pages set_allocs] in Hat.
  rewrite Hpg, Hp7 in Hat. apply (inj Some) in Hat. subst h7.
  change (negb (0 =? 0)) with false in HA. cbv iota in HA.
  apply bind_ok in HA as (hs & a1 & Hat & HA).
  apply at_index_ok in Hat as [Hat ->]. cbn [slots set_allocs] in Hat.
  pose proof Hh as Hh'. apply index_lookup in Hh' as [Hr0 Hh'].
  pose proof (lookup_lt_Some _ _ _ Hh') as Hlt.
  assert (hs = off) as ->.
  { apply index_lookup in Hat as [_ Hat].
    rewrite Hs in Hat. rewrite list_lookup_insert_eq in Hat by exact Hlt. congruence. }
  destruct (negb (off =? 0)) eqn:E;
    [|apply negb_false_iff, Z.eqb_eq in E; lia].
  clear E. unfold allocSlot in HA.
  set (c := set_allocs a' (i64 (allocs a' + 1))) in *.
  assert (good c /\ slots c = slots a' /\ pages c = pages a' /\ f c = f a') as (Gc & Sc & Pc & Fc).
  { unfold c. destruct G' as (A1 & A2 & A3 & A4). unfold good.
    cbn [buf pages slots cap f set_allocs]. auto. }
  apply bind_ok in HA as (n & a2 & Hn & HA).
  apply openNode_ok in Hn as [Hn ->]. rewrite Fc in Hn.
  assert (n = mkNode false 0 h off) by congruence. subst n.
  apply bind_ok in HA as ([] & a3 & Hul & HA).
  assert (slots a3 = slots a /\ pages a3 = pages a /\ good a3) as (S3 & P3 & G3).
  { unfold memNode_unlink in Hul. cbn [n_prev n_next n_off] in Hul.
    change (negb (0 =? 0)) with false in Hul. cbv iota in Hul.
    apply bind_ok in Hul as ([] & b1 & Hb1 & Hul). apply ret_ok in Hb1 as [_ ->].
    apply bind_ok in Hul as ([] & b2 & Hb2 & Hul).
    assert (exists fl, b2 = set_f c fl) as (fl & ->).
    { destruct (negb (h =? 0)).
      - apply nrelink_frame in Hb2 as [->|(fl & ->)]; [|eauto].
        exists (f c). destruct c; reflexivity.
      - apply ret_ok in Hb2 as [_ ->]. exists (f c). destruct c; reflexivity. }
    apply bind_ok in Hul as (hh & b3 & Hat' & Hul).
    apply at_index_ok in Hat' as [Hat' ->]. cbn [slots set_f] in Hat'.
    rewrite Sc in Hat'. assert (hh = off) by congruence. subst hh.
    rewrite Z.eqb_refl in Hul. unfold setSlot in Hul. cbn [slots set_f] in Hul.
    rewrite Sc, Hat in Hul. apply (f_equal snd) in Hul. cbn [snd] in Hul. subst a3.
    cbn [slots pages set_dirty set_slots set_f]. rewrite Pc, Hpg, Hs.
    rewrite list_insert_insert_eq, list_insert_id by exact Hh'.
    split; [reflexivity|]. split; [reflexivity|].
    destruct Gc as (A1 & A2 & A3 & A4). pose proof (inv_good a Hi) as (_ & _ & B3 & _).
    unfold good. cbn [buf pages slots cap set_dirty set_slots set_f]. auto. }
  apply bind_ok in HA as (q & a4 & Hq & HA). apply openPage_ok in Hq as [_ ->].
  cbv zeta in HA.
  apply bind_ok in HA as (q' & a5 & Hq' & HA).
  assert (slots a5 = slots a /\ pages a5 = pages a /\ good a5) as (S5 & P5 & G5).
  { apply memPage_flush_ok in Hq' as [(_ & _ & ->)|(_ & _ & fl' & _ & ->)]; [auto|].
    cbn [slots pages set_f]. split; [exact S3|]. split; [exact P3|].
    apply good_set_f. exact G3. }
  apply returning_ok in HA as [-> (x & Hfl)].
  apply flush_frame in Hfl as (Fp & Fs & _); [|exact G5].
  split; [reflexivity|]. split; congruence.
Qed.

Lemma Free_then_Alloc_reuses_slot_witness :
  304 = 304 /\ slots (after (Alloc 1024) slot_freed) = slots full3
  /\ pages (after (Alloc 1024) slot_freed) = pages full3.
Proof.
  apply (Free_then_Alloc_reuses_slot 304 full3 slot_freed (mkPage false 256 3 0 0 6 4096 3) 0
           1024 304 (after (Alloc 1024) slot_freed)).
  - vm_compute. reflexivity.
  - lia.
  - vm_compute. discriminate.
  - vm_compute. reflexivity.
  - cbn. lia.
  - vm_compute. reflexivity.
  - vm_compute. reflexivity.
  - vm_compute. reflexivity.
  - vm_compute. reflexivity.
  - vm_compute. reflexivity.
  - vm_compute. reflexivity.
Defined.

(** * Opening a store *)

Lemma check_heads_sound b base max : forall n i vs,
  check_heads b base max n i = Some vs ->
  length vs = n /\ forall v, In v vs -> 0 <= v <= max.
Proof.
  induction n as [|n IH]; intros i vs H; cbn [check_heads] in H.
  - apply (inj Some) in H. subst vs. split; [reflexivity|]. intros v [].
  - unfold check in H.
    destruct ((read (drop (Z.to_nat (base + 8 * i)) b) <? 0)
              || (read (drop (Z.to_nat (base + 8 * i)) b) >? max)) eqn:E; [discriminate|].
    apply orb_false_iff in E as [E1 E2]. apply Z.ltb_ge in E1.
    rewrite Z.gtb_ltb in E2. apply Z.ltb_ge in E2.
    destruct (check_heads b base max n (i + 1)) as [ws|] eqn:Ew; [|discriminate].
    apply (inj Some) in H. subst vs. apply IH in Ew as [L Hin].
    split; [cbn [length]; lia|]. intros v [<-|Hv]; [lia|auto].
Qed.

Lemma NewAllocator_shape_core fl a e fl' :
  NewAllocator fl = (Return (Some a) e, fl') ->
  e = None /\ good a /\ fsize a = Size fl /\ f a = fl'
  /\ allocs a = 0 /\ bytes a = 0 /\ npages a = 0 /\ dirty a = false
  /\ (oFileSkip < Size fl ->
      forall h, In h (pages a ++ slots a) -> 0 <= h <= i64 (Size fl - szPage)).
Proof.
  assert (forall (x y : option Allocator) e1 e2, Return x e1 = Return y e2 -> x = y /\ e1 = e2)
    as Hi by (intros ? ? ? ? Hx; injection Hx; auto).
  unfold NewAllocator. cbv zeta. cbn [fsize buf].
  destruct (Size fl <=? oFileSkip) eqn:E.
  - apply Z.leb_le in E.
    destruct (WriteAt fl (zeros (szFile - oFileSkip)) oFileSkip) as [[e1|] fl1];
      intros H; [discriminate|].
    pose proof (f_equal snd H) as Hs. cbn [snd] in Hs. subst fl1.
    apply (f_equal fst) in H. cbn [fst] in H. apply Hi in H as [H <-].
    apply (inj Some) in H. subst a.
    split; [reflexivity|]. split; [repeat split|].
    repeat (split; [reflexivity|]). intros Hlt. lia.
  - apply Z.leb_gt in E.
    destruct (ReadAt fl _ oFileSkip) as [b err] eqn:ER.
    destruct (negb _) eqn:EL; [intros H; discriminate|].
    destruct (check_heads b (oFilePages - oFileSkip) _ _ 0) as [ps|] eqn:EP;
      [|intros H; discriminate].
    destruct (check_heads b (oFileSlots - oFileSkip) _ _ 0) as [ss|] eqn:ES;
      [|intros H; discriminate].
    intros H. pose proof (f_equal snd H) as Hs. cbn [snd] in Hs. subst fl'.
    apply (f_equal fst) in H. cbn [fst] in H. apply Hi in H as [H <-].
    apply (inj Some) in H. subst a.
    apply check_heads_sound in EP as [LP HP]. apply check_heads_sound in ES as [LS HS].
    apply negb_false_iff, Nat.eqb_eq in EL.
    split; [reflexivity|]. split.
    { unfold good. cbn [buf pages slots cap set_slots set_pages set_buf].
      split; [exact EL|]. split; [exact LP|]. split; [exact LS|reflexivity]. }
    repeat (split; [reflexivity|]). intros _ h Hin.
    cbn [pages slots set_slots set_pages set_buf] in Hin.
    apply in_app_or in Hin as [Hin|Hin]; [apply HP|apply HS]; exact Hin.
Qed.

(** What [NewAllocator] returns: an allocator over the store as it is
    after the call, with 23 page heads, 7 slot heads, the capacity table
    252, 126, ..., 3, zeroed statistics, the recorded size [fsize] equal to
    the length of the store it was given, and, for a store that held a
    header, every head within [0, fsize - szPage]. *)
Theorem NewAllocator_result fl a e fl' :
  NewAllocator fl = (Return (Some a) e, fl') ->
  e = None
  /\ length (pages a) = Z.to_nat ranks /\ length (slots a) = Z.to_nat slotRanks
  /\ cap a = [252; 126; 63; 31; 15; 7; 3]
  /\ fsize a = Size fl /\ f a = fl'
  /\ allocs a = 0 /\ bytes a = 0 /\ npages a = 0
  /\ (oFileSkip < Size fl -> Size fl < 2 ^ 63 ->
      forall h, In h (pages a ++ slots a) -> 0 <= h <= fsize a - szPage).
Proof.
  intros H.
  destruct (NewAllocator_shape_core fl a e fl' H)
    as (He & (_ & Lp & Ls & Hc) & Hf & Hfl & Ha & Hb & Hn & _ & Hh).
  split; [exact He|]. split; [exact Lp|]. split; [exact Ls|]. split; [exact Hc|].
  split; [exact Hf|]. split; [exact Hfl|]. split; [exact Ha|]. split; [exact Hb|].
  split; [exact Hn|]. intros H16 H63 h Hin. specialize (Hh H16 h Hin).
  rewrite Hf. rewrite i64_id in Hh; [exact Hh|].
  unfold is64. change oFileSkip with 16 in H16. change szPage with 48. lia.
Qed.

Lemma NewAllocator_result_witness :
  length (pages fresh) = Z.to_nat ranks /\ cap fresh = [252; 126; 63; 31; 15; 7; 3]
  /\ fsize fresh = Size empty.
Proof.
  destruct (NewAllocator_result empty fresh None (f fresh)) as (_ & H1 & _ & H2 & H3 & _).
  - vm_compute. reflexivity.
  - auto.
Defined.

(** * What Alloc never does *)

Lemma WriteAt_grows fl x o e fl' : WriteAt fl x o = (e, fl') -> Size fl <= Size fl'.
Proof.
  unfold WriteAt, next_fault, Size.
  destruct (faults fl) as [|bad fs]; cbn [fst snd data faults orb].
  - destruct (o <? 0); intros H; inversion H; subst; cbn [data]; [lia|].
    rewrite length_splice. lia.
  - destruct (bad || (o <? 0)); intros H; inversion H; subst; cbn [data]; [lia|].
    rewrite length_splice. lia.
Qed.

Lemma grows_bind {A B} (m : M A) (d : B) k :
  grows m -> (forall x, grows (k x)) -> grows (bind m d k).
Proof.
  intros Hm Hk a r a' H. unfold bind in H.
  destruct (m a) as [[x [e|]| |] a1] eqn:E.
  - inversion H; subst. eapply Hm; eauto.
  - apply Hm in E. apply Hk in H. lia.
  - inversion H; subst. eapply Hm; eauto.
  - inversion H; subst. eapply Hm; eauto.
Qed.

Lemma grows_returning {A B} (v : B) (m : M A) : grows m -> grows (returning v m).
Proof.
  intros Hm a r a' H. unfold returning in H.
  destruct (m a) as [[x e| |] a1] eqn:E; inversion H; subst; eapply Hm; eauto.
Qed.

Lemma grows_ret {A} (v : A) : grows (ret v).
Proof. intros a r a' H. inversion H. lia. Qed.
Lemma grows_fail {A} (v : A) e : grows (fail v e).
Proof. intros a r a' H. inversion H. lia. Qed.
Lemma grows_panic {A} : grows (@panic A).
Proof. intros a r a' H. inversion H. lia. Qed.
Lemma grows_out_of_fuel {A} : grows (@out_of_fuel A).
Proof. intros a r a' H. inversion H. lia. Qed.
Lemma grows_gets {A} (g : Allocator -> A) : grows (gets g).
Proof. intros a r a' H. inversion H. lia. Qed.
Lemma grows_modify g : (forall a, f (g a) = f a) -> grows (modify g).
Proof. intros Hg a r a' H. inversion H. rewrite Hg. lia. Qed.
Lemma grows_at_index sel i : grows (at_index sel i).
Proof.
  intros a r a' H. unfold at_index in H.
  destruct (index (sel a) i); inversion H; lia.
Qed.
Lemma grows_WriteAt b o : grows (f_WriteAt b o).
Proof.
  intros a r a' H. unfold f_WriteAt in H.
  destruct (WriteAt (f a) b o) as [e fl] eqn:E. inversion H; subst. cbn [f set_f].
  eapply WriteAt_grows; eauto.
Qed.
Lemma grows_setPage r n : grows (setPage r n).
Proof.
  intros a x a' H. unfold setPage in H.
  destruct (index (pages a) r); inversion H; cbn [f set_dirty set_pages]; lia.
Qed.
Lemma grows_setSlot r n : grows (setSlot r n).
Proof.
  intros a x a' H. unfold setSlot in H.
  destruct (index (slots a) r); inversion H; cbn [f set_dirty set_slots]; lia.
Qed.
Lemma grows_openPage off : grows (openPage off).
Proof. intros a r a' H. apply openPage_state in H. subst. lia. Qed.
Lemma grows_openNode off : grows (openNode off).
Proof.
  intros a r a' H. unfold openNode in H. destruct (ReadAt (f a) szNode off) as [b e].
  destruct (negb (Z.of_nat (length b) =? szNode)); inversion H; lia.
Qed.
Lemma grows_memPage_flush m : grows (memPage_flush m).
Proof.
  intros a r a' H. unfold memPage_flush in H.
  destruct (negb (p_dirty m)); [inversion H; lia|].
  destruct (WriteAt (f a) (page_bytes m) (p_off m)) as [e fl] eqn:E.
  inversion H; subst. cbn [f set_f]. eapply WriteAt_grows; eauto.
Qed.
Lemma grows_memNode_flush m : grows (memNode_flush m).
Proof.
  intros a r a' H. unfold memNode_flush in H.
  destruct (negb (n_dirty m)); [inversion H; lia|]. cbv zeta in H.
  destruct (WriteAt (f a) _ (n_off m)) as [e fl] eqn:E.
  inversion H; subst. cbn [f set_f]. eapply WriteAt_grows; eauto.
Qed.
Lemma grows_memPage_setTail m n : grows (memPage_setTail m n).
Proof. apply grows_WriteAt. Qed.
Lemma grows_flush : grows flush.
Proof.
  intros a r a' H. unfold flush in H.
  destruct (negb (dirty a)); [inversion H; lia|]. cbv zeta in H.
  destruct (WriteAt (f a) _ oFileSkip) as [e fl] eqn:E.
  inversion H; subst. cbn [f set_dirty set_f set_buf]. eapply WriteAt_grows; eauto.
Qed.

Create HintDb grows.
#[export] Hint Resolve grows_ret grows_fail grows_panic grows_out_of_fuel grows_gets
  grows_at_index grows_WriteAt grows_setPage grows_setSlot grows_openPage
  grows_openNode grows_memPage_flush grows_memNode_flush grows_memPage_setTail
  grows_flush grows_returning : grows.

Ltac grows_step :=
  match goal with
  | |- grows (bind _ _ _) => apply grows_bind; [|intros ?]
  | |- grows (returning _ _) => apply grows_returning
  | |- grows (if ?c then _ else _) => destruct c
  | |- grows (match ?x with _ => _ end) => destruct x
  | |- grows (modify _) => apply grows_modify; intros ?; reflexivity
  | |- grows _ => solve [auto with grows]
  end.
Ltac grows_tac := repeat grows_step.

Lemma grows_memNode_unlink m r : grows (memNode_unlink m r).
Proof. unfold memNode_unlink. grows_tac. Qed.
Lemma grows_memPage_unlink m : grows (memPage_unlink m).
Proof. unfold memPage_unlink. grows_tac. Qed.
Lemma grows_insertPage p : grows (insertPage p).
Proof. unfold insertPage. grows_tac. Qed.
#[export] Hint Resolve grows_memNode_unlink grows_memPage_unlink grows_insertPage : grows.

Lemma grows_newSharedPage r : grows (newSharedPage r).
Proof.
  intros a x a' H. unfold newSharedPage in H.
  apply (grows_returning _ _ (grows_memPage_setTail _ _)) in H. exact H.
Qed.
Lemma grows_newPage s : grows (newPage s).
Proof.
  intros a x a' H. unfold newPage in H.
  destruct (pageRank (roundup64 (i64 (i64 (szPage + s) + szTail)) pageSize)) as [r|].
  - apply (grows_returning _ _ (grows_memPage_setTail _ _)) in H. exact H.
  - inversion H. lia.
Qed.
#[export] Hint Resolve grows_newSharedPage grows_newPage : grows.

Lemma grows_sbrk h r : grows (sbrk h r).
Proof. unfold sbrk. cbv zeta. grows_tac. Qed.
Lemma grows_sbrk2 h r : grows (sbrk2 h r).
Proof. unfold sbrk2. cbv zeta. grows_tac. Qed.
Lemma grows_allocSlot h r : grows (allocSlot h r).
Proof. unfold allocSlot. cbv zeta. grows_tac. Qed.
Lemma grows_allocBig2 h : grows (allocBig2 h).
Proof. unfold allocBig2. grows_tac. Qed.
Lemma grows_allocMaxRank p need : grows (allocMaxRank p need).
Proof. unfold allocMaxRank. cbv zeta. grows_tac. Qed.
#[export] Hint Resolve grows_sbrk grows_sbrk2 grows_allocSlot grows_allocBig2
  grows_allocMaxRank : grows.

Lemma grows_allocBig_scan need k : grows k -> forall j off, grows (allocBig_scan need off j k).
Proof. intros Hk. induction j as [|j IH]; intros off; cbn [allocBig_scan]; grows_tac. Qed.

Lemma grows_allocBig_loop need k : grows k -> forall n i, grows (allocBig_loop need i n k).
Proof.
  intros Hk. induction n as [|n IH]; intros i; cbn [allocBig_loop]; grows_tac.
  apply grows_allocBig_scan. apply IH.
Qed.

Lemma grows_allocBig size : grows (allocBig size).
Proof.
  unfold allocBig. cbv zeta.
  destruct (pageRank _); [|auto with grows].
  apply grows_allocBig_loop. grows_tac.
Qed.
#[export] Hint Resolve grows_allocBig : grows.

Lemma grows_Alloc size : grows (Alloc size).
Proof. unfold Alloc. cbv zeta. grows_tac. Qed.
#[export] Hint Resolve grows_Alloc : grows.

Lemma grows_Calloc_loop b : forall fuel dst sz, grows (Calloc_loop fuel b dst sz).
Proof.
  induction fuel as [|fuel IH]; intros dst sz; cbn [Calloc_loop]; cbv zeta; grows_tac.
Qed.
#[export] Hint Resolve grows_Calloc_loop : grows.

Lemma grows_Calloc size : grows (Calloc size).
Proof. unfold Calloc. cbv zeta. grows_tac. Qed.

(** [Alloc], [Calloc] and [UsableSize] never shorten the store, whatever
    their outcome: no path of theirs truncates. *)
Theorem Alloc_never_shortens a size off :
  Size (f a) <= Size (f (after (Alloc size) a))
  /\ Size (f a) <= Size (f (after (Calloc size) a))
  /\ Size (f a) <= Size (f (after (UsableSize off) a)).
Proof.
  unfold after. split; [|split].
  - destruct (Alloc size a) as [r a'] eqn:H. cbn [snd]. exact (grows_Alloc size a r a' H).
  - destruct (Calloc size a) as [r a'] eqn:H. cbn [snd]. exact (grows_Calloc size a r a' H).
  - pose proof (UsableSize_state off a) as E. unfold after in E. rewrite E. lia.
Qed.

(** * The copy loop of Realloc *)

Lemma ReadAt_length fl len off b e :
  ReadAt fl len off = (b, e) -> 0 < len ->
  Z.of_nat (length b) <= len /\ (length b = 0%nat -> e <> None).
Proof.
  unfold ReadAt. intros H Hl. destruct (off <? 0).
  - inversion H; subst. cbn [length]. split; [lia|]. intros _. discriminate.
  - injection H as Hb He. subst b e. split.
    + rewrite length_take. lia.
    + intros E. rewrite E. change (Z.of_nat 0) with 0.
      destruct (0 <? len) eqn:E1; [discriminate|]. apply Z.ltb_ge in E1. lia.
Qed.

Lemma Realloc_loop_passed len (k : M Z) : forall fuel src dst rem a,
  0 < len -> rem < 0 -> - 2 ^ 63 <= rem - Z.of_nat fuel * len ->
  copy_failed (Realloc_loop fuel len src dst rem k a).
Proof.
  induction fuel as [|fuel IH]; intros src dst rem a Hl Hr Hb;
    cbn [Realloc_loop];
    (destruct (rem =? 0) eqn:E; [apply Z.eqb_eq in E; lia|]); [exact I|].
  destruct (ReadAt (f a) len src) as [b e] eqn:ER.
  apply ReadAt_length in ER as [Hn He]; [|exact Hl].
  destruct (Z.of_nat (length b) =? 0) eqn:E0.
  - apply Z.eqb_eq in E0. unfold copy_failed. cbn [fst].
    destruct e; [reflexivity|]. apply He; [lia|reflexivity].
  - apply Z.eqb_neq in E0. unfold bind, f_WriteAt.
    destruct (WriteAt (f a) b dst) as [[e1|] fl1]; [reflexivity|].
    rewrite (i64_id (rem - Z.of_nat (length b))) by (unfold is64; nia).
    apply IH; [exact Hl|lia|nia].
Qed.

Lemma Realloc_loop_overrun len (k : M Z) : forall fuel src dst rem a,
  0 < len -> 0 < rem -> rem mod len <> 0 ->
  0 <= src -> src + rem + len <= Size (f a) -> src + rem + len < 2 ^ 63 ->
  Z.of_nat fuel * len <= 2 ^ 62 ->
  copy_failed (Realloc_loop fuel len src dst rem k a).
Proof.
  induction fuel as [|fuel IH]; intros src dst rem a Hl Hr Hm Hs Hsz H63 Hf;
    cbn [Realloc_loop];
    (destruct (rem =? 0) eqn:E; [apply Z.eqb_eq in E; lia|]); [exact I|].
  rewrite ReadAt_ok by lia.
  rewrite length_region by (unfold Size in Hsz; lia).
  rewrite Z2Nat.id by lia.
  destruct (len =? 0) eqn:E0; [apply Z.eqb_eq in E0; lia|].
  unfold bind, f_WriteAt.
  destruct (WriteAt (f a) _ dst) as [[e1|] fl1] eqn:Hw; [reflexivity|].
  apply WriteAt_grows in Hw.
  rewrite (i64_id (rem - len)) by (unfold is64; lia).
  assert (rem - len <> 0) as Hne.
  { intros E1. apply Hm. replace rem with (1 * len) by lia. apply Z.mod_mul. lia. }
  destruct (Z_lt_ge_dec (rem - len) 0) as [Hneg|Hpos].
  - apply Realloc_loop_passed; [exact Hl|exact Hneg|nia].
  - rewrite (i64_id (src + len)) by (unfold is64; lia).
    apply IH; [exact Hl|lia| |lia|cbn [f set_f]; lia|lia|nia].
    replace (rem - len) with (rem + (-1) * len) by lia. rewrite Z.mod_add by lia. exact Hm.
Qed.

(** The copy loop of [Realloc] reads a whole buffer every round, however
    little is left to copy. When the number of bytes to copy is no multiple
    of the buffer length and the store reaches a buffer length beyond them,
    the count of bytes left steps over zero: the loop never gets to what
    follows it (the [Free] of the old block and the successful return); it
    ends with -1 and an error, or it does not end. *)
Theorem Realloc_copy_overrun fuel len src dst rem (k : M Z) a :
  0 < len -> 0 < rem -> rem mod len <> 0 ->
  0 <= src -> src + rem + len <= Size (f a) -> src + rem + len < 2 ^ 63 ->
  Z.of_nat fuel * len <= 2 ^ 62 ->
  copy_failed (Realloc_loop fuel len src dst rem k a).
Proof. apply Realloc_loop_overrun. Qed.

Lemma Realloc_copy_overrun_witness :
  copy_failed (Realloc_loop 100 4 0 32 6 (ret 0) (probe (blank 64))).
Proof.
  apply (Realloc_copy_overrun 100 4 0 32 6 (ret 0) (probe (blank 64)));
    try lia; vm_compute; discriminate.
Defined.

Lemma usableSize_state off a : snd (usableSize off a) = a.
Proof.
  unfold usableSize.
  destruct (off <? szFile + szPage); [reflexivity|].
  unfold bind.
  destruct (openPage _ a) as [r a1] eqn:E. apply openPage_state in E. subst a1.
  destruct r as [p [e|]| |]; try reflexivity.
  destruct ((p_rank p <? 0) || (p_rank p >=? ranks)); [reflexivity|].
  destruct (p_rank p <=? maxSharedRank); reflexivity.
Qed.

(** [Realloc] cannot grow a block of more than 1 MiB whose usable size is
    no multiple of 1 MiB: once the new block is allocated behind it, the
    copy loop steps over the end of the old block and [Realloc] returns -1
    with an error, or does not return; it never returns the new block. *)
Theorem Realloc_grow_over_1MiB fuel off size a n p newOff :
  fst (usableSize off a) = Return (n, p) None -> n < size ->
  fst (Alloc size a) = Return newOff None ->
  bufSize < n -> n mod bufSize <> 0 ->
  off + n + bufSize <= Size (f (after (Alloc size) a)) -> off + n + bufSize < 2 ^ 63 ->
  Z.of_nat fuel * bufSize <= 2 ^ 62 ->
  copy_failed (Realloc fuel off size a).
Proof.
  intros Hu Hn HA Hb Hm Hs H63 Hf.
  pose proof (usableSize_state off a) as Hst.
  destruct (usableSize off a) as [ru au] eqn:Eu. cbn [fst snd] in Hu, Hst. subst ru au.
  pose proof Eu as Eu'. apply usableSize_ok in Eu' as (_ & Ho & _).
  unfold after in Hs.
  destruct (Alloc size a) as [rA a1] eqn:EA. cbn [fst snd] in HA, Hs. subst rA.
  unfold Realloc. change (szFile + szPage) with 304.
  destruct (off <? 304) eqn:E; [apply Z.ltb_lt in E; lia|].
  unfold bufSize in *.
  destruct (size =? 0) eqn:E0; [apply Z.eqb_eq in E0; lia|].
  unfold bind at 1. rewrite Eu. cbv zeta. cbn [fst snd].
  destruct (n >=? size) eqn:E1; [rewrite Z.geb_leb in E1; apply Z.leb_le in E1; lia|].
  unfold bind at 1. rewrite EA.
  rewrite (Z.min_l n size) by lia. rewrite (Z.min_l 1048576 n) by lia.
  change (1048576 <? 0) with false. cbv iota.
  apply Realloc_loop_overrun; lia.
Qed.

Lemma Realloc_grow_over_1MiB_witness :
  copy_failed (Realloc 1000 304 1200000 mega).
Proof.
  apply (Realloc_grow_over_1MiB 1000 304 1200000 mega 1101768
           (mkPage false 256 0 0 0 22 1101824 0) 1102128).
  - vm_compute. reflexivity.
  - lia.
  - vm_compute. reflexivity.
  - unfold bufSize. lia.
  - vm_compute. discriminate.
  - vm_compute. discriminate.
  - unfold bufSize. lia.
  - unfold bufSize. lia.
Defined.

(** * Realloc in place *)

Lemma split_served a p need rk o a' :
  Inv a -> page_at (f a) (p_off p) = Some p -> aligned (p_off p) = true ->
  4096 <= need <= 2 ^ 63 - 4096 -> need mod 4096 = 0 ->
  pageRank need = Some rk -> 7 <= rk <= 22 ->
  need < p_size p ->
  memPage_split p need a = (Return o None, a') ->
  o = p_off p + 48 /\ okoff o /\ G (pageOf o) rk need a'.
Proof.
  intros I Hp Ha Hneed Hnm Hpr Hrk Hsz H.
  pose proof (page_at_small _ _ _ I Hp) as Hsmall.
  pose proof (page_at_is64 _ _ _ Hp) as (Ir & Is & Ib & _ & _ & _ & _).
  set (h := p_off p) in *.
  unfold memPage_split in H.
  destruct (p_rank p <=? maxSharedRank); [apply fail_no in H; contradiction|].
  cbv zeta in H. cbn [p_size memPage_setSize] in H. rewrite Hpr in H.
  apply bind_ok in H as (p3 & a3 & H3 & H).
  pose proof (flush_pages _ _ _ _ H3) as P3.
  apply est_pflush in H3 as [HG ->]; [|exact (inv_good a I)|reflexivity].
  cbn [p_off p_rank p_size memPage_setSize memPage_setRank] in HG. fold h in HG.
  rewrite (i64_id rk), (i64_id need) in HG by (unfold is64; lia).
  apply bind_ok in H as ([] & a4 & H4 & H).
  pose proof (setTail_pos _ _ _ _ H4) as Ht.
  pose proof (setTail_pages _ _ _ _ H4) as P4.
  eapply G_setTail in H4; [|exact HG|].
  2:{ right. cbn [p_off p_size with_dirty memPage_setSize memPage_setRank] in *.
      fold h in Ht |- *. apply tail_apart; auto; unfold is64; lia. }
  cbn [p_off p_size with_dirty memPage_setSize memPage_setRank] in *.
  fold h in H, Ht |- *.
  set (rem := i64 (p_size p - need)) in *.
  assert (rem = p_size p - need) as Erem' by (apply i64_id; unfold is64 in *; lia).
  destruct (pageRank rem) as [r'|] eqn:Er'; [|apply panic_no in H; contradiction].
  assert (1024 < rem) as Hrem.
  { unfold pageRank in Er'. change maxSlot with 1024 in Er'.
    destruct (rem <=? 1024) eqn:E; [discriminate|]. apply Z.leb_gt in E. exact E. }
  apply bind_ok in H as ([] & a6 & H7 & H).
  apply bind_ok in H as (q1 & a7 & H8 & H).
  apply bind_ok in H as (q2 & a8 & H9 & H).
  apply bind_ok in H as ([] & a9 & H10 & H).
  apply returning_ok in H as [-> (x & H6)].
  unfold modify in H7. apply (f_equal snd) in H7. cbn [snd] in H7. subst a6.
  assert (h + need < 2 ^ 63) as Hhn.
  { pose proof (proj1 (aligned_spec _) Ha) as Ha'.
    change szTail with 8 in Ht. clear - Ht Ha' Hnm Hneed Hsmall.
    unfold i64 in Ht. Z.div_mod_to_equations. lia. }
  assert (i64 (h + need) = h + need) as Eq by (apply i64_id; unfold is64; lia).
  rewrite Eq in *.
  pose proof (insertPage_ok _ _ _ _ H8) as (h' & _ & ->).
  eapply G_insertPage in H8.
  2:{ destruct H4 as [Hg Hh]. split; [exact Hg|exact Hh]. }
  2:{ exact Ha. }
  2:{ intros h0 Hh0. cbn [pages set_npages] in Hh0. rewrite P4, P3 in Hh0.
      pose proof (inv_head a I _ _ Hh0) as Hok. unfold head_ok in Hok.
      unfold link_ok. apply orb_true_iff in Hok as [Hok|Hok];
        apply orb_true_iff; [left; exact Hok|right].
      apply andb_true_iff in Hok as [Hok _]. exact Hok. }
  assert (p_off q2 = h + need /\ p_size q2 = rem) as [Oq Sq].
  { pose proof H9 as H9'.
    apply memPage_flush_ok in H9' as [(_ & -> & _)|(_ & -> & _)]; cbn; auto. }
  eapply G_pflush_other in H9; [|exact H8|].
  2:{ cbn [p_off memPage_setNext memPage_setRank memPage_setSize newMemPage]. lia. }
  pose proof (setTail_pos _ _ _ _ H10) as Ht2.
  eapply G_setTail in H10; [|exact H9|].
  2:{ right. rewrite Oq, Sq in *.
      apply (tail_apart (h + need) rem h); auto; try lia.
      unfold is64 in *. lia. }
  eapply G_flush in H6; [|exact H10|apply aligned_mod16 in Ha; lia].
  destruct (head_value h Ha ltac:(lia)) as (E1 & E3).
  change szPage with 48 in *.
  assert (i64 (h + 48) = h + 48) as E48 by (apply i64_id; unfold is64; lia).
  rewrite E48 in *.
  split; [reflexivity|]. split; [exact E1|]. rewrite E3. exact H6.
Qed.

Lemma Realloc_in_place_core fuel off size a n p r o a' :
  Inv a -> 0 < size < 2 ^ 63 -> off < 2 ^ 63 ->
  usableSize off a = (Return (n, p) None, a) -> size <= n ->
  rank size = Some r ->
  p_rank p = r
  \/ (maxSharedRank < r
      /\ roundup64 (i64 (i64 (szPage + size) + szTail)) pageSize < p_size p) ->
  Realloc fuel off size a = (Return o None, a') ->
  (o = off \/ o = pageOf off + szPage)
  /\ exists m, UsableSize o a' = (Return m None, a') /\ size <= m.
Proof.
  intros I Hs Hoff Hu Hn Hrk Hcase H.
  pose proof Hu as Hu'. apply usableSize_ok in Hu' as (_ & Ho & Hp & Hr & Hnv).
  unfold Realloc in H. change (szFile + szPage) with 304 in H.
  destruct (off <? 304) eqn:E; [apply Z.ltb_lt in E; lia|]. clear E.
  destruct (size =? 0) eqn:E0; [apply Z.eqb_eq in E0; lia|]. clear E0.
  unfold bind at 1 in H. rewrite Hu in H. cbv zeta in H. cbn [fst snd] in H.
  destruct (n >=? size) eqn:E1; [|rewrite Z.geb_leb in E1; apply Z.leb_gt in E1; lia].
  clear E1. rewrite Hrk in H.
  destruct (p_rank p =? r) eqn:Er.
  - apply ret_ok in H as [-> ->]. split; [left; reflexivity|].
    exists n. split; [|exact Hn].
    unfold UsableSize. rewrite Hu. reflexivity.
  - apply Z.eqb_neq in Er. destruct Hcase as [Hc|[Hr6 Hlt]]; [contradiction|].
    change maxSharedRank with 6 in *.
    destruct (r >? 6) eqn:E6; [|rewrite Z.gtb_ltb in E6; apply Z.ltb_ge in E6; lia].
    clear E6.
    set (need := roundup64 (i64 (i64 (szPage + size) + szTail)) pageSize) in *.
    destruct (p_size p >? need) eqn:E7;
      [|rewrite Z.gtb_ltb in E7; apply Z.ltb_ge in E7; lia].
    clear E7.
    assert (1024 < size) as Hbig.
    { unfold rank in Hrk. change maxSlot with 1024 in Hrk.
      destruct (size <=? 1024) eqn:E; [|apply Z.leb_gt in E; exact E].
      apply slotRank_spec in Hrk. lia. }
    pose proof (page_at_is64 _ _ _ Hp) as (_ & Is & _ & _ & _ & _ & Hpo).
    assert (exists rk, pageRank need = Some rk) as (rk & Hpr).
    { unfold memPage_split in H.
      destruct (p_rank p <=? maxSharedRank); [apply fail_no in H; contradiction|].
      cbv zeta in H. cbn [p_size memPage_setSize] in H.
      destruct (pageRank need) as [rk|]; [eauto|apply panic_no in H; contradiction]. }
    pose proof (need_facts size rk Hbig ltac:(lia) Hpr) as (N1 & N2 & N3 & N4 & _).
    fold need in N1, N2, N3.
    assert (4096 <= need) as N5.
    { clear - N1 N2 Hbig. Z.div_mod_to_equations. lia. }
    destruct (pageOf_aligned off Ho ltac:(unfold is64; lia)) as [Hal _].
    rewrite <- Hpo in Hp, Hal.
    eapply split_served in H; [|exact I|exact Hp|exact Hal|lia|exact N2|exact Hpr|exact N4|exact Hlt].
    destruct H as (-> & (Ho1 & _ & _) & HG).
    split; [right; rewrite Hpo; reflexivity|].
    exists (need - 56). split; [|lia].
    eapply UsableSize_excl; [exact HG|lia|exact N4|lia].
Qed.

(** [Realloc] in place.  Let the state satisfy the invariants, let
    [0 < size < 2^63], let [usableSize off] succeed with the size [n] and
    the page [p], and let [size <= n].  If the rank of [size] is the rank
    of [p], or it is a page rank (above 6) and [p] spans more than [size]
    with header and tail rounded up to whole pages needs (so that
    [Realloc] splits the page), then a successful [Realloc] returns [off]
    or the first block of the page of [off], and the usable size at the
    returned offset is at least [size]. *)
Theorem Realloc_in_place fuel off size a n p r o a' :
  inv a = true -> 0 < size < 2 ^ 63 -> off < 2 ^ 63 ->
  usableSize off a = (Return (n, p) None, a) -> size <= n ->
  rank size = Some r ->
  p_rank p = r
  \/ (maxSharedRank < r
      /\ roundup64 (i64 (i64 (szPage + size) + szTail)) pageSize < p_size p) ->
  Realloc fuel off size a = (Return o None, a') ->
  (o = off \/ o = pageOf off + szPage)
  /\ exists m, UsableSize o a' = (Return m None, a') /\ size <= m.
Proof. intros Hi. apply inv_Inv in Hi. apply Realloc_in_place_core. exact Hi. Qed.

Lemma Realloc_in_place_witness :
  (304 = 304 \/ 304 = pageOf 304 + szPage)
  /\ exists m, UsableSize 304 shrunk = (Return m None, shrunk) /\ 5000 <= m.
Proof.
  apply (Realloc_in_place 0 304 5000 big 12232 (mkPage false 256 0 0 0 9 12288 0) 8
           304 shrunk).
  - vm_compute. reflexivity.
  - lia.
  - lia.
  - vm_compute. reflexivity.
  - lia.
  - vm_compute. reflexivity.
  - right. vm_compute. split; reflexivity.
  - vm_compute. reflexivity.
Defined.

(** * Bump allocation *)

Lemma sbrk_step a h r p k o a' :
  good a -> 256 <= h <= 2 ^ 62 -> page_at (f a) h = Some p -> p_rank p = r ->
  0 <= r <= 6 -> index (cap a) r = Some k -> 0 <= p_brk p <= 251 ->
  sbrk h r a = (Return o None, a') ->
  o = h + 48 + p_brk p * 2 ^ (r + 4)
  /\ (p_brk p + 1 <> k ->
      good a' /\ pages a' = pages a
      /\ page_at (f a') h
         = Some (mkPage false h (p_brk p + 1) (p_prev p) (p_next p) r (p_size p)
                        (i64 (p_used p + 1)))).
Proof.
  intros G Hh Hp Hr Hrr Hk Hb H.
  pose proof (page_at_is64 _ _ _ Hp) as (I1 & I2 & I3 & I4 & I5 & I6 & Hoff).
  unfold sbrk in H.
  apply bind_ok in H as (p0 & a0 & Hop & H).
  apply openPage_ok in Hop as [Hp0 ->].
  assert (p0 = p) by congruence. subst p0.
  rewrite Hr, Z.eqb_refl in H. cbn [negb] in H. cbv zeta in H.
  apply bind_ok in H as (c & a0 & Hat & H).
  apply at_index_ok in Hat as [Hat ->].
  assert (c = k) by congruence. subst c.
  cbn [p_brk p_used memPage_setBrk memPage_setUsed] in H.
  rewrite (i64_id (p_brk p + 1)) in H by (unfold is64; lia).
  set (q := memPage_setBrk (memPage_setUsed p (i64 (p_used p + 1))) (p_brk p + 1)) in *.
  apply bind_ok in H as (q1 & a1 & Hul & H).
  apply bind_ok in H as (q2 & a2 & Hfl & H).
  apply returning_ok in H as [-> (x & Hflush)].
  assert (p_off q1 = h /\ p_rank q1 = r /\ p_brk q1 = p_brk p + 1) as (O1 & R1 & B1).
  { destruct (p_brk p + 1 =? k).
    - apply memPage_unlink_ok in Hul as [-> _]. cbn. auto.
    - apply ret_ok in Hul as [-> _]. cbn. auto. }
  assert (p_off q2 = h /\ p_rank q2 = r /\ p_brk q2 = p_brk p + 1) as (O2 & R2 & B2).
  { pose proof Hfl as Hfl'.
    apply memPage_flush_ok in Hfl' as [(_ & -> & _)|(_ & -> & _)]; cbn; auto. }
  split.
  { rewrite B2. replace (p_brk p + 1 - 1) with (p_brk p) by lia.
    rewrite (i64_id (p_brk p)) by (unfold is64; lia).
    rewrite (slot_eq q2 (p_brk p) r R2 Hrr ltac:(lia) ltac:(lia)). rewrite O2. reflexivity. }
  intros Hne.
  destruct (p_brk p + 1 =? k) eqn:E; [apply Z.eqb_eq in E; contradiction|].
  apply ret_ok in Hul as [-> ->].
  apply memPage_flush_ok in Hfl as [(Hd & _)|(_ & -> & fl' & Hw & ->)]; [discriminate|].
  assert (good (set_f a fl')) as G1 by (apply good_set_f; exact G).
  pose proof (flush_good _ _ _ G1 Hflush) as [G2 _].
  apply flush_frame in Hflush as (Fp & _ & Ff); [|exact G1].
  cbn [pages f set_f] in Fp, Ff.
  split; [exact G2|]. split; [exact Fp|].
  apply page_written in Hw.
  2:{ unfold int64_page, q.
      cbn [p_brk p_prev p_next p_rank p_size p_used memPage_setBrk memPage_setUsed].
      pose proof (i64_is64 (p_used p + 1)). unfold is64 in *. repeat split; lia. }
  assert (page_at fl' h
          = Some (mkPage false h (p_brk p + 1) (p_prev p) (p_next p) r (p_size p)
                         (i64 (p_used p + 1)))) as Hw'.
  { unfold q, with_dirty in Hw.
    cbn [p_off p_brk p_prev p_next p_rank p_size p_used memPage_setBrk memPage_setUsed]
      in Hw.
    rewrite Hr, Hoff in Hw. exact Hw. }
  destruct Ff as [->|(b & Lb & Hw4)]; [exact Hw'|].
  eapply page_at_write_other; [exact Hw4|exact Hw'|rewrite Lb; lia].
Qed.

(** Bump allocation.  Let the state satisfy the invariants, let [size]
    and [size'] both have the slot rank [r], let the page list of rank [r]
    have the head [h <> 0] whose header on the store is [p], and let [p]
    have more than one slot left to carve ([p_brk p + 1] is below the
    capacity of rank [r]).  Then two successful [Alloc]s in a row, of
    [size] and of [size'], return the slot number [p_brk p] of that page,
    [h + 48 + p_brk p * 2^(r+4)], and the slot right behind it, one slot
    length [2^(r+4)] further. *)
Theorem Alloc_carves_consecutive a size size' r h p k o1 a1 o2 a2 :
  inv a = true -> slotRank size = Some r -> slotRank size' = Some r ->
  index (pages a) r = Some h -> h <> 0 -> page_at (f a) h = Some p ->
  index (cap a) r = Some k -> p_brk p + 1 < k ->
  Alloc size a = (Return o1 None, a1) -> Alloc size' a1 = (Return o2 None, a2) ->
  o1 = h + szPage + p_brk p * 2 ^ (r + 4) /\ o2 = o1 + 2 ^ (r + 4).
Proof.
  intros Hi Hs Hs' Hh Hh0 Hp Hk Hb H1 H2. apply inv_Inv in Hi.
  pose proof (slotRank_spec _ _ Hs) as (Hsz & Hr & _).
  pose proof (slotRank_spec _ _ Hs') as (Hsz' & _ & _).
  pose proof (inv_good a Hi) as G.
  pose proof (inv_head a Hi _ _ Hh) as Hok.
  apply head_ok_page in Hok as (Hal & p' & Hp' & Hpr & _ & _ & Hbrk & _); [|exact Hh0].
  assert (p' = p) by congruence. subst p'.
  destruct (Hbrk ltac:(lia)) as (Hb0 & k' & Hk' & Hbk).
  destruct G as (Lb & Lp & Ls & Hcap). rewrite Hcap in Hk.
  assert (k' = k) by congruence. subst k'.
  assert (k <= 252) as Hk252.
  { apply index_lookup in Hk as [_ Hk].
    assert (Z.to_nat r < 7)%nat as Hlt by (apply lookup_lt_Some in Hk; exact Hk).
    assert (r = 0 \/ r = 1 \/ r = 2 \/ r = 3 \/ r = 4 \/ r = 5 \/ r = 6) as Hc by lia.
    destruct Hc as [E|[E|[E|[E|[E|[E|E]]]]]]; rewrite E in Hk; cbn in Hk;
      apply (inj Some) in Hk; lia. }
  pose proof (page_at_small _ _ _ Hi Hp) as Hsmall.
  apply aligned_spec in Hal as [Hal _].
  assert (forall b sz o x,
            good b -> index (pages b) r = Some h -> slotRank sz = Some r -> 1 <= sz <= 1024 ->
            Alloc sz b = (Return o None, x) ->
            sbrk h r (set_allocs b (i64 (allocs b + 1))) = (Return o None, x)) as Hpath.
  { intros b sz o x Gb Hb' Hsr Hszb HA. unfold Alloc in HA.
    destruct (sz <=? 0) eqn:E; [apply Z.leb_le in E; lia|]. clear E.
    apply bind_ok in HA as ([] & b1 & Hm & HA).
    unfold modify in Hm. apply (f_equal snd) in Hm. cbn [snd] in Hm. subst b1.
    change maxSlot with 1024 in HA.
    destruct (sz >? 1024) eqn:E; [rewrite Z.gtb_ltb in E; apply Z.ltb_lt in E; lia|].
    clear E. rewrite Hsr in HA.
    apply bind_ok in HA as (h0 & b1 & Hat & HA).
    apply at_index_ok in Hat as [Hat ->]. cbn [pages set_allocs] in Hat.
    assert (h0 = h) by congruence. subst h0.
    destruct (negb (h =? 0)) eqn:E; [exact HA|].
    apply negb_false_iff, Z.eqb_eq in E. contradiction. }
  change szPage with 48.
  apply Hpath in H1; [|unfold good; rewrite Hcap; auto|exact Hh|exact Hs|exact Hsz].
  eapply sbrk_step in H1.
  2:{ unfold good. cbn [buf pages slots cap set_allocs]. rewrite Hcap. auto. }
  2:{ split; [exact Hal|lia]. }
  2:{ cbn [f set_allocs]. exact Hp. }
  2:{ exact Hpr. }
  2:{ exact Hr. }
  2:{ cbn [cap set_allocs]. rewrite Hcap. exact Hk. }
  2:{ lia. }
  destruct H1 as (-> & Hnext).
  destruct (Hnext ltac:(lia)) as (G1 & P1 & Hp1). cbn [pages set_allocs] in P1.
  split; [reflexivity|].
  apply Hpath in H2; [|exact G1|rewrite P1; exact Hh|exact Hs'|exact Hsz'].
  eapply sbrk_step in H2.
  2:{ destruct G1 as (A1 & A2 & A3 & A4). unfold good.
      cbn [buf pages slots cap set_allocs]. auto. }
  2:{ split; [exact Hal|lia]. }
  2:{ cbn [f set_allocs]. exact Hp1. }
  2:{ reflexivity. }
  2:{ exact Hr. }
  2:{ cbn [cap set_allocs]. destruct G1 as (_ & _ & _ & ->). exact Hk. }
  2:{ cbn [p_brk]. lia. }
  destruct H2 as (-> & _). cbn [p_brk]. lia.
Qed.

Lemma Alloc_carves_consecutive_witness :
  320 = 256 + szPage + 1 * 2 ^ (0 + 4) /\ 336 = 320 + 2 ^ (0 + 4).
Proof.
  apply (Alloc_carves_consecutive small 10 16 0 256 (mkPage false 256 1 0 0 0 4096 1) 252
           320 pair 336 (after (Alloc 16) pair)).
  - vm_compute. reflexivity.
  - vm_compute. reflexivity.
  - vm_compute. reflexivity.
  - vm_compute. reflexivity.
  - discriminate.
  - vm_compute. reflexivity.
  - vm_compute. reflexivity.
  - cbn. lia.
  - vm_compute. reflexivity.
  - vm_compute. reflexivity.
Defined.

(** * Free pages *)

Lemma prelink_frame h (upd : memPage -> memPage) a a' :
  (try next <- openPage h else tt;
   try _ <- memPage_flush (upd next) else tt;
   ret tt) a = (Return tt None, a') ->
  a' = a \/ exists fl, a' = set_f a fl.
Proof.
  intros H. apply bind_ok in H as (nx & a1 & H1 & H).
  apply openPage_ok in H1 as [_ ->].
  apply bind_ok in H as (m' & a2 & H2 & H). apply ret_ok in H as [_ ->].
  apply memPage_flush_ok in H2 as [(_ & _ & ->)|(_ & _ & fl' & _ & ->)]; eauto.
Qed.

Lemma Free_page_core off a a' p h :
  Inv a -> 304 <= off < 2 ^ 63 ->
  page_at (f a) (pageOf off) = Some p -> maxSharedRank < p_rank p ->
  shape_ok p = true -> p_used p = 0 -> p_prev p = 0 -> p_next p = 0 ->
  i64 (p_off p + p_size p) <> fsize a ->
  index (pages a) (p_rank p) = Some h ->
  Free off a = (Return tt None, a') ->
  pages a' = <[Z.to_nat (p_rank p) := p_off p]> (pages a)
  /\ slots a' = slots a
  /\ page_at (f a') (p_off p)
     = Some (mkPage false (p_off p) (p_brk p) 0 h (p_rank p) (p_size p) 0).
Proof.
  intros I Ho Hp Hr Hsh Hu Hpv Hnx Hlast Hh H.
  change maxSharedRank with 6 in *.
  pose proof (inv_good a I) as (Lb & Lp & Ls & Hcap).
  pose proof (page_at_is64 _ _ _ Hp) as (I1 & I2 & I3 & I4 & I5 & I6 & Hoff).
  pose proof (page_at_small _ _ _ I Hp) as Hsmall.
  destruct (pageOf_aligned off ltac:(lia) ltac:(unfold is64; lia)) as [Hal _].
  apply aligned_spec in Hal as [Hal _].
  apply shape_ok_excl in Hsh as (Hs0 & Hsm & _); [|lia].
  assert (is64 h) as Ih.
  { pose proof (inv_head a I _ _ Hh) as Hs. unfold head_ok in Hs.
    apply orb_true_iff in Hs as [Hs|Hs]; [apply Z.eqb_eq in Hs; subst h; unfold is64; lia|].
    apply andb_true_iff in Hs as [_ Hn].
    destruct (page_at (f a) h) as [n0|] eqn:Hn0; [|discriminate].
    apply (page_at_small _ _ _ I) in Hn0. unfold is64. lia. }
  unfold Free in H. change (szFile + szPage) with 304 in H.
  destruct (off <? 304) eqn:E; [apply Z.ltb_lt in E; lia|]. clear E.
  apply bind_ok in H as ([] & a1 & Hm & H).
  unfold modify in Hm. apply (f_equal snd) in Hm. cbn [snd] in Hm. subst a1.
  apply bind_ok in H as (p0 & a1 & Hop & H). fold (pageOf off) in Hop.
  apply openPage_ok in Hop as [Hp0 ->]. cbn [f set_allocs] in Hp0.
  assert (p0 = p) by congruence. subst p0.
  change maxSharedRank with 6 in H.
  destruct (p_rank p >? 6) eqn:E; [|rewrite Z.gtb_ltb in E; apply Z.ltb_ge in E; lia].
  clear E.
  apply bind_ok in H as ([] & a2 & Hfp & Hfl).
  unfold freePage in Hfp. rewrite Hu in Hfp. change (negb (0 =? 0)) with false in Hfp.
  cbv iota in Hfp.
  apply bind_ok in Hfp as (fs & a11 & Hg & Hfp).
  unfold gets in Hg. injection Hg as <- <-. cbn [fsize set_allocs] in Hfp.
  destruct (i64 (p_off p + p_size p) =? fsize a) eqn:E; [apply Z.eqb_eq in E; contradiction|].
  clear E. change maxSharedRank with 6 in Hfp.
  destruct (p_rank p <=? 6) eqn:E; [apply Z.leb_le in E; lia|]. clear E.
  apply bind_ok in Hfp as (p1 & a12 & Hr1 & Hfp). apply ret_ok in Hr1 as [-> ->].
  apply bind_ok in Hfp as (p2 & a13 & Hins & Hfp).
  apply bind_ok in Hfp as (p3 & a14 & Hpf & Htail).
  (* insertPage *)
  unfold insertPage in Hins. rewrite Hpv, Hnx in Hins.
  change (negb (0 =? 0) || negb (0 =? 0)) with false in Hins. cbv iota in Hins.
  apply bind_ok in Hins as (h' & a21 & Hat & Hins).
  apply at_index_ok in Hat as [Hat ->]. cbn [pages set_allocs] in Hat.
  assert (h' = h) by congruence. subst h'.
  cbv zeta in Hins. cbn [p_next p_rank p_off memPage_setNext] in Hins.
  apply bind_ok in Hins as ([] & a22 & Hrel & Hins).
  assert (exists fl1, a22 = set_f (set_allocs a (i64 (allocs a - 1))) fl1) as (fl1 & ->).
  { destruct (negb (h =? 0)).
    - apply prelink_frame in Hrel as [->|(fl & ->)]; [|eauto].
      exists (f a). destruct a; reflexivity.
    - apply ret_ok in Hrel as [_ ->]. exists (f a). destruct a; reflexivity. }
  apply bind_ok in Hins as ([] & a23 & Hset & Hins). apply ret_ok in Hins as [-> ->].
  unfold setPage in Hset. cbn [pages set_f set_allocs] in Hset. rewrite Hh in Hset.
  apply (f_equal snd) in Hset. cbn [snd] in Hset. subst a23.
  (* the page header and its tail *)
  apply memPage_flush_ok in Hpf as [(Hd & _)|(_ & -> & fl3 & Hw3 & ->)]; [discriminate|].
  cbn [f set_dirty set_pages set_f set_allocs p_off memPage_setNext] in Hw3.
  pose proof Hw3 as Hw3'.
  apply (page_written _ _ (memPage_setNext p h)) in Hw3';
    [|unfold int64_page; cbn [p_brk p_prev p_next p_rank p_size p_used memPage_setNext];
      unfold is64 in *; repeat split; lia].
  unfold with_dirty in Hw3'.
  cbn [p_off p_brk p_prev p_next p_rank p_size p_used memPage_setNext] in Hw3'.
  rewrite Hpv, Hu in Hw3'.
  unfold memPage_setTail in Htail.
  cbn [p_off p_size with_dirty memPage_setNext] in Htail.
  apply f_WriteAt_ok in Htail as (fl4 & Hw4 & ->).
  pose proof Hw4 as Hw4'. apply WriteAt_ok in Hw4' as [Ht _].
  eapply page_at_write_other in Hw3'; [|exact Hw4|].
  2:{ right. rewrite Hoff in *.
      apply (tail_apart (pageOf off) (p_size p) (pageOf off)); auto; try lia.
      clear - Hs0 Hsm. Z.div_mod_to_equations. lia. }
  (* the file header *)
  apply flush_frame in Hfl as (Fp & Fs & Ff).
  2:{ unfold good. cbn [buf pages slots cap set_dirty set_pages set_f set_allocs].
      rewrite length_insert. auto. }
  cbn [pages slots f set_dirty set_pages set_f set_allocs] in Fp, Fs, Ff.
  split; [exact Fp|]. split; [exact Fs|].
  destruct Ff as [->|(b & Lbb & Hw5)]; [exact Hw3'|].
  eapply page_at_write_other; [exact Hw5|exact Hw3'|rewrite Lbb, Hoff; lia].
Qed.

(** [Free] of the block of an exclusive page.  Let the state satisfy the
    invariants, let [off >= 304] lie in a page whose header [p] has a page
    rank (above 6), a size that is a positive multiple of 4096 of that
    rank, no used slots and no links ([p_prev p = 0], [p_next p = 0]), and
    which does not end where the store ends, and let the page list of the
    rank have the head [h].  Then a successful [Free off] puts the page at
    the head of the page list of its rank: the allocator's head is the
    page's offset, the header on the store has the next link [h] and the
    previous link 0, and the slot heads are unchanged. *)
Theorem Free_pushes_page off a a' p h :
  inv a = true -> 304 <= off < 2 ^ 63 ->
  page_at (f a) (pageOf off) = Some p -> maxSharedRank < p_rank p ->
  shape_ok p = true -> p_used p = 0 -> p_prev p = 0 -> p_next p = 0 ->
  i64 (p_off p + p_size p) <> fsize a ->
  index (pages a) (p_rank p) = Some h ->
  Free off a = (Return tt None, a') ->
  index (pages a') (p_rank p) = Some (p_off p)
  /\ slots a' = slots a
  /\ page_at (f a') (p_off p)
     = Some (mkPage false (p_off p) (p_brk p) 0 h (p_rank p) (p_size p) 0).
Proof.
  intros Hi Ho Hp Hr Hsh Hu Hpv Hnx Hlast Hh H. apply inv_Inv in Hi.
  destruct (Free_page_core off a a' p h Hi Ho Hp Hr Hsh Hu Hpv Hnx Hlast Hh H)
    as (Hs & Hrest).
  split; [|exact Hrest].
  apply index_lookup in Hh as [Hr0 Hh]. apply index_lookup. split; [exact Hr0|].
  rewrite Hs. apply list_lookup_insert_Some. left.
  split; [reflexivity|]. split; [reflexivity|]. eapply lookup_lt_Some. exact Hh.
Qed.

Lemma Free_pushes_page_witness :
  index (pages (hole 10000)) 9 = Some 256
  /\ slots (hole 10000) = slots (plugged 10000)
  /\ page_at (f (hole 10000)) 256 = Some (mkPage false 256 0 0 0 9 12288 0).
Proof.
  apply (Free_pushes_page 304 (plugged 10000) (hole 10000)
           (mkPage false 256 0 0 0 9 12288 0) 0).
  - vm_compute. reflexivity.
  - lia.
  - vm_compute. reflexivity.
  - vm_compute. reflexivity.
  - vm_compute. reflexivity.
  - reflexivity.
  - reflexivity.
  - reflexivity.
  - vm_compute. discriminate.
  - vm_compute. reflexivity.
  - vm_compute. reflexivity.
Defined.

(** A freed exclusive page is reused first.  Let the state satisfy the
    invariants, let [off >= 304] lie in a page whose header [p] has a rank
    below the last one (22), a well-formed size for its rank, no used
    slots and no links, and which does not end where the store ends, and
    let the page list of the rank have a head (zero or not).  Let
    [1024 < size < 2^63] be a size whose page need (size, header and tail
    rounded up to whole pages) has the rank of [p].  If [Free off]
    succeeds and [Alloc size] succeeds right after it, the [Alloc] returns
    the first block of that same page, [pageOf off + 48]. *)
Theorem Free_then_Alloc_reuses_page off a a' p h size o a'' :
  inv a = true -> 304 <= off < 2 ^ 63 ->
  page_at (f a) (pageOf off) = Some p -> p_rank p < ranks - 1 ->
  shape_ok p = true -> p_used p = 0 -> p_prev p = 0 -> p_next p = 0 ->
  i64 (p_off p + p_size p) <> fsize a ->
  index (pages a) (p_rank p) = Some h ->
  maxSlot < size < 2 ^ 63 ->
  pageRank (roundup64 (i64 (i64 (szPage + size) + szTail)) pageSize) = Some (p_rank p) ->
  Free off a = (Return tt None, a') ->
  Alloc size a' = (Return o None, a'') ->
  o = pageOf off + szPage.
Proof.
  intros Hi Ho Hp Hr22 Hsh Hu Hpv Hnx Hlast Hh Hsz Hpr H HA. apply inv_Inv in Hi.
  change maxSlot with 1024 in Hsz. change (ranks - 1) with 22 in Hr22.
  pose proof (need_facts size _ ltac:(lia) ltac:(lia) Hpr) as (_ & _ & _ & Hr7 & _).
  pose proof (page_at_is64 _ _ _ Hp) as (_ & _ & _ & _ & _ & _ & Hoff).
  pose proof (page_at_small _ _ _ Hi Hp) as Hsmall.
  destruct (pageOf_aligned off ltac:(lia) ltac:(unfold is64; lia)) as [Hal _].
  apply aligned_spec in Hal as [Hal _].
  destruct (Free_page_core off a a' p h Hi Ho Hp ltac:(change maxSharedRank with 6; lia)
              Hsh Hu Hpv Hnx Hlast Hh H) as (Hs & _ & _).
  unfold Alloc in HA.
  destruct (size <=? 0) eqn:E; [apply Z.leb_le in E; lia|]. clear E.
  apply bind_ok in HA as ([] & a1 & Hm & HA).
  unfold modify in Hm. apply (f_equal snd) in Hm. cbn [snd] in Hm. subst a1.
  change maxSlot with 1024 in HA.
  destruct (size >? 1024) eqn:E; [|rewrite Z.gtb_ltb in E; apply Z.ltb_ge in E; lia].
  clear E. unfold allocBig in HA. cbv zeta in HA. rewrite Hpr in HA.
  change ranks with 23 in HA.
  destruct (Z.to_nat (23 - p_rank p)) as [|n] eqn:En; [lia|].
  cbn [allocBig_loop] in HA.
  apply bind_ok in HA as (h0 & a1 & Hat & HA).
  apply at_index_ok in Hat as [Hat ->]. cbn [pages set_allocs] in Hat.
  assert (h0 = p_off p) as ->.
  { apply index_lookup in Hat as [_ Hat]. apply index_lookup in Hh as [_ Hh].
    rewrite Hs in Hat.
    rewrite list_lookup_insert_eq in Hat by (eapply lookup_lt_Some; exact Hh).
    congruence. }
  destruct (p_off p =? 0) eqn:E; [apply Z.eqb_eq in E; lia|]. clear E.
  change (ranks - 1) with 22 in HA.
  destruct (p_rank p <? 22) eqn:E; [|apply Z.ltb_ge in E; lia]. clear E.
  unfold allocBig2 in HA.
  apply bind_ok in HA as (q & a2 & Hq & HA). apply openPage_ok in Hq as [Hq ->].
  apply page_at_is64 in Hq as (_ & _ & _ & _ & _ & _ & Hqo).
  apply bind_ok in HA as (q1 & a3 & Hq1 & HA). apply memPage_unlink_ok in Hq1 as [-> _].
  apply bind_ok in HA as (q2 & a4 & Hq2 & HA).
  assert (p_off q2 = p_off p) as Hq2o.
  { apply memPage_flush_ok in Hq2 as [(_ & -> & _)|(_ & -> & _)]; cbn; exact Hqo. }
  apply bind_ok in HA as ([] & a5 & _ & HA).
  apply returning_ok in HA as [-> _].
  rewrite Hq2o, Hoff. change szPage with 48. apply i64_id. unfold is64. lia.
Qed.

Lemma Free_then_Alloc_reuses_page_witness : 304 = pageOf 304 + szPage.
Proof.
  apply (Free_then_Alloc_reuses_page 304 (plugged 10000) (hole 10000)
           (mkPage false 256 0 0 0 9 12288 0) 0 9000 304 (after (Alloc 9000) (hole 10000))).
  - vm_compute. reflexivity.
  - lia.
  - vm_compute. reflexivity.
  - vm_compute. reflexivity.
  - vm_compute. reflexivity.
  - reflexivity.
  - reflexivity.
  - reflexivity.
  - vm_compute. discriminate.
  - vm_compute. reflexivity.
  - unfold maxSlot. lia.
  - vm_compute. reflexivity.
  - vm_compute. reflexivity.
  - vm_compute. reflexivity.
Defined.
